(** * Legal-document segmentation and extraction pipeline

    A shallow embedding of the text normalizer, the two article segmenters,
    the regex split, the per-article extraction call with its orchestrating
    loop, and the JSON result processor, followed by the properties proved
    about them.

    Python [str] values are modelled as lists of Unicode code points, so that
    [len], [strip], [split] and the regular expressions act on the same
    units as in the interpreter. *)

From Stdlib Require Import String Ascii List NArith ZArith Bool Arith Lia.
Import ListNotations.

(* ================================================================== *)
(** * Part I: the model *)
(* ================================================================== *)

(** ** Python strings *)

Module Py.

Local Open Scope N_scope.

(** A [str] is a sequence of code points. *)
Definition pystr := list N.

(** Reads a UTF-8 byte sequence; only used to write literals legibly. *)
Fixpoint utf8_decode (bs : list N) : pystr :=
  match bs with
  | [] => []
  | b0 :: r0 =>
    if b0 <? 0x80 then b0 :: utf8_decode r0
    else
      match r0 with
      | [] => []
      | b1 :: r1 =>
        if b0 <? 0xE0 then ((b0 mod 32) * 64 + b1 mod 64) :: utf8_decode r1
        else
          match r1 with
          | [] => []
          | b2 :: r2 =>
            if b0 <? 0xF0
            then ((b0 mod 16) * 4096 + (b1 mod 64) * 64 + b2 mod 64) :: utf8_decode r2
            else
              match r2 with
              | [] => []
              | b3 :: r3 =>
                ((b0 mod 8) * 262144 + (b1 mod 64) * 4096 + (b2 mod 64) * 64 + b3 mod 64)
                  :: utf8_decode r3
              end
          end
      end
  end.

(** [py "..."] is the Python literal with the same text. *)
Definition py (s : string) : pystr :=
  utf8_decode (map N_of_ascii (list_ascii_of_string s)).

Arguments py s%_string.

Definition NL : N := 10.
Definition CR : N := 13.
Definition SP : N := 32.

(** Truth value of a [str]: non-empty. *)
Definition truthy (s : pystr) : bool :=
  match s with [] => false | _ :: _ => true end.

(** The code points for which [str.isspace] holds; [strip()] with no
    argument and the regex class [\s] use the same set. *)
Definition whitespace : list N :=
  [0x9; 0xA; 0xB; 0xC; 0xD; 0x1C; 0x1D; 0x1E; 0x1F; 0x20; 0x85; 0xA0; 0x1680;
   0x2000; 0x2001; 0x2002; 0x2003; 0x2004; 0x2005; 0x2006; 0x2007; 0x2008;
   0x2009; 0x200A; 0x2028; 0x2029; 0x202F; 0x205F; 0x3000].

Definition isspace (c : N) : bool := existsb (N.eqb c) whitespace.

(** The decimal digits of Unicode 14 (general category Nd, the table of
    CPython 3.11), which is what [\d] matches in a [str] pattern: first
    code point and length of each block. *)
Definition decimal_blocks : list (N * N) :=
  [(0x30, 10); (0x660, 10); (0x6F0, 10); (0x7C0, 10); (0x966, 10); (0x9E6, 10);
   (0xA66, 10); (0xAE6, 10); (0xB66, 10); (0xBE6, 10); (0xC66, 10); (0xCE6, 10);
   (0xD66, 10); (0xDE6, 10); (0xE50, 10); (0xED0, 10); (0xF20, 10); (0x1040, 10);
   (0x1090, 10); (0x17E0, 10); (0x1810, 10); (0x1946, 10); (0x19D0, 10);
   (0x1A80, 10); (0x1A90, 10); (0x1B50, 10); (0x1BB0, 10); (0x1C40, 10);
   (0x1C50, 10); (0xA620, 10); (0xA8D0, 10); (0xA900, 10); (0xA9D0, 10);
   (0xA9F0, 10); (0xAA50, 10); (0xABF0, 10); (0xFF10, 10); (0x104A0, 10);
   (0x10D30, 10); (0x11066, 10); (0x110F0, 10); (0x11136, 10); (0x111D0, 10);
   (0x112F0, 10); (0x11450, 10); (0x114D0, 10); (0x11650, 10); (0x116C0, 10);
   (0x11730, 10); (0x118E0, 10); (0x11950, 10); (0x11C50, 10); (0x11D50, 10);
   (0x11DA0, 10); (0x16A60, 10); (0x16AC0, 10); (0x16B50, 10); (0x1D7CE, 50);
   (0x1E140, 10); (0x1E2F0, 10); (0x1E950, 10); (0x1FBF0, 10)].

Definition isdecimal (c : N) : bool :=
  existsb (fun b => (fst b <=? c) && (c <? fst b + snd b)) decimal_blocks.

(** [s.lstrip()], [s.rstrip()] and [s.strip()]. *)
Fixpoint lstrip (s : pystr) : pystr :=
  match s with
  | [] => []
  | c :: s' => if isspace c then lstrip s' else s
  end.

Fixpoint rstrip (s : pystr) : pystr :=
  match s with
  | [] => []
  | c :: s' =>
    match rstrip s' with
    | [] => if isspace c then [] else [c]
    | r => c :: r
    end
  end.

Definition strip (s : pystr) : pystr := rstrip (lstrip s).

(** [s.split('\n')]: never empty, the empty string gives one empty piece. *)
Fixpoint split_nl (s : pystr) : list pystr :=
  match s with
  | [] => [[]]
  | c :: s' =>
    if c =? NL then [] :: split_nl s'
    else
      match split_nl s' with
      | l :: ls => (c :: l) :: ls
      | [] => [[c]]
      end
  end.

(** ['\n'.join(parts)]. *)
Fixpoint join_nl (parts : list pystr) : pystr :=
  match parts with
  | [] => []
  | [p] => p
  | p :: rest => p ++ NL :: join_nl rest
  end.

(** [str(n)] for a non-negative integer. *)
Fixpoint uint_chars (d : Decimal.uint) : pystr :=
  match d with
  | Decimal.Nil => []
  | Decimal.D0 d => 48 :: uint_chars d
  | Decimal.D1 d => 49 :: uint_chars d
  | Decimal.D2 d => 50 :: uint_chars d
  | Decimal.D3 d => 51 :: uint_chars d
  | Decimal.D4 d => 52 :: uint_chars d
  | Decimal.D5 d => 53 :: uint_chars d
  | Decimal.D6 d => 54 :: uint_chars d
  | Decimal.D7 d => 55 :: uint_chars d
  | Decimal.D8 d => 56 :: uint_chars d
  | Decimal.D9 d => 57 :: uint_chars d
  end.

Definition str_of_nat (n : nat) : pystr := uint_chars (Nat.to_uint n).

End Py.

(** ** The article-marker pattern *)

Module Marker.
Import Py.
Local Open Scope N_scope.

(** The two delimiters of a marker and the enumerated numerals of the
    character class. *)
Definition DI : N := 0x7B2C.
Definition TIAO : N := 0x6761.
Definition numerals : pystr :=
  [0x96F6; 0x4E00; 0x4E8C; 0x4E09; 0x56DB; 0x4E94; 0x516D; 0x4E03; 0x516B;
   0x4E5D; 0x5341; 0x767E; 0x5343].

(** Membership in the class of numerals and [\d]. *)
Definition in_class (c : N) : bool := existsb (N.eqb c) numerals || isdecimal c.

(** The longest prefix of class characters, and what follows it. *)
Fixpoint span_class (s : pystr) : pystr * pystr :=
  match s with
  | [] => ([], [])
  | c :: s' =>
    if in_class c then let (ds, r) := span_class s' in (c :: ds, r)
    else ([], s)
  end.

(** [re.match] of the marker pattern at the start of [s]: the matched token
    and the text after it.  The closing character is not in the class, so
    the greedy repetition can only stop at the end of the run. *)
Definition match_marker (s : pystr) : option (pystr * pystr) :=
  match s with
  | [] => None
  | c :: s' =>
    if c =? DI then
      match span_class s' with
      | (d :: ds, t :: r) => if t =? TIAO then Some (c :: (d :: ds) ++ [t], r) else None
      | _ => None
      end
    else None
  end.

Definition is_marker (s : pystr) : bool :=
  match match_marker s with Some _ => true | None => false end.

(** The marker tokens of a text, in order of occurrence. *)
Fixpoint markers (s : pystr) : list pystr :=
  match s with
  | [] => []
  | c :: s' =>
    match match_marker s with
    | Some (tok, _) => tok :: markers s'
    | None => markers s'
    end
  end.

End Marker.

(** ** Text normalizer: [PDFCivilCodeParser._clean_pdf_text] *)

Module Normalizer.
Import Py Marker.
Local Open Scope N_scope.

(** [text.replace('\r\n', '\n')] *)
Fixpoint replace_crlf (s : pystr) : pystr :=
  match s with
  | [] => []
  | c :: s' =>
    match s' with
    | n :: s'' =>
      if (c =? CR) && (n =? NL) then NL :: replace_crlf s'' else c :: replace_crlf s'
    | [] => [c]
    end
  end.

(** [text.replace('\r', '\n')] *)
Definition replace_cr (s : pystr) : pystr :=
  map (fun c => if c =? CR then NL else c) s.

(** [re.sub(x+, x, text)] for a single character [x]: the first character
    of each run is kept, the rest of the run is consumed. *)
Fixpoint collapse_go (x : N) (in_run : bool) (s : pystr) : pystr :=
  match s with
  | [] => []
  | c :: s' =>
    if c =? x then
      if in_run then collapse_go x true s' else c :: collapse_go x true s'
    else c :: collapse_go x false s'
  end.

Definition collapse (x : N) (s : pystr) : pystr := collapse_go x false s.

(** [re.sub(r'(marker)', r'\n\1', text)]: matches are found left to right
    and do not overlap; [skip] counts the characters of the current match
    still to be copied. *)
Fixpoint newline_before_markers_go (skip : nat) (s : pystr) : pystr :=
  match s with
  | [] => []
  | c :: s' =>
    match skip with
    | S k => c :: newline_before_markers_go k s'
    | O =>
      match match_marker s with
      | Some (tok, _) => NL :: c :: newline_before_markers_go (pred (length tok)) s'
      | None => c :: newline_before_markers_go 0 s'
      end
    end
  end.

Definition newline_before_markers (s : pystr) : pystr :=
  newline_before_markers_go 0 s.

Definition _clean_pdf_text (text : pystr) : pystr :=
  let text := replace_crlf text in
  let text := replace_cr text in
  let text := collapse SP text in
  let text := collapse NL text in
  let text := newline_before_markers text in
  strip text.

End Normalizer.

(** ** Article segmentation *)

Module Segmenter.
Import Py Marker Normalizer.
Local Open Scope N_scope.

Record article := { title : pystr; content : pystr }.

Definition no_article : article := {| title := []; content := [] |}.

(** The loop state: the list [articles] and the dict [current_article]. *)
Definition seg_state : Type := list article * article.

(** Appending a line to the content of the current article. *)
Definition add_content (cur : article) (line : pystr) : article :=
  {| title := title cur;
     content := if truthy (content cur) then content cur ++ NL :: line else line |}.

(** One iteration of the loop of [extract_articles_from_pdf]. *)
Definition pdf_step (st : seg_state) (line : pystr) : seg_state :=
  let (articles, cur) := st in
  let line := strip line in
  if negb (truthy line) then st
  else if is_marker line then
    (if truthy (title cur) then articles ++ [cur] else articles,
     {| title := line; content := [] |})
  else if truthy (title cur) then (articles, add_content cur line)
  else st.

(** The statements after the loop: the last article is flushed. *)
Definition flush (st : seg_state) : list article :=
  let (articles, cur) := st in
  if truthy (title cur) then articles ++ [cur] else articles.

(** The state machine of [extract_articles_from_pdf] over the lines. *)
Definition segment_lines (lines : list pystr) : list article :=
  flush (fold_left pdf_step lines ([], no_article)).

(** [extract_articles_from_pdf], from the text the reader returned. *)
Definition extract_articles_from_pdf (full_text : pystr) : list article :=
  segment_lines (split_nl (_clean_pdf_text full_text)).

(** [.] of a pattern without flags: any character but a newline. *)
Fixpoint dot_star (s : pystr) : pystr :=
  match s with
  | [] => []
  | c :: s' => if c =? NL then [] else c :: dot_star s'
  end.

(** [re.match] of the pattern made of the marker as group 1, any run of
    whitespace, and the rest of the line as group 2.  Both repetitions are
    greedy and the second may be empty, so the first attempt succeeds
    whenever the marker matches. *)
Definition match_title_content (text : pystr) : option (pystr * pystr) :=
  match match_marker text with
  | Some (tok, rest) => Some (tok, dot_star (lstrip rest))
  | None => None
  end.

(** One iteration of the loop of [extract_articles_from_docx], on the text
    of one paragraph. *)
Definition docx_step (st : seg_state) (paragraph : pystr) : seg_state :=
  let (articles, cur) := st in
  let text := strip paragraph in
  if negb (truthy text) then st
  else if is_marker text then
    (if truthy (title cur) then articles ++ [cur] else articles,
     match match_title_content text with
     | Some (t, c) => {| title := t; content := strip c |}
     | None => {| title := text; content := [] |}
     end)
  else if truthy (title cur) then (articles, add_content cur text)
  else st.

(** [extract_articles_from_docx], from the paragraph texts of the document. *)
Definition extract_articles_from_docx (paragraphs : list pystr) : list article :=
  flush (fold_left docx_step paragraphs ([], no_article)).

(** [re.split(r'(?=marker)', text)], as Python 3.7 and later split on
    empty matches: the text is cut before every position where a marker
    starts; a marker at the very start leaves an empty first piece. *)
Definition push (c : N) (pieces : list pystr) : list pystr :=
  match pieces with
  | p :: ps => (c :: p) :: ps
  | [] => [[c]]
  end.

Fixpoint re_split_markers (s : pystr) : list pystr :=
  match s with
  | [] => [[]]
  | c :: s' =>
    if is_marker s then [] :: push c (re_split_markers s')
    else push c (re_split_markers s')
  end.

(** [split_articles_by_regex] *)
Definition split_articles_by_regex (text : pystr) : list pystr :=
  filter (fun art => truthy (strip art)) (re_split_markers text).

(** The text handed to the extraction call for one article:
    [f"{article['title']}\n{article['content']}"]. *)
Definition full_text (a : article) : pystr := title a ++ NL :: content a.

End Segmenter.

(** ** JSON values as Python objects *)

Module Json.
Import Py.
Local Open Scope N_scope.

(** What [json.loads] returns.  A [dict] keeps its keys in insertion order
    and holds each key once; of a [float] only its truth value is observed
    by the code, so that is all the model keeps. *)
#[warnings="-register-all"]
Inductive json : Type :=
| JNull
| JBool (b : bool)
| JInt (z : Z)
| JFloat (nonzero : bool)
| JStr (s : pystr)
| JList (l : list json)
| JDict (kv : list (pystr * json)).

Fixpoint str_eqb (a b : pystr) : bool :=
  match a, b with
  | [], [] => true
  | x :: a', y :: b' => (x =? y) && str_eqb a' b'
  | _, _ => false
  end.

(** [d.get(key)], and [key in d]. *)
Fixpoint dict_get (kv : list (pystr * json)) (key : pystr) : option json :=
  match kv with
  | [] => None
  | (k, v) :: kv' => if str_eqb k key then Some v else dict_get kv' key
  end.

Definition dict_has (kv : list (pystr * json)) (key : pystr) : bool :=
  match dict_get kv key with Some _ => true | None => false end.

(** [d.get(key, default)] *)
Definition dict_get_default (kv : list (pystr * json)) (key : pystr) (default : json) : json :=
  match dict_get kv key with Some v => v | None => default end.

(** [bool(v)] *)
Definition py_bool (v : json) : bool :=
  match v with
  | JNull => false
  | JBool b => b
  | JInt z => negb (Z.eqb z 0)
  | JFloat nonzero => nonzero
  | JStr s => truthy s
  | JList l => match l with [] => false | _ => true end
  | JDict kv => match kv with [] => false | _ => true end
  end.

(** [type(v).__name__] *)
Definition type_name (v : json) : pystr :=
  match v with
  | JNull => py "NoneType"
  | JBool _ => py "bool"
  | JInt _ => py "int"
  | JFloat _ => py "float"
  | JStr _ => py "str"
  | JList _ => py "list"
  | JDict _ => py "dict"
  end.

(** Exceptions, as far as the code tells them apart: [JSONDecodeError] is
    the class the first [except] clause of the extraction call names; every
    other class here is caught by [except Exception].  [ServiceError]
    stands for the exceptions of the client other than [JSONDecodeError]
    (timeout, transport failure, authentication). *)
Inductive exn : Type :=
| JSONDecodeError
| TypeError (msg : pystr)
| ValueError (msg : pystr)
| UnboundLocalError
| ServiceError (msg : pystr)
| RecursionError (msg : pystr).

(** [str(e)] in the message of a report; the first and the fourth carry no
    text of interest and never reach a report. *)
Definition exn_str (e : exn) : pystr :=
  match e with
  | TypeError msg | ValueError msg | ServiceError msg | RecursionError msg => msg
  | JSONDecodeError | UnboundLocalError => []
  end.

(** A computation that returns or lets an exception through. *)
Inductive result (A : Type) : Type :=
| Returned (a : A)
| Propagated (e : exn).

Arguments Returned {A} a.
Arguments Propagated {A} e.

Definition bind {A B : Type} (r : result A) (k : A -> result B) : result B :=
  match r with
  | Returned a => k a
  | Propagated e => Propagated e
  end.

(** [len(v)]: a [TypeError] for values without a length. *)
Definition py_len (v : json) : result nat :=
  match v with
  | JStr s => Returned (length s)
  | JList l => Returned (length l)
  | JDict kv => Returned (length kv)
  | _ => Propagated (TypeError (py "object of type '" ++ type_name v ++ py "' has no len()"))
  end.

(** [for i, x in enumerate(l)] over a body that may raise, from index [i]. *)
Fixpoint for_enumerate {A St : Type} (body : St -> nat -> A -> result St)
         (i : nat) (l : list A) (st : St) : result St :=
  match l with
  | [] => Returned st
  | x :: l' => bind (body st i x) (for_enumerate body (S i) l')
  end.

End Json.

(** ** The extraction call and its orchestrating loop *)

Module Orchestrator.
Import Py Marker Normalizer Segmenter Json.
Local Open Scope N_scope.

(** What one request to the structured-generation service comes to: a
    completion whose message content is a [str] or [None], or an exception
    raised before the content is bound to [model_response], carried with
    its class: by [create] (timeout, transport failure, authentication; a
    [json.JSONDecodeError] for a response body that is not JSON), or while
    the message is taken out of the response.  The service is an external
    collaborator; this is its interface. *)
Inductive reply : Type :=
| Completion (content : option pystr)
| Failure (e : exn).

(** The characters that can begin a JSON value, and the blanks that
    [json.loads] skips before it. *)
Definition json_blank (c : N) : bool :=
  existsb (N.eqb c) [0x20; 0x9; 0xA; 0xD].

Fixpoint skip_json_blanks (s : pystr) : pystr :=
  match s with
  | [] => []
  | c :: s' => if json_blank c then skip_json_blanks s' else s
  end.

Definition json_value_start (c : N) : bool :=
  existsb (N.eqb c) (py "{[-0123456789tfnNI") || (c =? 0x22).

(** Events of a run that the outside can observe: a call of [create] with
    its two messages, and a pause. *)
Inductive event : Type :=
| Requested (system_prompt user_prompt : pystr)
| Slept.

Fixpoint requests (log : list event) : nat :=
  match log with
  | [] => 0%nat
  | Requested _ _ :: log' => S (requests log')
  | Slept :: log' => requests log'
  end.

(** The accumulator [all_results] and the events so far. *)
Record run : Type := { all_results : list json; log : list event }.

(** How a loop or a run ends: the state it has reached, and the exception
    that leaves it, if any.  Without one the parser writes [all_results]
    out and returns it; with one, the exception leaves the parser and
    nothing is written. *)
Definition ending : Type := (run * option exn)%type.

(** [for i, x in enumerate(l)] over a body that has effects and may raise:
    an exception ends the loop where it is. *)
Fixpoint for_units (body : run -> nat -> pystr -> ending) (i : nat) (texts : list pystr)
         (st : run) : ending :=
  match texts with
  | [] => (st, None)
  | text :: rest =>
    match body st i text with
    | (st', None) => for_units body (S i) rest st'
    | (st', Some e) => (st', Some e)
    end
  end.

(** [s.startswith(k)] *)
Fixpoint prefix_of (k s : pystr) : bool :=
  match k, s with
  | [], _ => true
  | x :: k', y :: s' => (x =? y) && prefix_of k' s'
  | _ :: _, [] => false
  end.

(** [k in s] *)
Fixpoint contains (k s : pystr) : bool :=
  prefix_of k s || match s with [] => false | _ :: s' => contains k s' end.

(** The phrases that mark a line of document metadata. *)
Definition keywords : list pystr :=
  [py "中华人民共和国民法典"; py "发文机关"; py "发布日期"; py "生效日期";
   py "时效性"; py "文号"; py "主席令"; py "全国人民代表大会"].

(** The loop of [extract_document_context]; it stops after the first
    paragraph that starts with a marker. *)
Fixpoint context_lines (paragraphs : list pystr) : list pystr :=
  match paragraphs with
  | [] => []
  | p :: rest =>
    let text := strip p in
    if negb (truthy text) then context_lines rest
    else
      let text_without_spaces := filter (fun c => negb (c =? SP)) text in
      let here :=
        if existsb (fun k => contains k text || contains k text_without_spaces) keywords
        then [text] else [] in
      if is_marker text then here else here ++ context_lines rest
  end.

Definition extract_document_context (paragraphs : list pystr) : pystr :=
  join_nl (context_lines (firstn 20 paragraphs)).

(** [read_docx_file]: the stripped non-empty paragraphs, joined. *)
Definition read_docx_file (paragraphs : list pystr) : pystr :=
  join_nl (filter truthy (map strip paragraphs)).

(** [_read_with_pdfplumber] and [_read_with_pypdf2], from what
    [extract_text] returned for each page: the texts that are not empty,
    joined. *)
Definition page_text (page : option pystr) : pystr :=
  match page with Some text => text | None => [] end.

Definition read_pdf_file (pages : list (option pystr)) : pystr :=
  join_nl (filter truthy (map page_text pages)).

(** The loop of [test_specific_article] over the paragraph texts, with its
    two variables [found_article] and [current_content]; the [break] ends
    the recursion. *)
Fixpoint find_article (article_number : pystr) (paragraphs : list pystr)
         (found_article : bool) (current_content : list pystr) : bool * list pystr :=
  match paragraphs with
  | [] => (found_article, current_content)
  | p :: rest =>
    let text := strip p in
    if negb (truthy text) then find_article article_number rest found_article current_content
    else if prefix_of article_number text then find_article article_number rest true [text]
    else if found_article then
      if is_marker text then (found_article, current_content)
      else find_article article_number rest found_article (current_content ++ [text])
    else find_article article_number rest found_article current_content
  end.

(** [test_specific_article]: the full content it prints, or [None] when it
    reports that the article was not found. *)
Definition test_specific_article (paragraphs : list pystr) (article_number : pystr)
  : option pystr :=
  let (found_article, current_content) := find_article article_number paragraphs false [] in
  if found_article then Some (join_nl current_content) else None.

(** What the two preview functions print, apart from the fixed labels: the
    number of units with the title and the shown content of the first
    ones, or the start of the raw text when there is no unit. *)
Inductive preview : Type :=
| UnitsPreview (total : nat) (shown : list (pystr * pystr))
| RawPreview (text : pystr).

(** [l[:k]]: a negative [k] counts from the end. *)
Definition slice_to {A : Type} (k : Z) (l : list A) : list A :=
  if (0 <=? k)%Z then firstn (Z.to_nat k) l
  else firstn (length l - Z.to_nat (- k)) l.

(** [s[:n] + "..." if len(s) > n else s] *)
Definition ellipsis (n : nat) (s : pystr) : pystr :=
  if (n <? length s)%nat then firstn n s ++ py "..." else s.

(** [preview_pdf_content], from the text the reader returned. *)
Definition preview_pdf_content (text : pystr) (max_articles : Z) : preview :=
  let articles := extract_articles_from_pdf text in
  match articles with
  | _ :: _ =>
    UnitsPreview (length articles)
                 (map (fun a => (title a, ellipsis 100 (content a)))
                      (slice_to max_articles articles))
  | [] => RawPreview (ellipsis 500 text)
  end.

(** [preview_docx_content], from the paragraphs of the document; here the
    dots follow every content, cut or not. *)
Definition preview_docx_content (paragraphs : list pystr) (max_articles : Z) : preview :=
  match extract_articles_from_docx paragraphs with
  | _ :: _ =>
    let articles := extract_articles_from_docx paragraphs in
    UnitsPreview (length articles)
                 (map (fun a => (title a, firstn 100 (content a) ++ py "..."))
                      (slice_to max_articles articles))
  | [] => RawPreview (ellipsis 500 (read_docx_file paragraphs))
  end.

Section Extraction.

(** The instruction text sent with every request, a constant of the
    source. *)
Variable system_prompt : pystr.

(** The value scanner of the [json] module, applied once the text is known
    to begin like a value: it returns the value, or raises
    [JSONDecodeError], or raises something else ([RecursionError] for
    nesting deeper than the interpreter allows, [ValueError] for an integer
    of more digits than it converts). *)
Variable scan : pystr -> result json.

(** The service: its answer to the [n]-th request of a run. *)
Variable service : nat -> pystr -> pystr -> reply.

(** [json.loads] of a [str]: a text that is empty after the blanks, or
    does not begin like a value, is a [JSONDecodeError]. *)
Definition json_loads (s : pystr) : result json :=
  match skip_json_blanks s with
  | [] => Propagated JSONDecodeError
  | c :: _ => if json_value_start c then scan s else Propagated JSONDecodeError
  end.

(** The user prompt of the docx parser. *)
Definition user_prompt (document_context article_text : pystr) : pystr :=
  NL :: py "请将以下民法典条款处理成 JSON 格式。" ++ [NL; NL] ++ document_context
     ++ [NL; NL] ++ py "条款文本：" ++ [NL] ++ article_text ++ [NL; NL]
     ++ py "请直接输出 JSON，不要有其他任何解释。" ++ [NL].

(** The body of the [try] statement of [parse_single_article]: the binding
    of the local [model_response] when the block ends, and how it ends.
    An exception of the request leaves [model_response] unbound. *)
Definition try_block (r : reply) : option (option pystr) * result json :=
  match r with
  | Failure e => (None, Propagated e)
  | Completion content =>
    (Some content,
     match content with
     | None =>
       Propagated (TypeError (py "the JSON object must be str, bytes or bytearray, not NoneType"))
     | Some text => json_loads text
     end)
  end.

Definition parse_error (article_index : nat) (raw : option pystr) : json :=
  JDict [(py "error",
          JStr (py "Failed to parse JSON for article " ++ str_of_nat (article_index + 1)));
         (py "raw_response", match raw with Some s => JStr s | None => JNull end)].

Definition other_error (article_index : nat) : json :=
  JDict [(py "error", JStr (py "Other error for article " ++ str_of_nat (article_index + 1)))].

(** The two [except] clauses, tried in order.  The first one reads
    [model_response]: where the name is unbound, [UnboundLocalError] is
    raised inside the handler and leaves the function. *)
Definition handlers (article_index : nat) (model_response : option (option pystr))
           (e : exn) : result json :=
  match e with
  | JSONDecodeError =>
    match model_response with
    | Some raw => Returned (parse_error article_index raw)
    | None => Propagated UnboundLocalError
    end
  | _ => Returned (other_error article_index)
  end.

(** [parse_single_article], given the number [n] of requests made before. *)
Definition parse_single_article (n : nat) (article_text : pystr) (article_index : nat)
           (document_context : pystr) : result json :=
  let (model_response, outcome) :=
    try_block (service n system_prompt (user_prompt document_context article_text)) in
  match outcome with
  | Returned v => Returned v
  | Propagated e => handlers article_index model_response e
  end.

(** The same call in the PDF parser: no document context, and a prompt
    without it. *)
Definition user_prompt_pdf (article_text : pystr) : pystr :=
  NL :: py "请将以下民法典条款处理成 JSON 格式。" ++ [NL; NL] ++ py "条款文本：" ++ [NL]
     ++ article_text ++ [NL; NL] ++ py "请直接输出 JSON，不要有其他任何解释。" ++ [NL].

Definition parse_single_article_pdf (n : nat) (article_text : pystr) (article_index : nat)
  : result json :=
  let (model_response, outcome) :=
    try_block (service n system_prompt (user_prompt_pdf article_text)) in
  match outcome with
  | Returned v => Returned v
  | Propagated e => handlers article_index model_response e
  end.

(** One iteration of the loops of [parse_docx_civil_code]: the call is
    made; when it returns, the record is appended and the pause follows;
    when it raises, the iteration ends there. *)
Definition process_unit (document_context : pystr) (delay_positive : bool)
           (st : run) (i : nat) (text : pystr) : ending :=
  let called :=
    log st ++ [Requested system_prompt (user_prompt document_context text)] in
  match parse_single_article (requests (log st)) text i document_context with
  | Returned res =>
    ({| all_results := all_results st ++ [res];
        log := called ++ (if delay_positive then [Slept] else []) |}, None)
  | Propagated e => ({| all_results := all_results st; log := called |}, Some e)
  end.

(** The loop over the units, from an empty accumulator. *)
Definition extract_all (document_context : pystr) (delay_positive : bool)
           (texts : list pystr) : ending :=
  for_units (process_unit document_context delay_positive) 0 texts
            {| all_results := []; log := [] |}.

(** [parse_docx_civil_code], from the paragraphs of the document, up to the
    point where the results are written out; [delay_positive] is the test
    [delay > 0]. *)
Definition parse_docx_civil_code (paragraphs : list pystr) (delay_positive : bool)
           (use_structured_extraction : bool) : ending :=
  let document_context := extract_document_context paragraphs in
  if use_structured_extraction
  then extract_all document_context delay_positive
                   (map full_text (extract_articles_from_docx paragraphs))
  else extract_all document_context delay_positive
                   (split_articles_by_regex (read_docx_file paragraphs)).

(** One iteration of the loops of [parse_pdf_civil_code]. *)
Definition process_unit_pdf (delay_positive : bool) (st : run) (i : nat) (text : pystr)
  : ending :=
  let called := log st ++ [Requested system_prompt (user_prompt_pdf text)] in
  match parse_single_article_pdf (requests (log st)) text i with
  | Returned res =>
    ({| all_results := all_results st ++ [res];
        log := called ++ (if delay_positive then [Slept] else []) |}, None)
  | Propagated e => ({| all_results := all_results st; log := called |}, Some e)
  end.

Definition extract_all_pdf (delay_positive : bool) (texts : list pystr) : ending :=
  for_units (process_unit_pdf delay_positive) 0 texts
            {| all_results := []; log := [] |}.

(** [parse_pdf_civil_code], from the text the reader returned, up to the
    point where the results are written out.  The structured path segments
    the normalized text; the other path splits the text as it was read. *)
Definition parse_pdf_civil_code (text : pystr) (delay_positive : bool)
           (use_structured_extraction : bool) : ending :=
  if use_structured_extraction
  then extract_all_pdf delay_positive (map full_text (extract_articles_from_pdf text))
  else extract_all_pdf delay_positive (split_articles_by_regex text).

End Extraction.

End Orchestrator.

(** ** The result processor: [JsonProcessor] *)

Module Aggregator.
Import Py Json.
Local Open Scope N_scope.

(** The lines printed by [_process_data]. *)
Inductive note : Type :=
| ObjectNote (position : nat) (label : json)
| SubObjectNote (label : json)
| SkippedNote (type_of_item : pystr).

(** The list [processed_data] and what was printed so far. *)
Definition agg_state : Type := (list json * list note)%type.

(** The inner loop over the members of a nested list. *)
Definition process_sub_item (st : agg_state) (sub_item : json) : agg_state :=
  match sub_item with
  | JDict kv =>
    (fst st ++ [sub_item],
     snd st ++ [SubObjectNote (dict_get_default kv (py "article_number") (JStr (py "未知条款")))])
  | _ => st
  end.

(** The body of the outer loop. *)
Definition process_item (st : agg_state) (i : nat) (item : json) : agg_state :=
  match item with
  | JDict kv =>
    (fst st ++ [item],
     snd st ++ [ObjectNote (i + 1)
                  (dict_get_default kv (py "article_number")
                     (JStr (py "第" ++ str_of_nat (i + 1) ++ py "条")))])
  | JList l => fold_left process_sub_item l st
  | _ => (fst st, snd st ++ [SkippedNote (type_name item)])
  end.

Fixpoint process_loop (i : nat) (data : list json) (st : agg_state) : agg_state :=
  match data with
  | [] => st
  | item :: data' => process_loop (S i) data' (process_item st i item)
  end.

(** [_process_data] with the lines it prints. *)
Definition process_data_run (data : list json) : agg_state :=
  process_loop 0 data ([], []).

(** [_process_data] *)
Definition _process_data (data : list json) : list json :=
  fst (process_data_run data).

(** One entry of [sample_articles] and of [error_articles]. *)
Record sample : Type :=
  { article_number : json; content_length : nat; has_summary : bool; keywords_count : nat }.

Record error_entry : Type := { index : nat; error : json }.

(** The dict [stats]. *)
Record stats : Type :=
  { total_articles : nat;
    valid_articles : nat;
    articles_with_content : nat;
    articles_with_summary : nat;
    articles_with_keywords : nat;
    sample_articles : list sample;
    error_articles : list error_entry }.

(** What [extract_articles_info] returns: the statistics, or the dict of
    its [except] clause, whose two counts are zero. *)
Inductive report : Type :=
| Stats (s : stats)
| ErrorReport (message : pystr).

Definition report_total (r : report) : nat :=
  match r with Stats s => total_articles s | ErrorReport _ => 0 end.

Definition report_valid (r : report) : nat :=
  match r with Stats s => valid_articles s | ErrorReport _ => 0 end.

Definition truthy_field (kv : list (pystr * json)) (key : pystr) : bool :=
  match dict_get kv key with Some v => py_bool v | None => false end.

Definition bump (b : bool) (n : nat) : nat := if b then S n else n.

(** The sample entry of a valid record; the two [len] calls can raise. *)
Definition make_sample (i : nat) (kv : list (pystr * json)) : result sample :=
  let number :=
    dict_get_default kv (py "article_number") (JStr (py "第" ++ str_of_nat (i + 1) ++ py "条")) in
  bind (py_len (dict_get_default kv (py "content") (JStr [])))
       (fun clen =>
          let summary := truthy_field kv (py "summary") in
          bind (py_len (dict_get_default kv (py "keywords") (JList [])))
               (fun kcount =>
                  Returned {| article_number := number; content_length := clen;
                              has_summary := summary; keywords_count := kcount |})).

(** The body of the loop of [extract_articles_info]. *)
Definition info_step (st : stats) (i : nat) (item : json) : result stats :=
  match item with
  | JDict kv =>
    if negb (dict_has kv (py "error")) then
      let st1 :=
        {| total_articles := total_articles st;
           valid_articles := S (valid_articles st);
           articles_with_content :=
             bump (truthy_field kv (py "content")) (articles_with_content st);
           articles_with_summary :=
             bump (truthy_field kv (py "summary")) (articles_with_summary st);
           articles_with_keywords :=
             bump (truthy_field kv (py "keywords")) (articles_with_keywords st);
           sample_articles := sample_articles st;
           error_articles := error_articles st |} in
      if (length (sample_articles st1) <? 5)%nat then
        bind (make_sample i kv)
             (fun smp =>
                Returned
                  {| total_articles := total_articles st1;
                     valid_articles := valid_articles st1;
                     articles_with_content := articles_with_content st1;
                     articles_with_summary := articles_with_summary st1;
                     articles_with_keywords := articles_with_keywords st1;
                     sample_articles := sample_articles st1 ++ [smp];
                     error_articles := error_articles st1 |})
      else Returned st1
    else
      Returned
        {| total_articles := total_articles st;
           valid_articles := valid_articles st;
           articles_with_content := articles_with_content st;
           articles_with_summary := articles_with_summary st;
           articles_with_keywords := articles_with_keywords st;
           sample_articles := sample_articles st;
           error_articles :=
             error_articles st
               ++ [{| index := i;
                      error := dict_get_default kv (py "error") (JStr (py "未知错误")) |}] |}
  | _ => Returned st
  end.

(** The [try] block of [extract_articles_info], from the loaded JSON. *)
Definition info_try (data : json) : result stats :=
  match data with
  | JList items =>
    for_enumerate info_step 0 items
      {| total_articles := length items; valid_articles := 0;
         articles_with_content := 0; articles_with_summary := 0;
         articles_with_keywords := 0; sample_articles := []; error_articles := [] |}
  | _ => Propagated (ValueError (py "数据不是数组格式"))
  end.

(** [extract_articles_info], from the loaded JSON. *)
Definition extract_articles_info (data : json) : report :=
  match info_try data with
  | Returned s => Stats s
  | Propagated e => ErrorReport (py "提取信息时出错: " ++ exn_str e)
  end.

(** How [process_civil_code_results] ends, from the loaded JSON: the list
    written to the output file, or the exception it raises. *)
Inductive outcome : Type :=
| Written (processed_data : list json)
| Raised (message : pystr).

(** [process_civil_code_results], from the loaded JSON.  [len(data)] comes
    first and raises for a value without a length; the loop of
    [_process_data] then iterates over the value: over the elements of a
    list, the keys of a dict, the characters of a str. *)
Definition process_civil_code_results (data : json) : outcome :=
  match data with
  | JList l => Written (_process_data l)
  | JDict kv => Written (_process_data (map (fun p => JStr (fst p)) kv))
  | JStr s => Written (_process_data (map (fun c => JStr [c]) s))
  | _ =>
    Raised (py "处理过程中出现错误: object of type '" ++ type_name data ++ py "' has no len()")
  end.

(** [validate_json_structure], from the loaded JSON. *)
Module Validation.

Record validation : Type :=
  { is_valid : bool;
    data_type : pystr;
    data_length : nat;
    sample_keys : list pystr;
    errors : list pystr }.

Definition validate_json_structure (data : json) : validation :=
  match data with
  | JList l =>
    {| is_valid := true; data_type := py "array"; data_length := length l;
       sample_keys := match l with JDict kv :: _ => map fst kv | _ => [] end;
       errors := [] |}
  | JDict kv =>
    {| is_valid := true; data_type := py "object"; data_length := length kv;
       sample_keys := map fst kv; errors := [] |}
  | _ =>
    {| is_valid := false; data_type := type_name data; data_length := 0;
       sample_keys := [];
       errors := [py "不支持的数据类型: <class '" ++ type_name data ++ py "'>"] |}
  end.

End Validation.

End Aggregator.

(** ** Reference definitions used to state the properties *)

Module Reference.
Import Py Marker Normalizer Segmenter Json Orchestrator Aggregator.
Local Open Scope N_scope.

(** [f] over a list with the index of each element, from index [i]. *)
Fixpoint mapi {A B : Type} (f : nat -> A -> B) (i : nat) (l : list A) : list B :=
  match l with
  | [] => []
  | x :: l' => f i x :: mapi f (S i) l'
  end.

Definition is_dict (v : json) : bool :=
  match v with JDict _ => true | _ => false end.

(** A request that ends in a [JSONDecodeError] raised before the reply is
    bound. *)
Definition raises_decode_error (r : reply) : bool :=
  match r with
  | Failure JSONDecodeError => true
  | _ => false
  end.

(** The record that the code makes for the reply received for the unit at
    [article_index], by the class of what was raised: the parsed value;
    the parse-failure record with the raw text when [json.loads] raises
    [JSONDecodeError]; the generic failure record when anything else is
    raised, by [json.loads] or by the request.  It is used for replies
    other than a [JSONDecodeError] of the request only: for that one the
    call makes no record. *)
Definition taxonomy_record (scan : pystr -> result json) (article_index : nat) (r : reply)
  : json :=
  match r with
  | Completion (Some raw) =>
    match json_loads scan raw with
    | Returned v => v
    | Propagated JSONDecodeError =>
      JDict [(py "error",
              JStr (py "Failed to parse JSON for article " ++ str_of_nat (article_index + 1)));
             (py "raw_response", JStr raw)]
    | Propagated _ =>
      JDict [(py "error",
              JStr (py "Other error for article " ++ str_of_nat (article_index + 1)))]
    end
  | _ =>
    JDict [(py "error", JStr (py "Other error for article " ++ str_of_nat (article_index + 1)))]
  end.



(** The units of a run whose calls return: those before the first request
    that raises [JSONDecodeError]; and the unit of that request, if there
    is one.  [reply_for k text] is the reply to the [k]-th request, made
    for [text]. *)
Fixpoint served (reply_for : nat -> pystr -> reply) (i : nat) (texts : list pystr)
  : list pystr :=
  match texts with
  | [] => []
  | text :: rest =>
    if raises_decode_error (reply_for i text) then []
    else text :: served reply_for (S i) rest
  end.

Fixpoint aborted_unit (reply_for : nat -> pystr -> reply) (i : nat) (texts : list pystr)
  : option pystr :=
  match texts with
  | [] => None
  | text :: rest =>
    if raises_decode_error (reply_for i text) then Some text
    else aborted_unit reply_for (S i) rest
  end.

(** Flattening one level as the words of the specification have it: a
    mapping stays, a sequence is replaced by its members, anything else
    goes. *)
Definition expand_as_stated (item : json) : list json :=
  match item with
  | JDict _ => [item]
  | JList l => l
  | _ => []
  end.

(** Flattening one level as the code does it: of a sequence only the
    members that are mappings stay. *)
Definition expand (item : json) : list json :=
  match item with
  | JDict _ => [item]
  | JList l => filter is_dict l
  | _ => []
  end.

(** The lines [_process_data] prints for the item at index [i]. *)
Definition sub_note (sub_item : json) : list note :=
  match sub_item with
  | JDict kv => [SubObjectNote (dict_get_default kv (py "article_number") (JStr (py "未知条款")))]
  | _ => []
  end.

Definition item_notes (i : nat) (item : json) : list note :=
  match item with
  | JDict kv =>
    [ObjectNote (i + 1)
       (dict_get_default kv (py "article_number")
          (JStr (py "第" ++ str_of_nat (i + 1) ++ py "条")))]
  | JList l => flat_map sub_note l
  | _ => [SkippedNote (type_name item)]
  end.

Definition is_skipped_note (n : note) : bool :=
  match n with SkippedNote _ => true | _ => false end.

Definition is_scalar_other (item : json) : bool :=
  match item with JDict _ | JList _ => false | _ => true end.

(** The docx unit that corresponds to a PDF unit: the title is cut after
    the marker token and what follows on the marker line opens the
    content. *)
Definition join_content (a b : pystr) : pystr :=
  if truthy a then (if truthy b then a ++ NL :: b else a) else b.

Definition split_title (u : article) : article :=
  match match_title_content (title u) with
  | Some (t, c) => {| title := t; content := join_content (strip c) (content u) |}
  | None => u
  end.

(** The marker token a title starts with. *)
Definition title_token (u : article) : pystr :=
  match match_marker (title u) with
  | Some (tok, _) => tok
  | None => []
  end.

(** The non-empty trimmed lines of a text: two texts with the same ones
    differ only in blank lines and in blanks around lines. *)
Definition trimmed_lines (s : pystr) : list pystr :=
  filter truthy (map strip (split_nl s)).

(** Every marker of the text stands at the start of a line; [at_start]
    tells whether the text itself starts a line. *)
Fixpoint markers_start_lines (at_start : bool) (s : pystr) : bool :=
  match s with
  | [] => true
  | c :: s' =>
    (if is_marker s then at_start else true) && markers_start_lines (c =? NL) s'
  end.

(** The text before the first marker. *)
Fixpoint front_matter (s : pystr) : pystr :=
  match s with
  | [] => []
  | c :: s' => if is_marker s then [] else c :: front_matter s'
  end.

(** The run of class characters a text starts with, and whether the closing
    character of a marker follows it: all that a match starting just
    before the text depends on. *)
Definition class_run (s : pystr) : pystr * bool :=
  let (ds, r) := span_class s in
  (ds, match r with t :: _ => t =? TIAO | [] => false end).

Definition marker_token (s : pystr) : option pystr :=
  match match_marker s with Some (tok, _) => Some tok | None => None end.

(** The substitution of the normalizer, one position at a time. *)
Fixpoint insert_newlines (s : pystr) : pystr :=
  match s with
  | [] => []
  | c :: s' => if is_marker s then NL :: c :: insert_newlines s' else c :: insert_newlines s'
  end.

(** No two adjacent occurrences of [x]; [prev] tells whether the character
    before the text is [x]. *)
Fixpoint no_run (x : N) (prev : bool) (s : pystr) : bool :=
  match s with
  | [] => true
  | c :: s' => if c =? x then negb prev && no_run x true s' else no_run x false s'
  end.

(** Every marker stands at the start of the text or right after a line
    break of the raw text, a carriage return or a newline. *)
Fixpoint markers_after_breaks (at_start : bool) (s : pystr) : bool :=
  match s with
  | [] => true
  | c :: s' =>
    (if is_marker s then at_start else true)
    && markers_after_breaks ((c =? NL) || (c =? CR)) s'
  end.

(** The first four steps of the normalizer. *)
Definition unify_and_collapse (text : pystr) : pystr :=
  collapse NL (collapse SP (replace_cr (replace_crlf text))).

(** The marker a text starts with, as a list of at most one token. *)
Definition token_list (s : pystr) : list pystr :=
  match marker_token s with Some tok => [tok] | None => [] end.

Definition no_NL (s : pystr) : bool := forallb (fun c => negb (c =? NL)) s.

(** The non-empty trimmed lines among [ls]. *)
Definition clean_lines (ls : list pystr) : list pystr := filter truthy (map strip ls).

(** The lines before the first marker line, and the groups made of a marker
    line and the lines up to the next one. *)
Fixpoint groups (marker_line : pystr -> bool) (ls : list pystr)
  : list pystr * list (list pystr) :=
  match ls with
  | [] => ([], [])
  | l :: ls' =>
    let (f, gs) := groups marker_line ls' in
    if marker_line l then ([], (l :: f) :: gs) else (l :: f, gs)
  end.

(** Every chunk of lines but the last one followed by an empty line. *)
Fixpoint with_tail (chunks : list (list pystr)) : list (list pystr) :=
  match chunks with
  | [] => []
  | [ch] => [ch]
  | ch :: rest => (ch ++ [[]]) :: with_tail rest
  end.

(** The unit the state machine builds from a marker line and the lines
    that follow it. *)
Definition unit_of_group (g : list pystr) : article :=
  match g with
  | [] => no_article
  | m :: rest => fold_left add_content (clean_lines rest) {| title := strip m; content := [] |}
  end.

Definition nonempty {A : Type} (l : list A) : bool :=
  match l with [] => false | _ :: _ => true end.

Definition no_CR (s : pystr) : bool := forallb (fun c => negb (c =? CR)) s.

(** The normalizer as the specification states it: applying it to its own
    output changes nothing. *)
Definition normalization_idempotent : Prop :=
  forall s : pystr, _clean_pdf_text (_clean_pdf_text s) = _clean_pdf_text s.

(** The title of the current article is empty or a marker line. *)
Definition current_ok (cur : article) : Prop :=
  title cur = [] \/ is_marker (title cur) = true.

(** The states of the two loops after the same lines. *)
Definition states_agree (p d : seg_state) : Prop :=
  fst d = map split_title (fst p) /\ snd d = split_title (snd p) /\ current_ok (snd p).

(** The segmenters as the specification compares them: identical outputs
    on equivalent input, the text to the line-oriented one and the
    non-empty trimmed lines of the normalized text, as paragraphs, to the
    paragraph-oriented one. *)
Definition segmenters_identical : Prop :=
  forall s : pystr,
    extract_articles_from_pdf s
    = extract_articles_from_docx (trimmed_lines (_clean_pdf_text s)).

(** The flattening as the specification words it: every sequence is
    replaced by all of its members. *)
Definition flattens_as_stated : Prop :=
  forall data : list json, _process_data data = flat_map expand_as_stated data.

(** The regex split and the state machine as the specification compares
    them, on a normalized text: the same number of pieces and units, with
    the same non-empty trimmed lines at every position. *)
Definition split_matches_state_machine : Prop :=
  forall s : pystr,
    length (split_articles_by_regex (_clean_pdf_text s))
    = length (extract_articles_from_pdf s)
    /\ map trimmed_lines (split_articles_by_regex (_clean_pdf_text s))
       = map (fun u => trimmed_lines (full_text u)) (extract_articles_from_pdf s).

(** The statistics of the validation pass, stated over the list: a record
    is valid when it is a mapping without the key [error]. *)
Definition is_valid (item : json) : bool :=
  match item with
  | JDict kv => negb (dict_has kv (py "error"))
  | _ => false
  end.

Definition valid_with (key : pystr) (item : json) : bool :=
  match item with
  | JDict kv => negb (dict_has kv (py "error")) && truthy_field kv key
  | _ => false
  end.

(** Values that have a length. *)
Definition measurable (v : json) : bool :=
  match v with
  | JStr _ | JList _ | JDict _ => true
  | _ => false
  end.

Definition length_of (v : json) : nat :=
  match v with
  | JStr s => length s
  | JList l => length l
  | JDict kv => length kv
  | _ => 0
  end.

(** The fields measured for the sample have a length, or are absent. *)
Definition sample_ready (item : json) : bool :=
  match item with
  | JDict kv =>
    dict_has kv (py "error")
    || (measurable (dict_get_default kv (py "content") (JStr []))
        && measurable (dict_get_default kv (py "keywords") (JList [])))
  | _ => true
  end.

Definition sample_of (i : nat) (kv : list (pystr * json)) : sample :=
  {| article_number :=
       dict_get_default kv (py "article_number")
                        (JStr (py "第" ++ str_of_nat (i + 1) ++ py "条"));
     content_length := length_of (dict_get_default kv (py "content") (JStr []));
     has_summary := truthy_field kv (py "summary");
     keywords_count := length_of (dict_get_default kv (py "keywords") (JList [])) |}.

Fixpoint valid_samples (i : nat) (items : list json) : list sample :=
  match items with
  | [] => []
  | item :: rest =>
    match item with
    | JDict kv =>
      if negb (dict_has kv (py "error")) then sample_of i kv :: valid_samples (S i) rest
      else valid_samples (S i) rest
    | _ => valid_samples (S i) rest
    end
  end.

Fixpoint error_entries (i : nat) (items : list json) : list error_entry :=
  match items with
  | [] => []
  | item :: rest =>
    match item with
    | JDict kv =>
      if negb (dict_has kv (py "error")) then error_entries (S i) rest
      else {| index := i; error := dict_get_default kv (py "error") (JStr (py "未知错误")) |}
             :: error_entries (S i) rest
    | _ => error_entries (S i) rest
    end
  end.

(** The characters of a text that are not whitespace, in order. *)
Definition nonspace (s : pystr) : pystr := filter (fun c => negb (isspace c)) s.

(** A line that opens a unit: trimmed, it starts with a marker. *)
Definition marker_line (l : pystr) : bool := is_marker (strip l).

(** The lines of the content of a unit; an empty content has none. *)
Definition content_lines (u : article) : list pystr :=
  if truthy (content u) then split_nl (content u) else [].

(** A well-formed unit: the title is one trimmed line that starts with a
    marker, and every line of the content is trimmed, not empty and does
    not start with a marker. *)
Definition unit_ok (u : article) : Prop :=
  is_marker (title u) = true /\ strip (title u) = title u /\ no_NL (title u) = true
  /\ Forall (fun l => truthy l = true /\ strip l = l /\ is_marker l = false)
            (content_lines u).

(** The lines of the texts of the units, in order. *)
Definition unit_text_lines (units : list article) : list pystr :=
  flat_map (fun u => split_nl (full_text u)) units.

(** What the run of one unit leaves in the log: the request, and the pause
    when the delay is positive. *)
Definition unit_events (system_prompt : pystr) (prompt : pystr -> pystr)
           (delay_positive : bool) (text : pystr) : list event :=
  Requested system_prompt (prompt text) :: (if delay_positive then [Slept] else []).

(** The valid records that are measured for the sample: the first five. *)
Definition sampled (items : list json) : list json := firstn 5 (filter is_valid items).

(** The statistics of a list of records. *)
Definition stats_of (items : list json) : stats :=
  {| total_articles := length items;
     valid_articles := length (filter is_valid items);
     articles_with_content := length (filter (valid_with (py "content")) items);
     articles_with_summary := length (filter (valid_with (py "summary")) items);
     articles_with_keywords := length (filter (valid_with (py "keywords")) items);
     sample_articles := firstn 5 (valid_samples 0 items);
     error_articles := error_entries 0 items |}.

(** One iteration, by the reply to its request. *)
Definition unit_ending (system_prompt : pystr) (scan : pystr -> result json)
           (service : nat -> pystr -> pystr -> reply) (prompt : pystr -> pystr)
           (delay_positive : bool) (st : run) (i : nat) (text : pystr) : ending :=
  if raises_decode_error (service (requests (log st)) system_prompt (prompt text))
  then ({| all_results := all_results st;
           log := log st ++ [Requested system_prompt (prompt text)] |},
        Some UnboundLocalError)
  else ({| all_results :=
             all_results st
               ++ [taxonomy_record scan i
                     (service (requests (log st)) system_prompt (prompt text))];
           log := log st ++ unit_events system_prompt prompt delay_positive text |},
        None).

(** A nesting deep enough for [json.loads] to give up with
    [RecursionError]: a thousand opening brackets. *)
Definition deep_nesting : pystr := repeat 0x5B 1000.

(** How a run ends, in closed form: the records and the events of the
    units served, then the request that raised, and the exception that
    leaves the run. *)
Definition run_of (system_prompt : pystr) (scan : pystr -> result json)
           (reply_for : nat -> pystr -> reply) (prompt : pystr -> pystr)
           (delay_positive : bool) (texts : list pystr) : ending :=
  match aborted_unit reply_for 0 texts with
  | None =>
    ({| all_results :=
          mapi (fun k text => taxonomy_record scan k (reply_for k text)) 0
               (served reply_for 0 texts);
        log := flat_map (unit_events system_prompt prompt delay_positive)
                        (served reply_for 0 texts) |},
     None)
  | Some text =>
    ({| all_results :=
          mapi (fun k text => taxonomy_record scan k (reply_for k text)) 0
               (served reply_for 0 texts);
        log := flat_map (unit_events system_prompt prompt delay_positive)
                        (served reply_for 0 texts)
                 ++ [Requested system_prompt (prompt text)] |},
     Some UnboundLocalError)
  end.

(** A reply for which the call returns a failure record, and the message
    of that record. *)
Definition failed (scan : pystr -> result json) (r : reply) : bool :=
  match r with
  | Completion (Some raw) =>
    match json_loads scan raw with Returned _ => false | Propagated _ => true end
  | Completion None => true
  | Failure e => negb (raises_decode_error r)
  end.

Definition failure_text (scan : pystr -> result json) (article_index : nat) (r : reply)
  : pystr :=
  match r with
  | Completion (Some raw) =>
    match json_loads scan raw with
    | Propagated JSONDecodeError =>
      py "Failed to parse JSON for article " ++ str_of_nat (article_index + 1)
    | _ => py "Other error for article " ++ str_of_nat (article_index + 1)
    end
  | _ => py "Other error for article " ++ str_of_nat (article_index + 1)
  end.

(** A text with one of the phrases of document metadata, as it stands or
    once its spaces are removed. *)
Definition has_keyword (text : pystr) : bool :=
  existsb (fun k => contains k text || contains k (filter (fun c => negb (c =? SP)) text))
          keywords.

(** The paragraphs up to the first marker line, that line included. *)
Fixpoint upto_marker (paragraphs : list pystr) : list pystr :=
  match paragraphs with
  | [] => []
  | p :: rest => if marker_line p then [p] else p :: upto_marker rest
  end.

(** A reply whose first character after the blanks can begin a JSON
    value. *)
Definition starts_like_json (raw : pystr) : bool :=
  match skip_json_blanks raw with
  | [] => false
  | c :: _ => json_value_start c
  end.

(** A paragraph that, trimmed, starts with the article number. *)
Definition starts_with (article_number p : pystr) : bool :=
  prefix_of article_number (strip p).

(** The lines that precede the first marker line. *)
Definition front_lines (lines : list pystr) : list pystr :=
  fst (groups marker_line lines).

(** The characters of a list of texts that are not whitespace, in order. *)
Definition nonspace_of (texts : list pystr) : pystr := concat (map nonspace texts).

End Reference.

(* ================================================================== *)
(** * Part II: properties *)
(* ================================================================== *)

Module Facts.
Import Py Marker Normalizer Segmenter Json Orchestrator Aggregator Reference.
Local Open Scope N_scope.

(** ** Literals *)

Lemma marker_alphabet :
  DI :: TIAO :: numerals = py "第条零一二三四五六七八九十百千".
Proof. reflexivity. Qed.

(** ** The scenario of the paragraph-oriented segmenter *)

(** C4. On the three lines of the scenario text the docx segmenter yields
    the two units with the bare marker tokens as titles, the rest of each
    marker line as initial content, and the following line appended after a
    newline. *)
Theorem docx_scenario :
  extract_articles_from_docx
    (split_nl (py "第一条 总则内容。" ++ NL :: py "第二条　分则内容第一行。"
                 ++ NL :: py "分则内容第二行。"))
  = [ {| title := py "第一条"; content := py "总则内容。" |};
      {| title := py "第二条";
         content := py "分则内容第一行。" ++ NL :: py "分则内容第二行。" |} ].
Proof. vm_compute. reflexivity. Qed.

(** ** The two segmenters on the same lines *)

Lemma truthy_true (s : pystr) : truthy s = true <-> s <> [].
Proof. destruct s; simpl; split; congruence. Qed.

Lemma truthy_false (s : pystr) : truthy s = false <-> s = [].
Proof. destruct s; simpl; split; congruence. Qed.

Lemma match_marker_token_nonempty (s tok rest : pystr) :
  match_marker s = Some (tok, rest) -> truthy tok = true.
Proof.
  destruct s as [|c s']; simpl; [discriminate|].
  destruct (c =? DI); [|discriminate].
  destruct (span_class s') as [[|d ds] [|t r]]; try discriminate.
  destruct (t =? TIAO); [|discriminate].
  intros H; injection H as <- _. reflexivity.
Qed.

Lemma is_marker_title_content (s : pystr) :
  is_marker s = true ->
  exists t c, match_title_content s = Some (t, c) /\ truthy t = true.
Proof.
  unfold is_marker, match_title_content.
  destruct (match_marker s) as [[tok rest]|] eqn:E; [|discriminate].
  intros _. exists tok, (dot_star (lstrip rest)). split; [reflexivity|].
  eapply match_marker_token_nonempty; eassumption.
Qed.

Lemma join_content_nil_r (a : pystr) : join_content a [] = a.
Proof. unfold join_content. destruct a; reflexivity. Qed.

Lemma split_title_truthy (cur : article) :
  current_ok cur -> truthy (title (split_title cur)) = truthy (title cur).
Proof.
  intros [H|H]; unfold split_title.
  - rewrite H. simpl. rewrite H. reflexivity.
  - destruct (is_marker_title_content _ H) as (t & c & -> & Ht). simpl.
    rewrite Ht. symmetry. apply truthy_true. intros E. rewrite E in H. discriminate.
Qed.

Lemma split_title_add_content (cur : article) (line : pystr) :
  truthy line = true ->
  split_title (add_content cur line) = add_content (split_title cur) line.
Proof.
  intros Hl. unfold split_title, add_content. simpl.
  destruct (match_title_content (title cur)) as [[t c]|]; simpl; [|reflexivity].
  f_equal. unfold join_content.
  destruct (strip c) as [|x sc], (content cur) as [|y k]; simpl; rewrite ?Hl;
    try reflexivity.
  rewrite <- app_assoc. reflexivity.
Qed.

Lemma steps_agree (p d : seg_state) (line : pystr) :
  states_agree p d -> states_agree (pdf_step p line) (docx_step d line).
Proof.
  destruct p as [pa pc], d as [da dc]. intros (Ha & Hc & Hok). simpl in *. subst da dc.
  unfold pdf_step, docx_step.
  destruct (truthy (strip line)) eqn:El; simpl; [|repeat split; assumption].
  rewrite (split_title_truthy _ Hok).
  destruct (is_marker (strip line)) eqn:Em.
  - repeat split; simpl.
    + destruct (truthy (title pc)); [|reflexivity].
      rewrite map_app. reflexivity.
    + unfold split_title. simpl.
      destruct (match_title_content (strip line)) as [[t c]|]; [|reflexivity].
      rewrite join_content_nil_r. reflexivity.
    + right. exact Em.
  - destruct (truthy (title pc)) eqn:Et; repeat split; simpl; try assumption; try reflexivity.
    symmetry. apply split_title_add_content. exact El.
Qed.

Lemma folds_agree (lines : list pystr) (p d : seg_state) :
  states_agree p d ->
  states_agree (fold_left pdf_step lines p) (fold_left docx_step lines d).
Proof.
  revert p d. induction lines as [|l lines IH]; intros p d H; simpl; [exact H|].
  apply IH, steps_agree, H.
Qed.

Lemma flush_agree (p d : seg_state) :
  states_agree p d -> flush d = map split_title (flush p).
Proof.
  destruct p as [pa pc], d as [da dc]. intros (Ha & Hc & Hok). simpl in *. subst da dc.
  rewrite (split_title_truthy _ Hok).
  destruct (truthy (title pc)); [|reflexivity].
  rewrite map_app. reflexivity.
Qed.

(** A single marker line with text after the marker separates them. *)
Lemma segmenters_differ : ~ segmenters_identical.
Proof.
  intros H. specialize (H (py "第一条 总则内容。")). vm_compute in H. discriminate H.
Qed.

(** On the text of the scenario the line-oriented segmenter keeps each
    marker line whole as the title. *)
Lemma pdf_scenario :
  extract_articles_from_pdf
    (py "第一条 总则内容。" ++ NL :: py "第二条　分则内容第一行。" ++ NL :: py "分则内容第二行。")
  = [ {| title := py "第一条 总则内容。"; content := [] |};
      {| title := py "第二条　分则内容第一行。"; content := py "分则内容第二行。" |} ].
Proof. vm_compute. reflexivity. Qed.

(** ** The extraction call *)

Section ExtractionFacts.

Variable system_prompt : pystr.
Variable scan : pystr -> result json.
Variable service : nat -> pystr -> pystr -> reply.

Lemma try_block_handled (article_index : nat) (r : reply) :
  match snd (try_block scan r) with
  | Returned v => Returned v
  | Propagated e => handlers article_index (fst (try_block scan r)) e
  end
  = if raises_decode_error r then Propagated UnboundLocalError
    else Returned (taxonomy_record scan article_index r).
Proof.
  destruct r as [[raw|]|e]; cbn [try_block fst snd raises_decode_error taxonomy_record].
  - destruct (json_loads scan raw) as [v|e]; [reflexivity|]. destruct e; reflexivity.
  - reflexivity.
  - destruct e; reflexivity.
Qed.

(** The handlers let an exception through in one case only: a
    [JSONDecodeError] raised before [model_response] was bound. *)
Lemma handlers_propagate (i : nat) (model_response : option (option pystr)) (e e' : exn) :
  handlers i model_response e = Propagated e' ->
  e = JSONDecodeError /\ model_response = None /\ e' = UnboundLocalError.
Proof.
  destruct e; simpl; try discriminate.
  destruct model_response; [discriminate|].
  intros H. injection H as H. subst e'. repeat split.
Qed.

Lemma parse_single_article_record (n : nat) (text : pystr) (i : nat) (ctx : pystr) :
  parse_single_article system_prompt scan service n text i ctx
  = if raises_decode_error (service n system_prompt (user_prompt ctx text))
    then Propagated UnboundLocalError
    else Returned (taxonomy_record scan i (service n system_prompt (user_prompt ctx text))).
Proof.
  unfold parse_single_article.
  rewrite <- (try_block_handled i (service n system_prompt (user_prompt ctx text))).
  destruct (try_block scan _); reflexivity.
Qed.

Lemma parse_single_article_pdf_record (n : nat) (text : pystr) (i : nat) :
  parse_single_article_pdf system_prompt scan service n text i
  = if raises_decode_error (service n system_prompt (user_prompt_pdf text))
    then Propagated UnboundLocalError
    else Returned (taxonomy_record scan i (service n system_prompt (user_prompt_pdf text))).
Proof.
  unfold parse_single_article_pdf.
  rewrite <- (try_block_handled i (service n system_prompt (user_prompt_pdf text))).
  destruct (try_block scan _); reflexivity.
Qed.

Lemma process_unit_ending (ctx : pystr) (delay_positive : bool) (st : run) (i : nat)
      (text : pystr) :
  process_unit system_prompt scan service ctx delay_positive st i text
  = unit_ending system_prompt scan service (user_prompt ctx) delay_positive st i text.
Proof.
  unfold process_unit, unit_ending. rewrite parse_single_article_record.
  destruct (raises_decode_error _); [reflexivity|].
  unfold unit_events. rewrite <- app_assoc. reflexivity.
Qed.

Lemma process_unit_pdf_ending (delay_positive : bool) (st : run) (i : nat) (text : pystr) :
  process_unit_pdf system_prompt scan service delay_positive st i text
  = unit_ending system_prompt scan service user_prompt_pdf delay_positive st i text.
Proof.
  unfold process_unit_pdf, unit_ending. rewrite parse_single_article_pdf_record.
  destruct (raises_decode_error _); [reflexivity|].
  unfold unit_events. rewrite <- app_assoc. reflexivity.
Qed.

Lemma requests_app (l1 l2 : list event) :
  requests (l1 ++ l2) = (requests l1 + requests l2)%nat.
Proof.
  induction l1 as [|[sp up|] l1 IH]; simpl; [reflexivity| |exact IH].
  rewrite IH. reflexivity.
Qed.

Lemma requests_unit_events (prompt : pystr -> pystr) (delay_positive : bool) (text : pystr) :
  requests (unit_events system_prompt prompt delay_positive text) = 1%nat.
Proof. destruct delay_positive; reflexivity. Qed.

(** The loop in closed form, from any state whose log holds [i] requests. *)
Lemma for_units_closed (body : run -> nat -> pystr -> ending) (prompt : pystr -> pystr)
      (delay_positive : bool) :
  (forall st i text,
      body st i text = unit_ending system_prompt scan service prompt delay_positive st i text) ->
  forall (texts : list pystr) (i : nat) (st : run),
    requests (log st) = i ->
    for_units body i texts st
    = ({| all_results :=
            all_results st
              ++ mapi (fun k text =>
                         taxonomy_record scan k (service k system_prompt (prompt text)))
                      i (served (fun k text => service k system_prompt (prompt text)) i texts);
          log :=
            log st
              ++ flat_map (unit_events system_prompt prompt delay_positive)
                          (served (fun k text => service k system_prompt (prompt text)) i texts)
              ++ match aborted_unit (fun k text => service k system_prompt (prompt text))
                                    i texts with
                 | Some text => [Requested system_prompt (prompt text)]
                 | None => []
                 end |},
       match aborted_unit (fun k text => service k system_prompt (prompt text)) i texts with
       | Some _ => Some UnboundLocalError
       | None => None
       end).
Proof.
  intros Hbody texts. induction texts as [|text texts IH]; intros i st Hi.
  - cbn [for_units served aborted_unit mapi flat_map]. rewrite !app_nil_r.
    destruct st; reflexivity.
  - cbn [for_units served aborted_unit]. rewrite Hbody. unfold unit_ending. rewrite Hi.
    destruct (raises_decode_error (service i system_prompt (prompt text))) eqn:E.
    + cbn [mapi flat_map app]. rewrite app_nil_r. reflexivity.
    + rewrite IH.
      * cbn [all_results log mapi flat_map]. rewrite <- !app_assoc. reflexivity.
      * cbn [log]. rewrite requests_app, requests_unit_events, Hi. lia.
Qed.

Lemma extract_all_closed (ctx : pystr) (delay_positive : bool) (texts : list pystr) :
  extract_all system_prompt scan service ctx delay_positive texts
  = run_of system_prompt scan (fun k text => service k system_prompt (user_prompt ctx text))
           (user_prompt ctx) delay_positive texts.
Proof.
  unfold extract_all, run_of.
  rewrite (for_units_closed _ (user_prompt ctx) delay_positive
             (process_unit_ending ctx delay_positive) texts 0
             {| all_results := []; log := [] |} eq_refl).
  cbn [all_results log app].
  destruct (aborted_unit _ 0 texts); [reflexivity|]. rewrite app_nil_r. reflexivity.
Qed.

Lemma extract_all_pdf_closed (delay_positive : bool) (texts : list pystr) :
  extract_all_pdf system_prompt scan service delay_positive texts
  = run_of system_prompt scan (fun k text => service k system_prompt (user_prompt_pdf text))
           user_prompt_pdf delay_positive texts.
Proof.
  unfold extract_all_pdf, run_of.
  rewrite (for_units_closed _ user_prompt_pdf delay_positive
             (process_unit_pdf_ending delay_positive) texts 0
             {| all_results := []; log := [] |} eq_refl).
  cbn [all_results log app].
  destruct (aborted_unit _ 0 texts); [reflexivity|]. rewrite app_nil_r. reflexivity.
Qed.

End ExtractionFacts.

Lemma served_all (reply_for : nat -> pystr -> reply) (texts : list pystr) :
  forall i, aborted_unit reply_for i texts = None -> served reply_for i texts = texts.
Proof.
  induction texts as [|text texts IH]; intros i; [reflexivity|].
  cbn [aborted_unit served]. destruct (raises_decode_error (reply_for i text)); [discriminate|].
  intros H. rewrite (IH _ H). reflexivity.
Qed.



Lemma nth_error_mapi {A B : Type} (f : nat -> A -> B) (l : list A) :
  forall i k, nth_error (mapi f i l) k = option_map (f (i + k)%nat) (nth_error l k).
Proof.
  induction l as [|x l IH]; intros i [|k]; simpl; try reflexivity.
  - rewrite Nat.add_0_r. reflexivity.
  - rewrite IH. f_equal. f_equal. lia.
Qed.


(** C1. The invariant of one record per unit breaks when a request raises
    [JSONDecodeError] before the reply is bound: the first [except] clause
    reads [model_response], [UnboundLocalError] leaves the call and the
    loop, and the parser returns nothing.  Of the three units of this
    document the second request fails so: the run ends there with two
    requests made, one record in the accumulator and none returned. *)
Theorem run_aborts_on_decode_error_of_request :
  let service :=
    fun (n : nat) (_ _ : pystr) =>
      if (n =? 1)%nat then Failure JSONDecodeError else Completion (Some (py "{}")) in
  let scan := fun _ : pystr => Returned (JDict []) in
  let paragraphs := [py "第一条 甲"; py "第二条 乙"; py "第三条 丙"] in
  let ended := parse_docx_civil_code [] scan service paragraphs false true in
  length (extract_articles_from_docx paragraphs) = 3%nat
  /\ parse_single_article [] scan service 1 (py "第二条" ++ NL :: py "乙") 1 []
     = Propagated UnboundLocalError
  /\ snd ended = Some UnboundLocalError
  /\ all_results (fst ended) = [JDict []]
  /\ requests (log (fst ended)) = 2%nat.
Proof. vm_compute. repeat split; reflexivity. Qed.


Section TaxonomyFacts.

Variable system_prompt : pystr.
Variable scan : pystr -> result json.
Variable service : nat -> pystr -> pystr -> reply.


End TaxonomyFacts.


(** ** The result processor *)

Lemma sub_loop_run (l : list json) :
  forall st : agg_state,
    fold_left process_sub_item l st
    = (fst st ++ filter is_dict l, snd st ++ flat_map sub_note l).
Proof.
  induction l as [|x l IH]; intros [out notes]; simpl.
  - rewrite !app_nil_r. reflexivity.
  - rewrite IH. destruct x; simpl; try reflexivity.
    rewrite <- !app_assoc. reflexivity.
Qed.

Lemma process_item_run (st : agg_state) (i : nat) (item : json) :
  process_item st i item = (fst st ++ expand item, snd st ++ item_notes i item).
Proof.
  destruct st as [out notes].
  destruct item; simpl; rewrite ?app_nil_r; try reflexivity.
  apply sub_loop_run.
Qed.

Lemma process_loop_run (data : list json) :
  forall (i : nat) (st : agg_state),
    process_loop i data st
    = (fst st ++ flat_map expand data, snd st ++ concat (mapi item_notes i data)).
Proof.
  induction data as [|item data IH]; intros i [out notes]; simpl.
  - rewrite !app_nil_r. reflexivity.
  - rewrite IH, process_item_run. simpl. rewrite <- !app_assoc. reflexivity.
Qed.

Lemma process_data_expand (data : list json) : _process_data data = flat_map expand data.
Proof. unfold _process_data, process_data_run. rewrite process_loop_run. reflexivity. Qed.

Lemma flat_map_expand_dicts (records : list (list (pystr * json))) :
  flat_map expand (map JDict records) = map JDict records.
Proof. induction records as [|r records IH]; simpl; [reflexivity|]. rewrite IH. reflexivity. Qed.

(** A nested sequence with a member that is no mapping is not replaced by
    its members. *)
Lemma flatten_drops_members : ~ flattens_as_stated.
Proof.
  intros H. specialize (H [JList [JInt 1; JDict []]]).
  vm_compute in H. discriminate H.
Qed.

(** C7, as amended.  The aggregator keeps each mapping in place, replaces
    each sequence in place by those of its members that are mappings, and
    drops every other element; the records come out as they went in.  An
    input of scalar records around one nested sequence of three records
    gives the flat list of all of them in their order, three longer than
    the number of scalar records. *)
Theorem flatten_one_level (data : list json)
        (before after : list (list (pystr * json))) (a b c : list (pystr * json)) :
  _process_data data = flat_map expand data
  /\ (forall v, In v (_process_data data) ->
                is_dict v = true
                /\ (In v data \/ exists l, In (JList l) data /\ In v l))
  /\ _process_data (map JDict before ++ JList [JDict a; JDict b; JDict c] :: map JDict after)
     = map JDict before ++ [JDict a; JDict b; JDict c] ++ map JDict after
  /\ length (_process_data
               (map JDict before ++ JList [JDict a; JDict b; JDict c] :: map JDict after))
     = (length before + length after + 3)%nat.
Proof.
  assert (Hmix :
            _process_data
              (map JDict before ++ JList [JDict a; JDict b; JDict c] :: map JDict after)
            = map JDict before ++ [JDict a; JDict b; JDict c] ++ map JDict after).
  { rewrite process_data_expand, flat_map_app. simpl.
    rewrite !flat_map_expand_dicts. reflexivity. }
  split; [apply process_data_expand|].
  split; [|split; [exact Hmix|]].
  - intros v. rewrite process_data_expand, in_flat_map.
    intros (item & Hitem & Hv).
    destruct item; simpl in Hv; try contradiction.
    + apply filter_In in Hv. destruct Hv as [Hv Hd]. split; [exact Hd|].
      right. exists l. split; assumption.
    + destruct Hv as [<-|[]]. split; [reflexivity|]. left. exact Hitem.
  - rewrite Hmix, !length_app, !length_map. simpl. lia.
Qed.

Lemma sub_note_not_skipped (l : list json) :
  filter is_skipped_note (flat_map sub_note l) = [].
Proof.
  induction l as [|x l IH]; simpl; [reflexivity|].
  rewrite filter_app, IH, app_nil_r. destruct x; reflexivity.
Qed.

Lemma skipped_notes_count (data : list json) :
  forall i,
    length (filter is_skipped_note (concat (mapi item_notes i data)))
    = length (filter is_scalar_other data).
Proof.
  induction data as [|item data IH]; intros i; simpl; [reflexivity|].
  rewrite filter_app, length_app, IH.
  destruct item; simpl; rewrite ?sub_note_not_skipped; reflexivity.
Qed.

(** C10. Of a nested sequence only the members that are mappings are
    kept; its other members, nested sequences among them, leave no trace
    in the output and none in what is printed: a nested sequence
    contributes one line per mapping and no skip note, so that the skip
    notes of a run are exactly those of the top-level elements that are
    neither mappings nor sequences. *)
Theorem nested_members_filtered (data l : list json) (st : agg_state) (i : nat) :
  process_item st i (JList l)
  = (fst st ++ filter is_dict l, snd st ++ flat_map sub_note l)
  /\ filter is_skipped_note (flat_map sub_note l) = []
  /\ length (flat_map sub_note l) = length (filter is_dict l)
  /\ process_item st i (JList (filter (fun v => negb (is_dict v)) l)) = st
  /\ process_data_run data = (flat_map expand data, concat (mapi item_notes 0 data))
  /\ length (filter is_skipped_note (snd (process_data_run data)))
     = length (filter is_scalar_other data).
Proof.
  split; [apply process_item_run|].
  split; [apply sub_note_not_skipped|].
  split.
  { induction l as [|x l IH]; simpl; [reflexivity|].
    rewrite length_app, IH. destruct x; reflexivity. }
  split.
  { rewrite process_item_run. simpl.
    assert (H : forall m, filter is_dict (filter (fun v => negb (is_dict v)) m) = []
                          /\ flat_map sub_note (filter (fun v => negb (is_dict v)) m) = []).
    { induction m as [|x m [IH1 IH2]]; simpl; [split; reflexivity|].
      destruct x; simpl; rewrite ?IH1, ?IH2; split; reflexivity. }
    destruct (H l) as [-> ->]. rewrite !app_nil_r. destruct st. reflexivity. }
  split.
  { unfold process_data_run. rewrite process_loop_run. reflexivity. }
  unfold process_data_run. rewrite process_loop_run. simpl. apply skipped_notes_count.
Qed.

(** C9. A valid record whose [keywords] field is [null] makes the
    statistics pass fail: the report is the one of the error path, with a
    total of zero for a list of one record. *)
Theorem stats_fail_on_null_field :
  let record :=
    JDict [(py "article_number", JStr (py "第一条")); (py "content", JStr (py "甲"));
           (py "summary", JStr (py "乙")); (py "keywords", JNull)] in
  extract_articles_info (JList [record])
  = ErrorReport (py "提取信息时出错: object of type 'NoneType' has no len()")
  /\ report_total (extract_articles_info (JList [record])) = 0%nat
  /\ length [record] = 1%nat.
Proof. vm_compute. repeat split; reflexivity. Qed.

(** ** Characters and the marker pattern *)

Lemma isspace_cases (c : N) :
  isspace c = true -> c <> DI /\ c <> TIAO /\ in_class c = false.
Proof.
  unfold isspace, whitespace. simpl. intros H.
  repeat (apply orb_true_iff in H; destruct H as [H|H];
          [apply N.eqb_eq in H; subst c; repeat split; try discriminate; vm_compute; reflexivity|]).
  discriminate H.
Qed.

Lemma in_class_not_DI (c : N) : in_class c = true -> c <> DI.
Proof. intros H E. subst c. vm_compute in H. discriminate H. Qed.

Lemma span_class_spec (s : pystr) :
  s = fst (span_class s) ++ snd (span_class s)
  /\ forallb in_class (fst (span_class s)) = true.
Proof.
  induction s as [|c s [IH1 IH2]]; simpl; [split; reflexivity|].
  destruct (in_class c) eqn:Ec; [|split; reflexivity].
  destruct (span_class s) as [ds r]. simpl in *. rewrite Ec, IH2. split; [congruence|reflexivity].
Qed.

Lemma match_marker_shape (s tok rest : pystr) :
  match_marker s = Some (tok, rest) ->
  exists ds, ds <> [] /\ forallb in_class ds = true
             /\ tok = DI :: ds ++ [TIAO] /\ s = tok ++ rest.
Proof.
  destruct s as [|c s']; simpl; [discriminate|].
  destruct (c =? DI) eqn:Ec; [|discriminate]. apply N.eqb_eq in Ec. subst c.
  destruct (span_class_spec s') as [Hs Hc].
  destruct (span_class s') as [[|d ds] [|t r]]; try discriminate.
  destruct (t =? TIAO) eqn:Et; [|discriminate]. apply N.eqb_eq in Et. subst t.
  intros H. injection H as <- <-. exists (d :: ds). simpl in *.
  repeat split; try assumption; try discriminate.
  rewrite Hs at 1. rewrite <- app_assoc. reflexivity.
Qed.

Lemma match_marker_not_DI (c : N) (s : pystr) : c <> DI -> match_marker (c :: s) = None.
Proof. intros H. simpl. apply N.eqb_neq in H. rewrite H. reflexivity. Qed.

Lemma is_marker_not_DI (c : N) (s : pystr) : c <> DI -> is_marker (c :: s) = false.
Proof. intros H. unfold is_marker. rewrite match_marker_not_DI by assumption. reflexivity. Qed.

Lemma is_marker_space (c : N) (s : pystr) : isspace c = true -> is_marker (c :: s) = false.
Proof. intros H. apply is_marker_not_DI. apply isspace_cases in H. tauto. Qed.

Lemma is_marker_token (s : pystr) :
  is_marker s = match marker_token s with Some _ => true | None => false end.
Proof. unfold is_marker, marker_token. destruct (match_marker s) as [[? ?]|]; reflexivity. Qed.

Lemma markers_cons (c : N) (s : pystr) :
  markers (c :: s)
  = match marker_token (c :: s) with Some tok => tok :: markers s | None => markers s end.
Proof.
  change (markers (c :: s))
    with (match match_marker (c :: s) with
          | Some (tok, _) => tok :: markers s
          | None => markers s
          end).
  unfold marker_token. destruct (match_marker (c :: s)) as [[? ?]|]; reflexivity.
Qed.

Lemma markers_not_DI (c : N) (s : pystr) : c <> DI -> markers (c :: s) = markers s.
Proof.
  intros H. rewrite markers_cons. unfold marker_token.
  rewrite match_marker_not_DI by assumption. reflexivity.
Qed.

Lemma class_run_cons (c : N) (s : pystr) :
  class_run (c :: s)
  = if in_class c then (c :: fst (class_run s), snd (class_run s)) else ([], c =? TIAO).
Proof.
  unfold class_run. simpl. destruct (in_class c); [|reflexivity].
  destruct (span_class s). reflexivity.
Qed.

Lemma class_run_space (c : N) (s : pystr) : isspace c = true -> class_run (c :: s) = ([], false).
Proof.
  intros H. apply isspace_cases in H. destruct H as (_ & Ht & Hc).
  rewrite class_run_cons, Hc. apply N.eqb_neq in Ht. rewrite Ht. reflexivity.
Qed.

(** A match depends on the text after its first character through
    [class_run] only. *)
Lemma marker_token_class_run (c : N) (s t : pystr) :
  class_run s = class_run t -> marker_token (c :: s) = marker_token (c :: t).
Proof.
  unfold class_run, marker_token. simpl.
  destruct (span_class s) as [ds r], (span_class t) as [ds' r']. intros H.
  destruct (c =? DI); [|reflexivity].
  injection H as <- H.
  destruct ds as [|d ds]; [reflexivity|].
  destruct r as [|x r], r' as [|x' r']; simpl in H.
  - reflexivity.
  - rewrite <- H. reflexivity.
  - rewrite H. reflexivity.
  - rewrite <- H. destruct (x =? TIAO) eqn:Ex; [|reflexivity].
    symmetry in H. apply N.eqb_eq in Ex, H. subst. reflexivity.
Qed.

Lemma is_marker_class_run (c : N) (s t : pystr) :
  class_run s = class_run t -> is_marker (c :: s) = is_marker (c :: t).
Proof. intros H. rewrite !is_marker_token, (marker_token_class_run c _ _ H). reflexivity. Qed.

Lemma markers_class_run (c : N) (s t : pystr) :
  class_run s = class_run t -> markers s = markers t -> markers (c :: s) = markers (c :: t).
Proof.
  intros H1 H2. rewrite !markers_cons, (marker_token_class_run c _ _ H1), H2. reflexivity.
Qed.

(** ** Stripping *)

Lemma rstrip_cons_nonspace (c : N) (s : pystr) :
  isspace c = false -> rstrip (c :: s) = c :: rstrip s.
Proof. intros H. simpl. rewrite H. destruct (rstrip s); reflexivity. Qed.

Lemma rstrip_cons_nil (c : N) (s : pystr) :
  rstrip s = [] -> isspace c = true -> rstrip (c :: s) = [].
Proof. intros H1 H2. simpl. rewrite H1, H2. reflexivity. Qed.

(** [rstrip (c :: s)] is either empty or [c :: rstrip s]. *)
Lemma rstrip_cons_cases (c : N) (s : pystr) :
  (rstrip (c :: s) = [] /\ rstrip s = [] /\ isspace c = true)
  \/ rstrip (c :: s) = c :: rstrip s.
Proof.
  simpl. destruct (rstrip s) eqn:E; [|right; reflexivity].
  destruct (isspace c); [left|right]; auto.
Qed.

Lemma rstrip_nil_iff (s : pystr) : rstrip s = [] <-> forallb isspace s = true.
Proof.
  induction s as [|c s IH]; simpl; [tauto|].
  destruct (rstrip s) eqn:E.
  - destruct (isspace c); simpl; split; try discriminate; try tauto.
  - split; [discriminate|]. intros H. apply andb_true_iff in H.
    destruct H as [_ H]. apply IH in H. discriminate H.
Qed.

Lemma lstrip_nil_iff (s : pystr) : lstrip s = [] <-> forallb isspace s = true.
Proof.
  induction s as [|c s IH]; simpl; [tauto|].
  destruct (isspace c); simpl; [exact IH|]. split; discriminate.
Qed.

Lemma forallb_lstrip (P : N -> bool) (s : pystr) :
  forallb P s = true -> forallb P (lstrip s) = true.
Proof.
  induction s as [|c s IH]; simpl; [tauto|]. intros H.
  destruct (isspace c); [|exact H]. apply andb_true_iff in H. tauto.
Qed.

Lemma forallb_rstrip (P : N -> bool) (s : pystr) :
  forallb P s = true -> forallb P (rstrip s) = true.
Proof.
  induction s as [|c s IH]; [tauto|]. intros H. simpl in H.
  apply andb_true_iff in H. destruct H as [Hc Hs].
  destruct (rstrip_cons_cases c s) as [(-> & _)| ->]; [reflexivity|].
  simpl. rewrite Hc. apply IH, Hs.
Qed.

Lemma strip_nil_iff (s : pystr) : strip s = [] <-> forallb isspace s = true.
Proof.
  unfold strip. rewrite rstrip_nil_iff. split.
  - induction s as [|c s IH]; simpl; [tauto|].
    destruct (isspace c) eqn:Ec; simpl; [exact IH|]. rewrite Ec. simpl. tauto.
  - apply forallb_lstrip.
Qed.

Lemma lstrip_rstrip (s : pystr) : lstrip (rstrip s) = rstrip (lstrip s).
Proof.
  induction s as [|c s IH]; [reflexivity|].
  destruct (isspace c) eqn:Ec.
  - simpl lstrip at 2. rewrite Ec, <- IH.
    destruct (rstrip_cons_cases c s) as [(-> & -> & _)| ->]; [reflexivity|].
    simpl. rewrite Ec. reflexivity.
  - simpl lstrip at 2. rewrite Ec, !rstrip_cons_nonspace by assumption.
    simpl. rewrite Ec. reflexivity.
Qed.

Lemma rstrip_idem (s : pystr) : rstrip (rstrip s) = rstrip s.
Proof.
  induction s as [|c s IH]; [reflexivity|].
  destruct (rstrip_cons_cases c s) as [(-> & _)| E]; [reflexivity|].
  rewrite E. simpl. rewrite IH.
  destruct (rstrip s) eqn:Es; [|reflexivity].
  destruct (isspace c) eqn:Ec; [|reflexivity].
  rewrite rstrip_cons_nil in E by assumption. discriminate E.
Qed.

Lemma lstrip_idem (s : pystr) : lstrip (lstrip s) = lstrip s.
Proof.
  induction s as [|c s IH]; [reflexivity|]. simpl.
  destruct (isspace c) eqn:Ec; [exact IH|]. simpl. rewrite Ec. reflexivity.
Qed.

Lemma strip_idem (s : pystr) : strip (strip s) = strip s.
Proof.
  unfold strip. rewrite lstrip_rstrip, lstrip_idem, rstrip_idem. reflexivity.
Qed.

Lemma class_run_rstrip (s : pystr) : class_run (rstrip s) = class_run s.
Proof.
  induction s as [|c s IH]; [reflexivity|].
  destruct (rstrip_cons_cases c s) as [(-> & _ & Hc)| ->].
  - rewrite class_run_space by assumption. reflexivity.
  - rewrite !class_run_cons, IH. reflexivity.
Qed.

Lemma markers_lstrip (s : pystr) : markers (lstrip s) = markers s.
Proof.
  induction s as [|c s IH]; [reflexivity|]. simpl lstrip.
  destruct (isspace c) eqn:Ec; [|reflexivity].
  rewrite IH. symmetry. apply markers_not_DI. apply isspace_cases in Ec. tauto.
Qed.

Lemma markers_all_space (s : pystr) : forallb isspace s = true -> markers s = [].
Proof.
  induction s as [|c s IH]; [reflexivity|]. simpl forallb. intros H.
  apply andb_true_iff in H. destruct H as [Hc Hs].
  rewrite markers_not_DI; [apply IH, Hs|]. apply isspace_cases in Hc. tauto.
Qed.

Lemma markers_rstrip (s : pystr) : markers (rstrip s) = markers s.
Proof.
  induction s as [|c s IH]; [reflexivity|].
  destruct (rstrip_cons_cases c s) as [(-> & Hs & Hc)| ->].
  - symmetry. apply markers_all_space. simpl. rewrite Hc.
    apply rstrip_nil_iff, Hs.
  - apply markers_class_run; [apply class_run_rstrip|exact IH].
Qed.

Lemma markers_strip (s : pystr) : markers (strip s) = markers s.
Proof. unfold strip. rewrite markers_rstrip. apply markers_lstrip. Qed.

Lemma marker_token_rstrip (s : pystr) : marker_token (rstrip s) = marker_token s.
Proof.
  destruct s as [|c s]; [reflexivity|].
  destruct (rstrip_cons_cases c s) as [(-> & _ & Hc)| ->].
  - unfold marker_token. rewrite match_marker_not_DI; [reflexivity|].
    apply isspace_cases in Hc. tauto.
  - apply marker_token_class_run, class_run_rstrip.
Qed.

(** ** The passes of the normalizer keep the markers *)

Lemma replace_crlf_not_CR (c : N) (s : pystr) :
  c <> CR -> replace_crlf (c :: s) = c :: replace_crlf s.
Proof.
  intros H. simpl. destruct s as [|n s]; [reflexivity|].
  apply N.eqb_neq in H. rewrite H. reflexivity.
Qed.

Lemma replace_crlf_CR (s : pystr) :
  replace_crlf (CR :: s)
  = match s with
    | n :: s' => if n =? NL then NL :: replace_crlf s' else CR :: replace_crlf s
    | [] => [CR]
    end.
Proof. destruct s as [|n s]; reflexivity. Qed.

Lemma pair_induction (P : pystr -> Prop) :
  P [] -> (forall c, P [c]) ->
  (forall c n s, P s -> P (n :: s) -> P (c :: n :: s)) ->
  forall s, P s.
Proof.
  intros H0 H1 H2 s.
  assert (H : P s /\ forall c, P (c :: s)).
  { induction s as [|n s [IHa IHb]]; [split; [exact H0|exact H1]|].
    split; [apply IHb|]. intros c. apply H2; [exact IHa|apply IHb]. }
  apply H.
Qed.

Lemma class_run_replace_crlf (s : pystr) : class_run (replace_crlf s) = class_run s.
Proof.
  induction s as [|c s IH]; [reflexivity|].
  destruct (N.eq_dec c CR) as [->|Hc].
  - rewrite replace_crlf_CR. destruct s as [|n s]; [reflexivity|].
    destruct (n =? NL); reflexivity.
  - rewrite replace_crlf_not_CR by assumption. rewrite !class_run_cons, IH. reflexivity.
Qed.

Lemma markers_replace_crlf (s : pystr) : markers (replace_crlf s) = markers s.
Proof.
  induction s as [| c | c n s IH1 IH2] using pair_induction; try reflexivity.
  destruct (N.eq_dec c CR) as [->|Hc].
  - rewrite replace_crlf_CR. destruct (n =? NL) eqn:En.
    + apply N.eqb_eq in En. subst n.
      rewrite !markers_not_DI by discriminate. exact IH1.
    + rewrite !(markers_not_DI CR) by discriminate. exact IH2.
  - rewrite replace_crlf_not_CR by assumption.
    apply markers_class_run; [apply class_run_replace_crlf|exact IH2].
Qed.

Lemma class_run_replace_cr (s : pystr) : class_run (replace_cr s) = class_run s.
Proof.
  induction s as [|c s IH]; [reflexivity|]. unfold replace_cr in *. simpl map.
  destruct (c =? CR) eqn:Ec.
  - apply N.eqb_eq in Ec. subst c. reflexivity.
  - rewrite !class_run_cons, IH. reflexivity.
Qed.

Lemma markers_replace_cr (s : pystr) : markers (replace_cr s) = markers s.
Proof.
  induction s as [|c s IH]; [reflexivity|].
  change (replace_cr (c :: s)) with ((if c =? CR then NL else c) :: replace_cr s).
  destruct (c =? CR) eqn:Ec.
  - apply N.eqb_eq in Ec. subst c. rewrite !markers_not_DI by discriminate. exact IH.
  - apply markers_class_run; [apply class_run_replace_cr|exact IH].
Qed.

Section Collapse.

(** The collapsed character is a blank. *)
Variable x : N.
Hypothesis x_space : isspace x = true.

Lemma collapse_go_other (b : bool) (c : N) (s : pystr) :
  c <> x -> collapse_go x b (c :: s) = c :: collapse_go x false s.
Proof. intros H. simpl. apply N.eqb_neq in H. rewrite H. reflexivity. Qed.

Lemma collapse_go_same (b : bool) (s : pystr) :
  collapse_go x b (x :: s)
  = if b then collapse_go x true s else x :: collapse_go x true s.
Proof. simpl. rewrite N.eqb_refl. reflexivity. Qed.

Lemma class_run_collapse (s : pystr) : class_run (collapse_go x false s) = class_run s.
Proof.
  induction s as [|c s IH]; [reflexivity|].
  destruct (N.eq_dec c x) as [->|Hc].
  - rewrite collapse_go_same, !class_run_space by assumption. reflexivity.
  - rewrite collapse_go_other by assumption. rewrite !class_run_cons, IH. reflexivity.
Qed.

Lemma markers_collapse (s : pystr) :
  forall b, markers (collapse_go x b s) = markers s.
Proof.
  assert (Hx : x <> DI) by (apply isspace_cases in x_space; tauto).
  induction s as [|c s IH]; intros b; [reflexivity|].
  destruct (N.eq_dec c x) as [->|Hc].
  - rewrite collapse_go_same. destruct b; rewrite !markers_not_DI by assumption; apply IH.
  - rewrite collapse_go_other by assumption.
    apply markers_class_run; [apply class_run_collapse|apply IH].
Qed.

End Collapse.

Lemma class_run_insert_newlines (s : pystr) : class_run (insert_newlines s) = class_run s.
Proof.
  induction s as [|c s IH]; [reflexivity|]. simpl insert_newlines.
  destruct (is_marker (c :: s)) eqn:Em.
  - assert (c = DI) as ->.
    { destruct (N.eq_dec c DI) as [E|E]; [exact E|].
      rewrite is_marker_not_DI in Em by assumption. discriminate Em. }
    reflexivity.
  - rewrite !class_run_cons, IH. reflexivity.
Qed.

Lemma is_marker_insert_newlines (c : N) (s : pystr) :
  is_marker (c :: insert_newlines s) = is_marker (c :: s).
Proof. apply is_marker_class_run, class_run_insert_newlines. Qed.

Lemma markers_insert_newlines (s : pystr) : markers (insert_newlines s) = markers s.
Proof.
  induction s as [|c s IH]; [reflexivity|]. simpl insert_newlines.
  destruct (is_marker (c :: s)).
  - rewrite (markers_not_DI NL) by discriminate.
    apply markers_class_run; [apply class_run_insert_newlines|exact IH].
  - apply markers_class_run; [apply class_run_insert_newlines|exact IH].
Qed.

Lemma newline_before_markers_go_0 (c : N) (s : pystr) :
  newline_before_markers_go 0 (c :: s)
  = match match_marker (c :: s) with
    | Some (tok, _) => NL :: c :: newline_before_markers_go (pred (length tok)) s
    | None => c :: newline_before_markers_go 0 s
    end.
Proof. reflexivity. Qed.

Lemma insert_newlines_cons (c : N) (s : pystr) :
  insert_newlines (c :: s)
  = if is_marker (c :: s) then NL :: c :: insert_newlines s else c :: insert_newlines s.
Proof. reflexivity. Qed.

(** Matches of the marker pattern cannot overlap, so the substitution
    inserts a newline at every position where a marker starts. *)
Lemma newline_before_markers_go_insert (s : pystr) :
  forall k,
    forallb (fun c => negb (c =? DI)) (firstn k s) = true ->
    newline_before_markers_go k s = insert_newlines s.
Proof.
  induction s as [|c s IH]; intros k Hk; [destruct k; reflexivity|].
  destruct k as [|k].
  - rewrite newline_before_markers_go_0, insert_newlines_cons. unfold is_marker.
    destruct (match_marker (c :: s)) as [[tok rest]|] eqn:Em.
    + f_equal. f_equal. apply IH.
      destruct (match_marker_shape _ _ _ Em) as (ds & _ & Hds & -> & Hs).
      injection Hs as -> ->.
      replace (pred (length (DI :: ds ++ [TIAO]))) with (length (ds ++ [TIAO]))
        by reflexivity.
      rewrite <- app_assoc. simpl app.
      replace (ds ++ TIAO :: rest) with ((ds ++ [TIAO]) ++ rest)
        by (rewrite <- app_assoc; reflexivity).
      rewrite firstn_app, firstn_all, Nat.sub_diag, firstn_O, app_nil_r.
      rewrite forallb_app. simpl. rewrite andb_true_r.
      apply forallb_forall. intros d Hd.
      rewrite forallb_forall in Hds. specialize (Hds d Hd).
      apply negb_true_iff, N.eqb_neq, in_class_not_DI, Hds.
    + f_equal. apply IH. reflexivity.
  - simpl in Hk. apply andb_true_iff in Hk. destruct Hk as [Hc Hk].
    rewrite insert_newlines_cons.
    rewrite is_marker_not_DI by (apply N.eqb_neq, negb_true_iff, Hc).
    simpl newline_before_markers_go.
    f_equal. apply IH, Hk.
Qed.

Lemma newline_before_markers_insert (s : pystr) :
  newline_before_markers s = insert_newlines s.
Proof. apply newline_before_markers_go_insert. reflexivity. Qed.

Lemma clean_pdf_text_unfold (s : pystr) :
  _clean_pdf_text s = strip (insert_newlines (unify_and_collapse s)).
Proof. unfold _clean_pdf_text. rewrite newline_before_markers_insert. reflexivity. Qed.

Lemma markers_unify_and_collapse (s : pystr) : markers (unify_and_collapse s) = markers s.
Proof.
  unfold unify_and_collapse, collapse.
  rewrite (markers_collapse NL eq_refl), (markers_collapse SP eq_refl).
  rewrite markers_replace_cr. apply markers_replace_crlf.
Qed.

(** Normalization neither adds nor removes a marker. *)
Lemma markers_clean_pdf_text (s : pystr) : markers (_clean_pdf_text s) = markers s.
Proof.
  rewrite clean_pdf_text_unfold, markers_strip, markers_insert_newlines.
  apply markers_unify_and_collapse.
Qed.

(** ** Markers at the start of lines *)

Lemma msl_cons (b : bool) (c : N) (s : pystr) :
  markers_start_lines b (c :: s)
  = (if is_marker (c :: s) then b else true) && markers_start_lines (c =? NL) s.
Proof. reflexivity. Qed.

Lemma msl_weaken (s : pystr) (b : bool) :
  markers_start_lines b s = true -> markers_start_lines true s = true.
Proof.
  destruct s as [|c s]; [reflexivity|]. rewrite !msl_cons.
  intros H. apply andb_true_iff in H. destruct H as [_ H]. rewrite H.
  destruct (is_marker (c :: s)); reflexivity.
Qed.

Lemma msl_false_not_marker (s : pystr) :
  markers_start_lines false s = true -> is_marker s = false.
Proof.
  destruct s as [|c s]; [reflexivity|]. rewrite msl_cons.
  destruct (is_marker (c :: s)); [discriminate|reflexivity].
Qed.

Lemma msl_insert_newlines (s : pystr) :
  forall b, markers_start_lines b (insert_newlines s) = true.
Proof.
  induction s as [|c s IH]; intros b; [reflexivity|].
  rewrite insert_newlines_cons. destruct (is_marker (c :: s)) eqn:Em.
  - rewrite msl_cons, is_marker_not_DI by discriminate.
    rewrite msl_cons, is_marker_insert_newlines, Em, IH. reflexivity.
  - rewrite msl_cons, is_marker_insert_newlines, Em, IH. reflexivity.
Qed.

Lemma msl_lstrip (s : pystr) :
  forall b, markers_start_lines b s = true -> markers_start_lines true (lstrip s) = true.
Proof.
  induction s as [|c s IH]; intros b H; [reflexivity|].
  simpl lstrip. destruct (isspace c); [|apply (msl_weaken _ _ H)].
  rewrite msl_cons in H. apply andb_true_iff in H. destruct H as [_ H].
  apply (IH _ H).
Qed.

Lemma msl_rstrip (s : pystr) :
  forall b, markers_start_lines b s = true -> markers_start_lines b (rstrip s) = true.
Proof.
  induction s as [|c s IH]; intros b H; [reflexivity|].
  destruct (rstrip_cons_cases c s) as [(-> & _)| ->]; [reflexivity|].
  rewrite msl_cons in *.
  rewrite (is_marker_class_run c _ _ (class_run_rstrip s)).
  apply andb_true_iff in H. destruct H as [H1 H2]. rewrite H1. apply IH, H2.
Qed.

(** In a normalized text every marker starts a line. *)
Lemma msl_clean_pdf_text (s : pystr) : markers_start_lines true (_clean_pdf_text s) = true.
Proof.
  rewrite clean_pdf_text_unfold. unfold strip.
  apply msl_rstrip, (msl_lstrip _ true), msl_insert_newlines.
Qed.

(** ** Lines *)

Lemma split_nl_cons (c : N) (s : pystr) :
  split_nl (c :: s)
  = if c =? NL then [] :: split_nl s
    else match split_nl s with l :: ls => (c :: l) :: ls | [] => [[c]] end.
Proof. reflexivity. Qed.

Lemma split_nl_shape (s : pystr) : exists l ls, split_nl s = l :: ls.
Proof.
  induction s as [|c s (l & ls & IH)]; [exists [], []; reflexivity|].
  rewrite split_nl_cons, IH. destruct (c =? NL); eauto.
Qed.

Lemma split_nl_other (c : N) (s l : pystr) (ls : list pystr) :
  c <> NL -> split_nl s = l :: ls -> split_nl (c :: s) = (c :: l) :: ls.
Proof.
  intros Hc H. rewrite split_nl_cons, H. apply N.eqb_neq in Hc. rewrite Hc. reflexivity.
Qed.

Lemma split_nl_NL (s : pystr) : split_nl (NL :: s) = [] :: split_nl s.
Proof. reflexivity. Qed.

Lemma class_run_first_line (s l : pystr) (ls : list pystr) :
  split_nl s = l :: ls -> class_run l = class_run s.
Proof.
  revert l ls. induction s as [|c s IH]; intros l ls H.
  - injection H as <- _. reflexivity.
  - destruct (N.eq_dec c NL) as [->|Hc].
    + rewrite split_nl_NL in H. injection H as <- _. reflexivity.
    + destruct (split_nl_shape s) as (l' & ls' & E).
      rewrite (split_nl_other c s _ _ Hc E) in H. injection H as <- _.
      rewrite !class_run_cons, (IH _ _ E). reflexivity.
Qed.

Lemma split_nl_no_NL (s : pystr) : Forall (fun l => no_NL l = true) (split_nl s).
Proof.
  induction s as [|c s IH]; [repeat constructor|].
  destruct (N.eq_dec c NL) as [->|Hc].
  - rewrite split_nl_NL. constructor; [reflexivity|exact IH].
  - destruct (split_nl_shape s) as (l & ls & E). rewrite (split_nl_other c s _ _ Hc E).
    rewrite E in IH. inversion IH as [|? ? Hl Hls]; subst.
    constructor; [|exact Hls]. unfold no_NL in *. simpl.
    apply N.eqb_neq in Hc. rewrite Hc, Hl. reflexivity.
Qed.

Lemma markers_split_nl (s : pystr) : markers s = concat (map markers (split_nl s)).
Proof.
  induction s as [|c s IH]; [reflexivity|].
  destruct (N.eq_dec c NL) as [->|Hc].
  - rewrite split_nl_NL, markers_not_DI by discriminate. exact IH.
  - destruct (split_nl_shape s) as (l & ls & E). rewrite (split_nl_other c s _ _ Hc E).
    rewrite E in IH.
    change (concat (map markers (l :: ls))) with (markers l ++ concat (map markers ls)) in IH.
    change (concat (map markers ((c :: l) :: ls)))
      with (markers (c :: l) ++ concat (map markers ls)).
    rewrite !markers_cons, (marker_token_class_run c _ _ (class_run_first_line _ _ _ E)), IH.
    destruct (marker_token (c :: s)); reflexivity.
Qed.

Lemma msl_split_nl (s : pystr) :
  forall b l ls,
    markers_start_lines b s = true -> split_nl s = l :: ls ->
    markers_start_lines b l = true
    /\ Forall (fun l => markers_start_lines true l = true) ls.
Proof.
  induction s as [|c s IH]; intros b l ls H E.
  - injection E as <- <-. split; [reflexivity|constructor].
  - rewrite msl_cons in H. apply andb_true_iff in H. destruct H as [H1 H2].
    destruct (split_nl_shape s) as (l' & ls' & E').
    destruct (IH _ _ _ H2 E') as [Hl Hls].
    destruct (N.eq_dec c NL) as [->|Hc].
    + rewrite split_nl_NL, E' in E. injection E as <- <-.
      split; [reflexivity|]. constructor; assumption.
    + rewrite (split_nl_other c s _ _ Hc E') in E. injection E as <- <-.
      split; [|exact Hls]. rewrite msl_cons.
      rewrite (is_marker_class_run c _ _ (class_run_first_line _ _ _ E')), H1, Hl.
      reflexivity.
Qed.

Lemma msl_lines (s : pystr) :
  markers_start_lines true s = true ->
  Forall (fun l => markers_start_lines true l = true /\ no_NL l = true) (split_nl s).
Proof.
  intros H. destruct (split_nl_shape s) as (l & ls & E).
  destruct (msl_split_nl _ _ _ _ H E) as [Hl Hls].
  pose proof (split_nl_no_NL s) as Hn. rewrite E in *.
  inversion Hn as [|? ? Hnl Hnls]; subst.
  constructor; [split; assumption|].
  rewrite Forall_forall in *. intros x Hx. split; auto.
Qed.

Lemma no_markers_in_line (l : pystr) :
  no_NL l = true -> markers_start_lines false l = true -> markers l = [].
Proof.
  induction l as [|c l IH]; intros Hn H; [reflexivity|].
  unfold no_NL in Hn. simpl in Hn. apply andb_true_iff in Hn. destruct Hn as [Hc Hn].
  apply negb_true_iff in Hc.
  pose proof (msl_false_not_marker _ H) as Hm.
  rewrite msl_cons, Hc in H. apply andb_true_iff in H. destruct H as [_ H].
  rewrite markers_cons. rewrite is_marker_token in Hm.
  destruct (marker_token (c :: l)); [discriminate|]. apply IH; assumption.
Qed.

Lemma markers_of_line (l : pystr) :
  no_NL l = true -> markers_start_lines true l = true -> markers l = token_list l.
Proof.
  destruct l as [|c l]; intros Hn H; [reflexivity|].
  unfold no_NL in Hn. simpl in Hn. apply andb_true_iff in Hn. destruct Hn as [Hc Hn].
  apply negb_true_iff in Hc.
  rewrite msl_cons, Hc in H. apply andb_true_iff in H. destruct H as [_ H].
  rewrite markers_cons. unfold token_list.
  rewrite (no_markers_in_line _ Hn H). destruct (marker_token (c :: l)); reflexivity.
Qed.

Lemma marker_token_markers (s : pystr) : markers s = [] -> marker_token s = None.
Proof.
  destruct s as [|c s]; [reflexivity|]. rewrite markers_cons.
  destruct (marker_token (c :: s)); [discriminate|reflexivity].
Qed.

Lemma marker_token_DI (s : pystr) (tok : pystr) :
  marker_token s = Some tok -> exists s', s = DI :: s'.
Proof.
  destruct s as [|c s]; [discriminate|]. intros H.
  destruct (N.eq_dec c DI) as [->|Hc]; [eauto|].
  unfold marker_token in H. rewrite match_marker_not_DI in H by assumption. discriminate H.
Qed.

Lemma token_list_strip (l : pystr) :
  no_NL l = true -> markers_start_lines true l = true ->
  token_list (strip l) = token_list l.
Proof.
  intros Hn H. unfold token_list.
  destruct (marker_token l) as [tok|] eqn:E.
  - destruct (marker_token_DI _ _ E) as (l' & ->).
    unfold strip. simpl lstrip. rewrite marker_token_rstrip, E. reflexivity.
  - rewrite marker_token_markers; [reflexivity|].
    rewrite markers_strip, (markers_of_line _ Hn H). unfold token_list. rewrite E. reflexivity.
Qed.

Lemma is_marker_strip (l : pystr) :
  no_NL l = true -> markers_start_lines true l = true ->
  is_marker (strip l) = is_marker l.
Proof.
  intros Hn H. pose proof (token_list_strip _ Hn H) as E. unfold token_list in E.
  rewrite !is_marker_token.
  destruct (marker_token (strip l)), (marker_token l); try reflexivity; discriminate E.
Qed.

(** ** The line-oriented state machine *)

#[local] Arguments pdf_step : simpl never.

Lemma pdf_step_blank (st : seg_state) (line : pystr) :
  truthy (strip line) = false -> pdf_step st line = st.
Proof. intros H. destruct st. unfold pdf_step. rewrite H. reflexivity. Qed.

Lemma pdf_step_marker (articles : list article) (cur : article) (line : pystr) :
  is_marker (strip line) = true ->
  pdf_step (articles, cur) line
  = (flush (articles, cur), {| title := strip line; content := [] |}).
Proof.
  intros H. unfold pdf_step, flush. rewrite H.
  assert (truthy (strip line) = true) as ->; [|reflexivity].
  destruct (strip line); [discriminate H|reflexivity].
Qed.

Lemma pdf_step_plain (articles : list article) (cur : article) (line : pystr) :
  truthy (strip line) = true -> is_marker (strip line) = false ->
  pdf_step (articles, cur) line
  = if truthy (title cur) then (articles, add_content cur (strip line)) else (articles, cur).
Proof. intros H1 H2. unfold pdf_step. rewrite H1, H2. reflexivity. Qed.

Lemma titles_fold (lines : list pystr) :
  forall st : seg_state,
    map title_token (flush (fold_left pdf_step lines st))
    = map title_token (flush st) ++ flat_map (fun l => token_list (strip l)) lines.
Proof.
  induction lines as [|l lines IH]; intros [arts cur]; simpl fold_left.
  - simpl. rewrite app_nil_r. reflexivity.
  - rewrite IH. simpl flat_map. rewrite app_assoc. f_equal.
    destruct (truthy (strip l)) eqn:El.
    + destruct (is_marker (strip l)) eqn:Em.
      * rewrite pdf_step_marker by assumption.
        unfold flush at 1. simpl title.
        rewrite El, map_app. f_equal.
        unfold token_list, title_token, marker_token. simpl.
        unfold is_marker in Em.
        destruct (match_marker (strip l)) as [[tok rest]|]; [reflexivity|discriminate].
      * rewrite pdf_step_plain by assumption.
        assert (token_list (strip l) = []) as ->.
        { unfold token_list. rewrite is_marker_token in Em.
          destruct (marker_token (strip l)); [discriminate|reflexivity]. }
        rewrite app_nil_r. unfold flush.
        destruct (truthy (title cur)) eqn:Et; [|rewrite Et; reflexivity].
        simpl. rewrite Et, !map_app. reflexivity.
    + rewrite pdf_step_blank by assumption.
      assert (strip l = []) as -> by (apply truthy_false, El).
      rewrite app_nil_r. reflexivity.
Qed.

Lemma titles_segment_lines (lines : list pystr) :
  map title_token (segment_lines lines)
  = flat_map (fun l => token_list (strip l)) lines.
Proof. unfold segment_lines. rewrite titles_fold. reflexivity. Qed.

Lemma titles_are_markers_fold (lines : list pystr) :
  forall st : seg_state,
    Forall (fun u => is_marker (title u) = true) (fst st) -> current_ok (snd st) ->
    Forall (fun u => is_marker (title u) = true) (flush (fold_left pdf_step lines st)).
Proof.
  induction lines as [|l lines IH]; intros [arts cur] Ha Hc; simpl in Ha, Hc.
  - simpl. destruct (truthy (title cur)) eqn:Et; [|exact Ha].
    apply Forall_app. split; [exact Ha|]. constructor; [|constructor].
    destruct Hc as [Hc|Hc]; [rewrite Hc in Et; discriminate Et|exact Hc].
  - simpl fold_left. apply IH.
    + unfold pdf_step. destruct (truthy (strip l)); simpl; [|exact Ha].
      destruct (is_marker (strip l)); simpl.
      * destruct (truthy (title cur)) eqn:Et; [|exact Ha].
        apply Forall_app. split; [exact Ha|]. constructor; [|constructor].
        destruct Hc as [Hc|Hc]; [rewrite Hc in Et; discriminate Et|exact Hc].
      * destruct (truthy (title cur)); exact Ha.
    + unfold pdf_step. destruct (truthy (strip l)); simpl; [|exact Hc].
      destruct (is_marker (strip l)) eqn:Em; simpl; [right; exact Em|].
      destruct (truthy (title cur)); exact Hc.
Qed.

Lemma titles_of_marked_text (t : pystr) :
  markers_start_lines true t = true ->
  map title_token (segment_lines (split_nl t)) = markers t.
Proof.
  intros H. rewrite titles_segment_lines, markers_split_nl, flat_map_concat_map.
  f_equal. apply map_ext_in. intros l Hl.
  pose proof (msl_lines _ H) as Hall. rewrite Forall_forall in Hall.
  destruct (Hall _ Hl) as [Hm Hn].
  rewrite token_list_strip, markers_of_line by assumption. reflexivity.
Qed.

(** C2. The line-oriented segmenter yields one unit for each marker of
    the normalized text, in the order of the markers: the tokens its
    titles start with are the markers of the text one after the other, so
    there are as many units as markers; every title starts with a marker
    and hence is not empty.  Normalization itself keeps the markers of the
    raw text. *)
Theorem segmentation_complete (s : pystr) :
  map title_token (extract_articles_from_pdf s) = markers (_clean_pdf_text s)
  /\ length (extract_articles_from_pdf s) = length (markers (_clean_pdf_text s))
  /\ markers (_clean_pdf_text s) = markers s
  /\ Forall (fun u => title u <> [] /\ is_marker (title u) = true)
            (extract_articles_from_pdf s).
Proof.
  assert (H : map title_token (extract_articles_from_pdf s) = markers (_clean_pdf_text s)).
  { apply titles_of_marked_text, msl_clean_pdf_text. }
  split; [exact H|]. split; [rewrite <- H; symmetry; apply length_map|].
  split; [apply markers_clean_pdf_text|].
  unfold extract_articles_from_pdf, segment_lines.
  eapply Forall_impl; [|apply titles_are_markers_fold; [constructor|left; reflexivity]].
  intros u Hu. cbv beta in Hu. split; [|exact Hu].
  intros E. rewrite E in Hu. discriminate Hu.
Qed.

(** ** The regex split, line by line *)

Lemma re_split_markers_cons (c : N) (s : pystr) :
  re_split_markers (c :: s)
  = if is_marker (c :: s) then [] :: push c (re_split_markers s)
    else push c (re_split_markers s).
Proof. reflexivity. Qed.

Lemma re_split_markers_front (s : pystr) :
  exists ps, re_split_markers s = front_matter s :: ps.
Proof.
  induction s as [|c s (ps & IH)]; [exists []; reflexivity|].
  rewrite re_split_markers_cons. simpl front_matter.
  destruct (is_marker (c :: s)); [eauto|]. rewrite IH. simpl. eauto.
Qed.

Lemma is_marker_first_line (s l : pystr) (ls : list pystr) :
  split_nl s = l :: ls -> is_marker l = is_marker s.
Proof.
  destruct s as [|c s]; intros H.
  - injection H as <- _. reflexivity.
  - destruct (N.eq_dec c NL) as [->|Hc].
    + rewrite split_nl_NL in H. injection H as <- _. reflexivity.
    + destruct (split_nl_shape s) as (l' & ls' & E).
      rewrite (split_nl_other c s _ _ Hc E) in H. injection H as <- _.
      apply is_marker_class_run, (class_run_first_line _ _ _ E).
Qed.

Lemma groups_cons (P : pystr -> bool) (l : pystr) (ls : list pystr) :
  groups P (l :: ls)
  = if P l then ([], (l :: fst (groups P ls)) :: snd (groups P ls))
    else (l :: fst (groups P ls), snd (groups P ls)).
Proof. simpl. destruct (groups P ls). reflexivity. Qed.

Lemma with_tail_cons_line (x : pystr) (f X : list pystr) (gs Y : list (list pystr)) :
  X :: Y = with_tail (f :: gs) -> (x :: X) :: Y = with_tail ((x :: f) :: gs).
Proof.
  destruct gs as [|g gs]; simpl; intros H; injection H as -> ->; reflexivity.
Qed.

Lemma with_tail_head_line (l : pystr) (f X : list pystr) (gs Y : list (list pystr)) :
  X :: Y = with_tail ((l :: f) :: gs) ->
  exists qs, X = l :: qs
             /\ forall l', (l' :: qs) :: Y = with_tail ((l' :: f) :: gs).
Proof.
  destruct gs as [|g gs]; simpl; intros H; injection H as -> ->; eauto.
Qed.

Lemma re_split_lines (t : pystr) :
  forall b,
    markers_start_lines b t = true ->
    map split_nl (re_split_markers t)
    = with_tail (fst (groups is_marker (split_nl t)) :: snd (groups is_marker (split_nl t))).
Proof.
  induction t as [|c t IH]; intros b H; [reflexivity|].
  rewrite msl_cons in H. apply andb_true_iff in H. destruct H as [H1 H2].
  specialize (IH _ H2).
  destruct (split_nl_shape t) as (l & ls & E).
  destruct (re_split_markers_front t) as (ps & Ep).
  rewrite re_split_markers_cons, Ep. rewrite Ep in IH. simpl push. simpl map in IH.
  destruct (N.eq_dec c NL) as [->|Hc].
  - rewrite is_marker_not_DI by discriminate.
    rewrite split_nl_NL, groups_cons.
    change (is_marker []) with false. cbv iota.
    cbn [map fst snd]. rewrite split_nl_NL.
    apply with_tail_cons_line, IH.
  - assert (Hb : (c =? NL) = false) by (apply N.eqb_neq, Hc).
    rewrite Hb in H2.
    rewrite E, groups_cons in IH.
    rewrite (is_marker_first_line _ _ _ E), (msl_false_not_marker _ H2) in IH.
    simpl fst in IH. simpl snd in IH.
    destruct (with_tail_head_line _ _ _ _ _ IH) as (qs & Eq & Hall).
    rewrite (split_nl_other c t _ _ Hc E), groups_cons.
    rewrite (is_marker_class_run c _ _ (class_run_first_line _ _ _ E)).
    destruct (is_marker (c :: t)); cbn [map fst snd];
      rewrite (split_nl_other c _ _ _ Hc Eq).
    + change (split_nl []) with ([] ++ [[]] : list pystr).
      cbn [with_tail]. f_equal. apply Hall.
    + apply Hall.
Qed.

(** ** Clean lines *)

Lemma clean_lines_cons (l : pystr) (ls : list pystr) :
  clean_lines (l :: ls)
  = if truthy (strip l) then strip l :: clean_lines ls else clean_lines ls.
Proof. reflexivity. Qed.

Lemma clean_lines_app (a b : list pystr) :
  clean_lines (a ++ b) = clean_lines a ++ clean_lines b.
Proof. unfold clean_lines. rewrite map_app, filter_app. reflexivity. Qed.

Lemma clean_lines_idem (ls : list pystr) : clean_lines (clean_lines ls) = clean_lines ls.
Proof.
  induction ls as [|l ls IH]; [reflexivity|]. rewrite clean_lines_cons.
  destruct (truthy (strip l)) eqn:E; [|exact IH].
  rewrite clean_lines_cons, strip_idem, E, IH. reflexivity.
Qed.

Lemma clean_lines_with_tail (chunks : list (list pystr)) :
  map clean_lines (with_tail chunks) = map clean_lines chunks.
Proof.
  induction chunks as [|ch [|ch' rest] IH]; try reflexivity.
  change (with_tail (ch :: ch' :: rest)) with ((ch ++ [[]]) :: with_tail (ch' :: rest)).
  rewrite map_cons, IH, clean_lines_app.
  change (clean_lines [[]]) with (@nil pystr). rewrite app_nil_r. reflexivity.
Qed.

Lemma forallb_space_lines (s : pystr) :
  forallb isspace s = forallb (forallb isspace) (split_nl s).
Proof.
  induction s as [|c s IH]; [reflexivity|].
  destruct (N.eq_dec c NL) as [->|Hc].
  - rewrite split_nl_NL. simpl. exact IH.
  - destruct (split_nl_shape s) as (l & ls & E).
    rewrite (split_nl_other c s _ _ Hc E). rewrite E in IH. simpl in *.
    rewrite IH, andb_assoc. reflexivity.
Qed.

Lemma clean_lines_nil (ls : list pystr) :
  nonempty (clean_lines ls) = negb (forallb (forallb isspace) ls).
Proof.
  induction ls as [|l ls IH]; [reflexivity|]. rewrite clean_lines_cons. simpl forallb.
  destruct (truthy (strip l)) eqn:E.
  - apply truthy_true in E. destruct (forallb isspace l) eqn:F; [|reflexivity].
    apply strip_nil_iff in F. contradiction.
  - apply truthy_false, strip_nil_iff in E. rewrite E. exact IH.
Qed.

(** A piece is blank exactly when it has no non-empty trimmed line. *)
Lemma nonblank_trimmed_lines (p : pystr) :
  truthy (strip p) = nonempty (trimmed_lines p).
Proof.
  unfold trimmed_lines. fold (clean_lines (split_nl p)).
  rewrite clean_lines_nil, <- forallb_space_lines.
  destruct (forallb isspace p) eqn:F.
  - apply strip_nil_iff in F. rewrite F. reflexivity.
  - destruct (strip p) eqn:E; [|reflexivity].
    apply strip_nil_iff in E. congruence.
Qed.

Lemma map_filter_nonblank (pieces : list pystr) :
  map trimmed_lines (filter (fun art => truthy (strip art)) pieces)
  = filter nonempty (map trimmed_lines pieces).
Proof.
  induction pieces as [|p ps IH]; [reflexivity|]. simpl.
  rewrite nonblank_trimmed_lines. destruct (nonempty (trimmed_lines p)); simpl; rewrite IH;
    reflexivity.
Qed.

(** ** The state machine, group by group *)

Lemma fold_add_content_title (K : list pystr) :
  forall cur, title (fold_left add_content K cur) = title cur.
Proof. induction K as [|k K IH]; intros cur; simpl; [reflexivity|]. rewrite IH. reflexivity. Qed.

Lemma segment_groups (lines : list pystr) :
  forall arts cur,
    flush (fold_left pdf_step lines (arts, cur))
    = (if truthy (title cur)
       then arts ++ [fold_left add_content
                       (clean_lines (fst (groups (fun l => is_marker (strip l)) lines))) cur]
       else arts)
        ++ map unit_of_group (snd (groups (fun l => is_marker (strip l)) lines)).
Proof.
  induction lines as [|l lines IH]; intros arts cur.
  - simpl. rewrite app_nil_r. reflexivity.
  - cbn [fold_left]. rewrite groups_cons.
    destruct (truthy (strip l)) eqn:El.
    + destruct (is_marker (strip l)) eqn:Em.
      * rewrite pdf_step_marker by assumption. rewrite IH. cbn [title fst snd map].
        rewrite El. change (clean_lines []) with (@nil pystr). cbn [fold_left].
        unfold flush. rewrite <- app_assoc. reflexivity.
      * rewrite pdf_step_plain by assumption. cbn [fst snd].
        rewrite clean_lines_cons, El. cbn [fold_left].
        destruct (truthy (title cur)) eqn:Et; rewrite IH.
        -- change (title (add_content cur (strip l))) with (title cur). rewrite Et.
           reflexivity.
        -- rewrite Et. reflexivity.
    + rewrite pdf_step_blank by assumption.
      assert (Em : is_marker (strip l) = false).
      { apply truthy_false in El. rewrite El. reflexivity. }
      rewrite Em. cbn [fst snd]. rewrite clean_lines_cons, El. apply IH.
Qed.

Lemma segment_lines_groups (lines : list pystr) :
  segment_lines lines
  = map unit_of_group (snd (groups (fun l => is_marker (strip l)) lines)).
Proof. unfold segment_lines. rewrite segment_groups. reflexivity. Qed.

Lemma groups_ext (P Q : pystr -> bool) (ls : list pystr) :
  Forall (fun l => P l = Q l) ls -> groups P ls = groups Q ls.
Proof.
  induction 1 as [|l ls Hl Hls IH]; [reflexivity|].
  rewrite !groups_cons, Hl, IH. reflexivity.
Qed.

Lemma groups_heads (P : pystr -> bool) (ls : list pystr) :
  Forall (fun g => exists m rest, g = m :: rest /\ P m = true) (snd (groups P ls)).
Proof.
  induction ls as [|l ls IH]; [constructor|]. rewrite groups_cons.
  destruct (P l) eqn:E; [|exact IH]. constructor; [eauto|exact IH].
Qed.

Lemma groups_forall (Q : pystr -> Prop) (P : pystr -> bool) (ls : list pystr) :
  Forall Q ls ->
  Forall Q (fst (groups P ls)) /\ Forall (Forall Q) (snd (groups P ls)).
Proof.
  induction 1 as [|l ls Hl Hls [IH1 IH2]]; [split; constructor|].
  rewrite groups_cons. destruct (P l); cbn [fst snd]; split; auto.
Qed.

(** ** The text of a unit, line by line *)

Lemma join_nl_cons (k : pystr) (K : list pystr) :
  join_nl (k :: K) = match K with [] => k | _ :: _ => k ++ NL :: join_nl K end.
Proof. destruct K; reflexivity. Qed.

Lemma truthy_join_nl (k : pystr) (K : list pystr) :
  truthy k = true -> truthy (join_nl (k :: K)) = true.
Proof.
  intros H. rewrite join_nl_cons. destruct K; [exact H|].
  destruct k; [discriminate H|reflexivity].
Qed.

Lemma fold_add_content_content (K : list pystr) :
  Forall (fun k => truthy k = true) K ->
  forall cur,
    content (fold_left add_content K cur) = join_content (content cur) (join_nl K).
Proof.
  induction 1 as [|k K Hk HK IH]; intros cur.
  - simpl. rewrite join_content_nil_r. reflexivity.
  - cbn [fold_left]. rewrite IH. unfold add_content at 1. cbn [content].
    rewrite (join_nl_cons k K). unfold join_content.
    destruct K as [|k' K].
    + simpl. rewrite Hk. destruct (truthy (content cur)) eqn:Ec.
      * assert (truthy (content cur ++ NL :: k) = true) as ->
            by (destruct (content cur); reflexivity).
        reflexivity.
      * rewrite Hk. reflexivity.
    + inversion HK as [|? ? Hk' _]; subst.
      rewrite (truthy_join_nl k' K Hk').
      assert (truthy (k ++ NL :: join_nl (k' :: K)) = true) as ->
          by (destruct k; reflexivity).
      destruct (truthy (content cur)) eqn:Ec.
      * assert (truthy (content cur ++ NL :: k) = true) as ->
            by (destruct (content cur); reflexivity).
        rewrite <- app_assoc. reflexivity.
      * rewrite Hk. reflexivity.
Qed.

Lemma split_nl_app (a b : pystr) :
  no_NL a = true -> split_nl (a ++ NL :: b) = a :: split_nl b.
Proof.
  induction a as [|c a IH]; intros H; [reflexivity|].
  unfold no_NL in H. simpl in H. apply andb_true_iff in H. destruct H as [Hc Ha].
  apply negb_true_iff, N.eqb_neq in Hc.
  change ((c :: a) ++ NL :: b) with (c :: (a ++ NL :: b)).
  apply split_nl_other; [exact Hc|]. apply IH, Ha.
Qed.

Lemma split_nl_line (a : pystr) : no_NL a = true -> split_nl a = [a].
Proof.
  induction a as [|c a IH]; intros H; [reflexivity|].
  unfold no_NL in H. simpl in H. apply andb_true_iff in H. destruct H as [Hc Ha].
  apply negb_true_iff, N.eqb_neq in Hc.
  apply split_nl_other; [exact Hc|]. apply IH, Ha.
Qed.

Lemma split_nl_join_nl (k : pystr) (K : list pystr) :
  Forall (fun l => no_NL l = true) (k :: K) -> split_nl (join_nl (k :: K)) = k :: K.
Proof.
  revert k. induction K as [|k' K IH]; intros k H; inversion H as [|? ? Hk HK]; subst.
  - apply split_nl_line, Hk.
  - rewrite join_nl_cons, split_nl_app by assumption. rewrite IH by assumption. reflexivity.
Qed.

Lemma no_NL_strip (l : pystr) : no_NL l = true -> no_NL (strip l) = true.
Proof. intros H. unfold strip, no_NL. apply forallb_rstrip, forallb_lstrip, H. Qed.

Lemma clean_lines_props (ls : list pystr) :
  Forall (fun l => no_NL l = true) ls ->
  Forall (fun l => no_NL l = true) (clean_lines ls)
  /\ Forall (fun k => truthy k = true) (clean_lines ls).
Proof.
  induction 1 as [|l ls Hl Hls [IH1 IH2]]; [split; constructor|].
  rewrite clean_lines_cons. destruct (truthy (strip l)) eqn:E; [|split; assumption].
  split; constructor; auto using no_NL_strip.
Qed.

Lemma unit_lines (m : pystr) (rest : list pystr) :
  Forall (fun l => no_NL l = true) (m :: rest) -> truthy (strip m) = true ->
  trimmed_lines (full_text (unit_of_group (m :: rest))) = clean_lines (m :: rest).
Proof.
  intros H Hm. inversion H as [|? ? Hnm Hnr]; subst.
  destruct (clean_lines_props rest Hnr) as [Hn Ht].
  unfold full_text, unit_of_group.
  rewrite fold_add_content_title, fold_add_content_content by assumption.
  cbn [title content]. unfold join_content. cbn [truthy].
  unfold trimmed_lines. rewrite split_nl_app by (apply no_NL_strip, Hnm).
  fold (clean_lines (strip m :: split_nl (join_nl (clean_lines rest)))).
  rewrite clean_lines_cons, strip_idem, Hm, (clean_lines_cons m), Hm. f_equal.
  destruct (clean_lines rest) as [|k K] eqn:E; [reflexivity|].
  rewrite split_nl_join_nl by assumption. rewrite <- E. apply clean_lines_idem.
Qed.

(** ** Regex split against the state machine *)

Lemma filter_nonempty_groups (gs : list (list pystr)) :
  Forall (fun g => exists m rest, g = m :: rest /\ truthy (strip m) = true) gs ->
  filter nonempty (map clean_lines gs) = map clean_lines gs.
Proof.
  induction 1 as [|g gs (m & rest & -> & Hm) Hgs IH]; [reflexivity|].
  cbn [map filter]. rewrite clean_lines_cons, Hm. cbn [nonempty]. rewrite IH. reflexivity.
Qed.

Lemma is_marker_truthy (l : pystr) : is_marker l = true -> truthy l = true.
Proof. destruct l; [discriminate|reflexivity]. Qed.

(** The pieces of the regex split are the front matter, when it is not
    blank, and then one piece per unit of the state machine, each with the
    same non-empty trimmed lines as the text of the unit. *)
Lemma regex_split_pieces (t : pystr) :
  markers_start_lines true t = true ->
  map trimmed_lines (split_articles_by_regex t)
  = (if truthy (strip (front_matter t)) then [trimmed_lines (front_matter t)] else [])
      ++ map (fun u => trimmed_lines (full_text u)) (segment_lines (split_nl t)).
Proof.
  intros H.
  pose proof (msl_lines _ H) as Hlines.
  assert (Hext : groups (fun l => is_marker (strip l)) (split_nl t)
                 = groups is_marker (split_nl t)).
  { apply groups_ext. eapply Forall_impl; [|exact Hlines].
    intros l [Hm Hn]. apply is_marker_strip; assumption. }
  assert (Hno : Forall (fun l => no_NL l = true) (split_nl t)) by apply split_nl_no_NL.
  destruct (groups_forall (fun l => no_NL l = true) is_marker _ Hno) as [_ Hgn].
  pose proof (groups_heads is_marker (split_nl t)) as Hheads.
  pose proof (groups_forall
                (fun l => markers_start_lines true l = true /\ no_NL l = true)
                is_marker _ Hlines) as [_ Hgm].
  assert (Hgood : Forall (fun g => exists m rest,
                              g = m :: rest /\ truthy (strip m) = true
                              /\ Forall (fun l => no_NL l = true) g)
                         (snd (groups is_marker (split_nl t)))).
  { rewrite Forall_forall in *. intros g Hg.
    destruct (Hheads g Hg) as (m & rest & -> & Hm).
    exists m, rest. split; [reflexivity|]. split; [|apply Hgn, Hg].
    specialize (Hgm _ Hg). rewrite Forall_forall in Hgm.
    destruct (Hgm m (or_introl eq_refl)) as [Ha Hb].
    apply is_marker_truthy. rewrite is_marker_strip; assumption. }
  assert (Hpieces : map trimmed_lines (re_split_markers t)
                    = clean_lines (fst (groups is_marker (split_nl t)))
                        :: map clean_lines (snd (groups is_marker (split_nl t)))).
  { change trimmed_lines with (fun s => clean_lines (split_nl s)).
    rewrite <- (map_map split_nl clean_lines), (re_split_lines t true H).
    rewrite clean_lines_with_tail. reflexivity. }
  unfold split_articles_by_regex. rewrite map_filter_nonblank, Hpieces.
  destruct (re_split_markers_front t) as (ps & Ep). rewrite Ep in Hpieces.
  cbn [map] in Hpieces. injection Hpieces as Hfront _.
  rewrite nonblank_trimmed_lines, Hfront.
  rewrite segment_lines_groups, Hext, map_map.
  cbn [filter]. rewrite filter_nonempty_groups.
  - assert (Hunits : map (fun g => trimmed_lines (full_text (unit_of_group g)))
                         (snd (groups is_marker (split_nl t)))
                     = map clean_lines (snd (groups is_marker (split_nl t)))).
    { apply map_ext_in. intros g Hg. rewrite Forall_forall in Hgood.
      destruct (Hgood g Hg) as (m & rest & -> & Hm & Hn). apply unit_lines; assumption. }
    rewrite Hunits. destruct (nonempty _); reflexivity.
  - eapply Forall_impl; [|exact Hgood]. intros g (m & rest & Hg & Hm & _). eauto.
Qed.

(** A heading before the first article is a piece of the regex split and
    no unit of the state machine. *)
Lemma regex_split_keeps_front_matter : ~ split_matches_state_machine.
Proof.
  intros H. destruct (H (py "前言" ++ NL :: py "第一条 甲")) as [Hlen _].
  vm_compute in Hlen. discriminate Hlen.
Qed.

(** On the normalized form of any text, the pieces of the regex split and
    the units of [extract_articles_from_pdf] correspond in this way. *)
Lemma regex_split_of_normalized (s : pystr) :
  map trimmed_lines (split_articles_by_regex (_clean_pdf_text s))
  = (if truthy (strip (front_matter (_clean_pdf_text s)))
     then [trimmed_lines (front_matter (_clean_pdf_text s))] else [])
      ++ map (fun u => trimmed_lines (full_text u)) (extract_articles_from_pdf s).
Proof. apply regex_split_pieces, msl_clean_pdf_text. Qed.

(** C8, as amended.  On a text whose markers all start a line, as in every
    normalized text, the pieces of the regex split are the text before the
    first marker, unless it is blank, followed by one piece per unit of the
    state machine, in order, each with the same non-empty trimmed lines as
    the title and content of its unit.  When only blanks precede the first
    marker, the two segmentations have the same length and agree position
    by position. *)
Theorem regex_split_matches_units (t : pystr) :
  markers_start_lines true t = true ->
  map trimmed_lines (split_articles_by_regex t)
  = (if truthy (strip (front_matter t)) then [trimmed_lines (front_matter t)] else [])
      ++ map (fun u => trimmed_lines (full_text u)) (segment_lines (split_nl t))
  /\ (strip (front_matter t) = [] ->
      length (split_articles_by_regex t) = length (segment_lines (split_nl t))
      /\ map trimmed_lines (split_articles_by_regex t)
         = map (fun u => trimmed_lines (full_text u)) (segment_lines (split_nl t))).
Proof.
  intros H. pose proof (regex_split_pieces t H) as Hp. split; [exact Hp|].
  intros Hf. rewrite Hf in Hp. cbn [truthy app] in Hp. split; [|exact Hp].
  apply (f_equal (@length _)) in Hp. rewrite !length_map in Hp. exact Hp.
Qed.

Lemma regex_split_matches_units_witness :
  markers_start_lines true
    (py "第一条 总则内容。" ++ NL :: py "第二条　分则内容第一行。" ++ NL :: py "分则内容第二行。")
  = true
  /\ length (split_articles_by_regex
               (py "第一条 总则内容。" ++ NL :: py "第二条　分则内容第一行。"
                   ++ NL :: py "分则内容第二行。"))
     = length (segment_lines
                 (split_nl (py "第一条 总则内容。" ++ NL :: py "第二条　分则内容第一行。"
                               ++ NL :: py "分则内容第二行。"))).
Proof.
  assert (H : markers_start_lines true
                (py "第一条 总则内容。" ++ NL :: py "第二条　分则内容第一行。"
                    ++ NL :: py "分则内容第二行。") = true)
    by (vm_compute; reflexivity).
  split; [exact H|].
  apply (regex_split_matches_units _ H). vm_compute. reflexivity.
Defined.

(** ** Normalizing a second time *)

Lemma mab_cons (b : bool) (c : N) (s : pystr) :
  markers_after_breaks b (c :: s)
  = (if is_marker (c :: s) then b else true)
      && markers_after_breaks ((c =? NL) || (c =? CR)) s.
Proof. reflexivity. Qed.

Lemma msl_from_false (s : pystr) (b : bool) :
  markers_start_lines false s = true -> markers_start_lines b s = true.
Proof. destruct b; [apply msl_weaken|tauto]. Qed.

Lemma msl_mab (s : pystr) :
  forall b, markers_start_lines b s = true -> markers_after_breaks b s = true.
Proof.
  induction s as [|c s IH]; intros b H; [reflexivity|].
  rewrite msl_cons in H. rewrite mab_cons.
  apply andb_true_iff in H. destruct H as [H1 H2]. rewrite H1. simpl.
  destruct (c =? NL) eqn:E; simpl; [apply IH, H2|].
  destruct (c =? CR); [|apply IH, H2].
  apply IH. apply (msl_weaken _ _ H2).
Qed.

Lemma mab_replace_crlf (s : pystr) :
  forall b, markers_after_breaks b s = true ->
            markers_after_breaks b (replace_crlf s) = true.
Proof.
  induction s as [| c | c n s IH1 IH2] using pair_induction; intros b H; try exact H.
  assert (Hstep : markers_after_breaks b (c :: replace_crlf (n :: s)) = true).
  { rewrite mab_cons in *.
    rewrite (is_marker_class_run c _ _ (class_run_replace_crlf (n :: s))).
    apply andb_true_iff in H. destruct H as [H1 H2]. rewrite H1. apply IH2, H2. }
  destruct (N.eq_dec c CR) as [->|Hc].
  - rewrite replace_crlf_CR. destruct (n =? NL) eqn:En; [|exact Hstep].
    apply N.eqb_eq in En. subst n.
    rewrite mab_cons, is_marker_not_DI in H by discriminate.
    rewrite mab_cons, is_marker_not_DI in H by discriminate.
    rewrite mab_cons, is_marker_not_DI by discriminate.
    simpl in *. apply IH1, H.
  - rewrite replace_crlf_not_CR by assumption. exact Hstep.
Qed.

Lemma msl_replace_cr (s : pystr) :
  forall b, markers_after_breaks b s = true ->
            markers_start_lines b (replace_cr s) = true.
Proof.
  induction s as [|c s IH]; intros b H; [reflexivity|].
  rewrite mab_cons in H. apply andb_true_iff in H. destruct H as [H1 H2].
  change (replace_cr (c :: s)) with ((if c =? CR then NL else c) :: replace_cr s).
  rewrite msl_cons. destruct (c =? CR) eqn:Ec.
  - rewrite is_marker_not_DI by discriminate. simpl.
    apply IH. rewrite orb_true_r in H2. exact H2.
  - rewrite (is_marker_class_run c _ _ (class_run_replace_cr s)), H1.
    rewrite orb_false_r in H2. apply IH, H2.
Qed.

Section CollapseMore.

Variable x : N.
Hypothesis x_space : isspace x = true.

Lemma forallb_collapse (P : N -> bool) (s : pystr) :
  forall b, forallb P s = true -> forallb P (collapse_go x b s) = true.
Proof.
  induction s as [|c s IH]; intros b H; [reflexivity|].
  simpl in H. apply andb_true_iff in H. destruct H as [Hc Hs].
  destruct (N.eq_dec c x) as [->|Hx].
  - rewrite collapse_go_same. destruct b; [apply IH, Hs|].
    simpl. rewrite Hc. apply IH, Hs.
  - rewrite collapse_go_other by assumption. simpl. rewrite Hc. apply IH, Hs.
Qed.

Lemma no_run_collapse (s : pystr) :
  forall b, no_run x b (collapse_go x b s) = true.
Proof.
  induction s as [|c s IH]; intros b; [reflexivity|].
  destruct (N.eq_dec c x) as [->|Hx].
  - rewrite collapse_go_same. destruct b; [apply IH|].
    simpl. rewrite N.eqb_refl. apply IH.
  - rewrite collapse_go_other by assumption. simpl.
    apply N.eqb_neq in Hx. rewrite Hx. apply IH.
Qed.

Lemma collapse_fixed (s : pystr) :
  forall b, no_run x b s = true -> collapse_go x b s = s.
Proof.
  induction s as [|c s IH]; intros b H; [reflexivity|].
  simpl in H. destruct (N.eq_dec c x) as [->|Hx].
  - rewrite N.eqb_refl in H. apply andb_true_iff in H. destruct H as [Hb Hs].
    apply negb_true_iff in Hb. subst b. rewrite collapse_go_same, (IH _ Hs). reflexivity.
  - rewrite collapse_go_other by assumption. apply N.eqb_neq in Hx. rewrite Hx in H.
    rewrite (IH _ H). reflexivity.
Qed.

Lemma no_run_from_true (s : pystr) :
  no_run x true s = true -> no_run x false s = true.
Proof.
  destruct s as [|c s]; [reflexivity|]. simpl. destruct (c =? x); [discriminate|tauto].
Qed.

Lemma no_run_cons (b : bool) (c : N) (s : pystr) :
  no_run x b (c :: s) = if c =? x then negb b && no_run x true s else no_run x false s.
Proof. reflexivity. Qed.

Lemma no_run_insert_newlines (s : pystr) :
  x <> NL ->
  forall b, no_run x b s = true -> no_run x b (insert_newlines s) = true.
Proof.
  intros Hnl. assert (Hdi : DI <> x) by (apply isspace_cases in x_space; intuition).
  apply N.eqb_neq in Hdi.
  assert (Hnl' : (NL =? x) = false) by (apply N.eqb_neq; congruence).
  induction s as [|c s IH]; intros b H; [reflexivity|].
  rewrite no_run_cons in H.
  rewrite insert_newlines_cons. destruct (is_marker (c :: s)) eqn:Em.
  - assert (c = DI) as ->.
    { destruct (N.eq_dec c DI) as [E|E]; [exact E|].
      rewrite is_marker_not_DI in Em by assumption. discriminate Em. }
    rewrite Hdi in H. rewrite !no_run_cons, Hnl', Hdi. apply IH, H.
  - rewrite no_run_cons. destruct (c =? x).
    + apply andb_true_iff in H. destruct H as [-> H]. apply IH, H.
    + apply IH, H.
Qed.

Lemma no_run_lstrip (s : pystr) :
  forall b b', no_run x b s = true -> no_run x b' (lstrip s) = true.
Proof.
  induction s as [|c s IH]; intros b b' H; [reflexivity|].
  simpl lstrip. destruct (isspace c) eqn:Ec.
  - simpl in H. destruct (c =? x).
    + apply andb_true_iff in H. destruct H as [_ H]. apply (IH _ _ H).
    + apply (IH _ _ H).
  - simpl in *. destruct (c =? x) eqn:Ex; [|exact H].
    apply N.eqb_eq in Ex. subst c. congruence.
Qed.

Lemma no_run_rstrip (s : pystr) :
  forall b, no_run x b s = true -> no_run x b (rstrip s) = true.
Proof.
  induction s as [|c s IH]; intros b H; [reflexivity|].
  destruct (rstrip_cons_cases c s) as [(-> & _)| ->]; [reflexivity|].
  simpl in *. destruct (c =? x).
  - apply andb_true_iff in H. destruct H as [-> H]. apply IH, H.
  - apply IH, H.
Qed.

End CollapseMore.

Lemma msl_collapse_SP (s : pystr) :
  forall b f, markers_start_lines b s = true ->
              markers_start_lines b (collapse_go SP f s) = true.
Proof.
  induction s as [|c s IH]; intros b f H; [reflexivity|].
  rewrite msl_cons in H. apply andb_true_iff in H. destruct H as [H1 H2].
  destruct (N.eq_dec c SP) as [->|Hc].
  - rewrite collapse_go_same. change (SP =? NL) with false in H2.
    destruct f; [apply msl_from_false, IH, H2|].
    rewrite msl_cons, is_marker_not_DI by discriminate. apply IH, H2.
  - rewrite collapse_go_other by assumption. rewrite msl_cons.
    rewrite (is_marker_class_run c _ _ (class_run_collapse SP eq_refl s)), H1.
    apply IH, H2.
Qed.

Lemma msl_collapse_NL (s : pystr) :
  forall b f, markers_start_lines b s = true -> (f = true -> b = true) ->
              markers_start_lines b (collapse_go NL f s) = true.
Proof.
  induction s as [|c s IH]; intros b f H Hf; [reflexivity|].
  rewrite msl_cons in H. apply andb_true_iff in H. destruct H as [H1 H2].
  destruct (N.eq_dec c NL) as [->|Hc].
  - rewrite collapse_go_same. change (NL =? NL) with true in H2.
    destruct f.
    + rewrite (Hf eq_refl). apply IH; [exact H2|reflexivity].
    + rewrite msl_cons, is_marker_not_DI by discriminate. apply IH; [exact H2|reflexivity].
  - rewrite collapse_go_other by assumption. rewrite msl_cons.
    rewrite (is_marker_class_run c _ _ (class_run_collapse NL eq_refl s)), H1.
    apply IH; [exact H2|discriminate].
Qed.

Lemma no_run_SP_collapse_NL (s : pystr) :
  forall p f, no_run SP p s = true -> (f = true -> p = false) ->
              no_run SP p (collapse_go NL f s) = true.
Proof.
  induction s as [|c s IH]; intros p f H Hf; [reflexivity|].
  destruct (N.eq_dec c NL) as [->|Hc].
  - rewrite collapse_go_same. simpl in H. destruct f.
    + rewrite (Hf eq_refl). apply IH; [exact H|reflexivity].
    + simpl. apply IH; [exact H|reflexivity].
  - rewrite collapse_go_other by assumption. simpl in *. destruct (c =? SP).
    + apply andb_true_iff in H. destruct H as [-> H]. apply IH; [exact H|discriminate].
    + apply IH; [exact H|discriminate].
Qed.

Lemma no_CR_replace_cr (s : pystr) : no_CR (replace_cr s) = true.
Proof.
  induction s as [|c s IH]; [reflexivity|]. unfold no_CR, replace_cr in *. simpl.
  rewrite IH. destruct (c =? CR) eqn:E; [reflexivity|]. rewrite E. reflexivity.
Qed.

Lemma replace_crlf_fixed (s : pystr) : no_CR s = true -> replace_crlf s = s.
Proof.
  induction s as [|c s IH]; intros H; [reflexivity|].
  unfold no_CR in H. simpl in H. apply andb_true_iff in H. destruct H as [Hc Hs].
  rewrite replace_crlf_not_CR by (apply N.eqb_neq, negb_true_iff, Hc).
  rewrite (IH Hs). reflexivity.
Qed.

Lemma replace_cr_fixed (s : pystr) : no_CR s = true -> replace_cr s = s.
Proof.
  induction s as [|c s IH]; intros H; [reflexivity|].
  unfold no_CR in H. simpl in H. apply andb_true_iff in H. destruct H as [Hc Hs].
  unfold replace_cr in *. simpl. apply negb_true_iff in Hc. rewrite Hc, (IH Hs). reflexivity.
Qed.

Lemma forallb_insert_newlines (P : N -> bool) (s : pystr) :
  P NL = true -> forallb P s = true -> forallb P (insert_newlines s) = true.
Proof.
  intros Hn. induction s as [|c s IH]; intros H; [reflexivity|].
  simpl in H. apply andb_true_iff in H. destruct H as [Hc Hs].
  rewrite insert_newlines_cons. destruct (is_marker (c :: s)); simpl;
    rewrite ?Hn, Hc, (IH Hs); reflexivity.
Qed.

(** What the first four steps establish. *)
Lemma unify_and_collapse_props (s : pystr) :
  no_CR (unify_and_collapse s) = true
  /\ no_run SP false (unify_and_collapse s) = true
  /\ no_run NL false (unify_and_collapse s) = true.
Proof.
  unfold unify_and_collapse, collapse. repeat split.
  - unfold no_CR. apply forallb_collapse, forallb_collapse, no_CR_replace_cr.
  - apply no_run_SP_collapse_NL; [apply no_run_collapse|discriminate].
  - apply no_run_collapse.
Qed.

Lemma msl_unify_and_collapse (s : pystr) :
  markers_after_breaks true s = true ->
  markers_start_lines true (unify_and_collapse s) = true.
Proof.
  intros H. unfold unify_and_collapse, collapse.
  apply msl_collapse_NL; [|discriminate].
  apply msl_collapse_SP, msl_replace_cr, mab_replace_crlf, H.
Qed.

Lemma collapse_NL_insert_newlines (z : pystr) :
  forall p,
    markers_start_lines p z = true -> no_run NL p z = true ->
    collapse_go NL p (insert_newlines z) = z.
Proof.
  induction z as [|c z IH]; intros p H Hr; [reflexivity|].
  rewrite msl_cons in H. apply andb_true_iff in H. destruct H as [H1 H2].
  rewrite (no_run_cons NL) in Hr.
  rewrite insert_newlines_cons. destruct (is_marker (c :: z)) eqn:Em.
  - subst p.
    assert (Hc : c <> NL).
    { intros ->. rewrite is_marker_not_DI in Em by discriminate. discriminate Em. }
    rewrite collapse_go_same, collapse_go_other by assumption.
    apply N.eqb_neq in Hc. rewrite Hc in *. rewrite (IH _ H2 Hr). reflexivity.
  - destruct (N.eq_dec c NL) as [->|Hc].
    + change (NL =? NL) with true in *.
      apply andb_true_iff in Hr. destruct Hr as [Hp Hr]. apply negb_true_iff in Hp. subst p.
      rewrite collapse_go_same, (IH _ H2 Hr). reflexivity.
    + rewrite collapse_go_other by assumption.
      apply N.eqb_neq in Hc. rewrite Hc in *. rewrite (IH _ H2 Hr). reflexivity.
Qed.

Lemma strip_collapse_NL_insert_newlines (z : pystr) :
  markers_start_lines true z = true -> no_run NL false z = true ->
  strip (collapse NL (insert_newlines z)) = strip z.
Proof.
  intros H Hr. unfold collapse. destruct z as [|c z]; [reflexivity|].
  pose proof H as H'. rewrite msl_cons in H'. apply andb_true_iff in H'.
  destruct H' as [_ H2].
  pose proof Hr as Hr'. rewrite (no_run_cons NL) in Hr'.
  destruct (is_marker (c :: z)) eqn:Em.
  - rewrite insert_newlines_cons, Em.
    assert (Hc : c <> NL).
    { intros ->. rewrite is_marker_not_DI in Em by discriminate. discriminate Em. }
    rewrite collapse_go_same, collapse_go_other by assumption.
    apply N.eqb_neq in Hc. rewrite Hc in *. rewrite (collapse_NL_insert_newlines _ _ H2 Hr').
    reflexivity.
  - rewrite collapse_NL_insert_newlines; [reflexivity| |exact Hr].
    rewrite msl_cons, Em. rewrite andb_true_l. exact H2.
Qed.

Lemma lstrip_collapse_NL (y : pystr) :
  forall b, lstrip (collapse_go NL b y) = collapse NL (lstrip y).
Proof.
  unfold collapse. induction y as [|c y IH]; intros b; [reflexivity|].
  destruct (N.eq_dec c NL) as [->|Hc].
  - rewrite collapse_go_same. simpl lstrip at 2. destruct b; [apply IH|].
    simpl lstrip. apply IH.
  - rewrite collapse_go_other by assumption. simpl lstrip.
    destruct (isspace c); [apply IH|]. rewrite collapse_go_other by assumption. reflexivity.
Qed.

Lemma collapse_nil (x : N) (u : pystr) :
  forall f, collapse_go x f u = [] -> forallb (N.eqb x) u = true.
Proof.
  induction u as [|c u IH]; intros f H; [reflexivity|].
  destruct (N.eq_dec c x) as [->|Hc].
  - rewrite collapse_go_same in H. destruct f; [|discriminate H].
    simpl. rewrite N.eqb_refl. apply (IH _ H).
  - rewrite collapse_go_other in H by assumption. discriminate H.
Qed.

Lemma collapse_rstrip_nil (w : pystr) (f : bool) :
  collapse_go NL f (rstrip w) = [] -> rstrip w = [].
Proof.
  intros H. apply collapse_nil in H.
  rewrite <- rstrip_idem. apply rstrip_nil_iff.
  rewrite forallb_forall in *. intros c Hc. specialize (H c Hc).
  apply N.eqb_eq in H. subst c. reflexivity.
Qed.

Lemma rstrip_cons_eq (c : N) (s : pystr) :
  rstrip (c :: s)
  = match rstrip s with [] => if isspace c then [] else [c] | _ :: _ => c :: rstrip s end.
Proof. simpl. destruct (rstrip s); reflexivity. Qed.

Lemma rstrip_collapse_NL (y : pystr) :
  forall b, rstrip (collapse_go NL b y) = collapse_go NL b (rstrip y).
Proof.
  induction y as [|c y IH]; intros b; [reflexivity|].
  destruct (N.eq_dec c NL) as [->|Hc].
  - rewrite collapse_go_same. destruct b.
    + rewrite IH. rewrite (rstrip_cons_eq NL y).
      destruct (rstrip y) eqn:E; [reflexivity|]. rewrite collapse_go_same. reflexivity.
    + rewrite rstrip_cons_eq, IH. rewrite (rstrip_cons_eq NL y).
      destruct (collapse_go NL true (rstrip y)) eqn:Ec.
      * rewrite (collapse_rstrip_nil _ _ Ec). reflexivity.
      * destruct (rstrip y) eqn:E; [discriminate Ec|].
        rewrite collapse_go_same, Ec. reflexivity.
  - rewrite collapse_go_other by assumption.
    rewrite rstrip_cons_eq, IH. rewrite (rstrip_cons_eq c y).
    destruct (collapse_go NL false (rstrip y)) eqn:Ec.
    + rewrite (collapse_rstrip_nil _ _ Ec).
      destruct (isspace c); [reflexivity|].
      rewrite collapse_go_other by assumption. reflexivity.
    + destruct (rstrip y) eqn:E; [discriminate Ec|].
      rewrite collapse_go_other, Ec by assumption. reflexivity.
Qed.

Lemma strip_collapse_NL (y : pystr) : strip (collapse NL y) = collapse NL (strip y).
Proof.
  unfold strip, collapse. rewrite (lstrip_collapse_NL y false). unfold collapse.
  apply rstrip_collapse_NL.
Qed.

Lemma lstrip_insert_newlines (z : pystr) :
  lstrip (insert_newlines (lstrip z)) = lstrip (insert_newlines z).
Proof.
  induction z as [|c z IH]; [reflexivity|].
  simpl lstrip at 2. destruct (isspace c) eqn:Ec; [|reflexivity].
  rewrite insert_newlines_cons, is_marker_space by assumption.
  simpl lstrip. rewrite Ec. exact IH.
Qed.

Lemma rstrip_cons_congr (c : N) (a b : pystr) :
  rstrip a = rstrip b -> rstrip (c :: a) = rstrip (c :: b).
Proof. intros H. rewrite !rstrip_cons_eq, H. reflexivity. Qed.

Lemma insert_newlines_all_space (z : pystr) :
  forallb isspace z = true -> insert_newlines z = z.
Proof.
  induction z as [|c z IH]; intros H; [reflexivity|].
  simpl in H. apply andb_true_iff in H. destruct H as [Hc Hz].
  rewrite insert_newlines_cons, is_marker_space, (IH Hz) by assumption. reflexivity.
Qed.

Lemma rstrip_insert_newlines (z : pystr) :
  rstrip (insert_newlines (rstrip z)) = rstrip (insert_newlines z).
Proof.
  induction z as [|c z IH]; [reflexivity|].
  destruct (rstrip_cons_cases c z) as [(E & Ez & Ec)| E]; rewrite E.
  - apply rstrip_nil_iff in Ez.
    rewrite (insert_newlines_all_space (c :: z)) by (simpl; rewrite Ec, Ez; reflexivity).
    symmetry. apply rstrip_nil_iff. simpl. rewrite Ec, Ez. reflexivity.
  - rewrite !insert_newlines_cons.
    rewrite (is_marker_class_run c _ _ (class_run_rstrip z)).
    destruct (is_marker (c :: z)).
    + apply rstrip_cons_congr, rstrip_cons_congr, IH.
    + apply rstrip_cons_congr, IH.
Qed.

Lemma strip_insert_newlines (z : pystr) :
  strip (insert_newlines (strip z)) = strip (insert_newlines z).
Proof.
  unfold strip.
  rewrite <- (lstrip_rstrip (insert_newlines (rstrip (lstrip z)))).
  rewrite rstrip_insert_newlines, lstrip_rstrip. rewrite lstrip_insert_newlines. reflexivity.
Qed.

(** A text that the first four steps leave alone and whose markers start
    lines is normalized to a text that normalization leaves alone. *)
Lemma clean_pdf_text_stable (z : pystr) :
  no_CR z = true -> no_run SP false z = true -> no_run NL false z = true ->
  markers_start_lines true z = true ->
  _clean_pdf_text (strip (insert_newlines z)) = strip (insert_newlines z).
Proof.
  intros Hcr Hsp Hnl Hm.
  rewrite clean_pdf_text_unfold at 1. unfold unify_and_collapse.
  assert (H1 : no_CR (strip (insert_newlines z)) = true).
  { unfold no_CR, strip. apply forallb_rstrip, forallb_lstrip.
    apply forallb_insert_newlines; [reflexivity|exact Hcr]. }
  rewrite (replace_crlf_fixed _ H1), (replace_cr_fixed _ H1).
  assert (H2 : no_run SP false (strip (insert_newlines z)) = true).
  { unfold strip. apply (no_run_rstrip SP), (no_run_lstrip SP eq_refl _ false false).
    apply (no_run_insert_newlines SP eq_refl); [discriminate|exact Hsp]. }
  unfold collapse at 2. rewrite (collapse_fixed SP _ _ H2).
  rewrite <- strip_collapse_NL, (strip_collapse_NL_insert_newlines _ Hm Hnl).
  apply strip_insert_newlines.
Qed.

Lemma clean_pdf_text_twice (s : pystr) :
  markers_after_breaks true s = true ->
  _clean_pdf_text (_clean_pdf_text s) = _clean_pdf_text s.
Proof.
  intros H. rewrite (clean_pdf_text_unfold s).
  destruct (unify_and_collapse_props s) as (Hcr & Hsp & Hnl).
  apply clean_pdf_text_stable; try assumption.
  apply msl_unify_and_collapse, H.
Qed.

(** A marker in the middle of a line gets one newline from the first pass
    and a second one from the next. *)
Lemma normalization_not_idempotent : ~ normalization_idempotent.
Proof.
  intros H. specialize (H (py "甲第一条")). vm_compute in H. discriminate H.
Qed.

(** C5, as amended.  Normalization leaves its own output unchanged for
    every text in which each marker stands at the start of the text or
    right after a line break; for any text at all, it leaves unchanged what
    two passes have produced. *)
Theorem normalization_idempotent_on_line_markers (s : pystr) :
  (markers_after_breaks true s = true ->
   _clean_pdf_text (_clean_pdf_text s) = _clean_pdf_text s)
  /\ _clean_pdf_text (_clean_pdf_text (_clean_pdf_text s)) = _clean_pdf_text (_clean_pdf_text s).
Proof.
  split; [apply clean_pdf_text_twice|].
  apply clean_pdf_text_twice, msl_mab, msl_clean_pdf_text.
Qed.

Lemma normalization_idempotent_witness :
  markers_after_breaks true (py "总则" ++ CR :: NL :: py "第一条  甲" ++ NL :: NL :: py "第二条 乙")
  = true
  /\ _clean_pdf_text
       (_clean_pdf_text (py "总则" ++ CR :: NL :: py "第一条  甲" ++ NL :: NL :: py "第二条 乙"))
     = _clean_pdf_text (py "总则" ++ CR :: NL :: py "第一条  甲" ++ NL :: NL :: py "第二条 乙").
Proof.
  assert (H : markers_after_breaks true
                (py "总则" ++ CR :: NL :: py "第一条  甲" ++ NL :: NL :: py "第二条 乙") = true)
    by (vm_compute; reflexivity).
  split; [exact H|].
  exact (proj1 (normalization_idempotent_on_line_markers _) H).
Defined.

(** ** The statistics pass where it does not fail *)

Lemma py_len_measurable (v : json) :
  measurable v = true -> py_len v = Returned (length_of v).
Proof. destruct v; simpl; try discriminate; reflexivity. Qed.

Lemma info_loop_stats (items : list json) :
  Forall (fun item => sample_ready item = true) items ->
  forall (i : nat) (st : stats),
    for_enumerate info_step i items st
    = Returned
        {| total_articles := total_articles st;
           valid_articles := valid_articles st + length (filter is_valid items);
           articles_with_content :=
             articles_with_content st + length (filter (valid_with (py "content")) items);
           articles_with_summary :=
             articles_with_summary st + length (filter (valid_with (py "summary")) items);
           articles_with_keywords :=
             articles_with_keywords st + length (filter (valid_with (py "keywords")) items);
           sample_articles :=
             sample_articles st
               ++ firstn (5 - length (sample_articles st)) (valid_samples i items);
           error_articles := error_articles st ++ error_entries i items |}.
Proof.
  induction 1 as [|item items Hitem Hitems IH]; intros i st.
  - simpl. rewrite !Nat.add_0_r, firstn_nil, !app_nil_r. destruct st; reflexivity.
  - cbn [for_enumerate].
    destruct item as [| | | | |l|kv];
      try (cbn [info_step bind]; rewrite IH; reflexivity).
    cbn [info_step]. cbn [sample_ready] in Hitem.
    cbn [filter is_valid valid_with valid_samples error_entries].
    destruct (dict_has kv (py "error")) eqn:Eerr; cbn [negb andb orb] in *.
    + cbn [bind]. rewrite IH. cbn [total_articles valid_articles articles_with_content
        articles_with_summary articles_with_keywords sample_articles error_articles].
      rewrite <- app_assoc. reflexivity.
    + apply andb_true_iff in Hitem. destruct Hitem as [Hc Hk].
      cbn [sample_articles].
      destruct (length (sample_articles st) <? 5)%nat eqn:Elen.
      * unfold make_sample.
        rewrite (py_len_measurable _ Hc), (py_len_measurable _ Hk). cbn [bind].
        rewrite IH. cbn [total_articles valid_articles articles_with_content
          articles_with_summary articles_with_keywords sample_articles error_articles].
        apply Nat.ltb_lt in Elen.
        rewrite length_app. cbn [length].
        replace (5 - length (sample_articles st))%nat
          with (S (5 - (length (sample_articles st) + 1)))%nat by lia.
        cbn [firstn]. fold (sample_of i kv). rewrite <- app_assoc. cbn [app].
        unfold bump.
        destruct (truthy_field kv (py "content")), (truthy_field kv (py "summary")),
          (truthy_field kv (py "keywords")); cbn [length]; f_equal; f_equal; lia.
      * cbn [bind]. rewrite IH. cbn [total_articles valid_articles articles_with_content
          articles_with_summary articles_with_keywords sample_articles error_articles].
        apply Nat.ltb_ge in Elen.
        replace (5 - length (sample_articles st))%nat with 0%nat by lia.
        cbn [firstn]. unfold bump.
        destruct (truthy_field kv (py "content")), (truthy_field kv (py "summary")),
          (truthy_field kv (py "keywords")); cbn [length]; f_equal; f_equal; lia.
Qed.

(** Where the measured fields of the valid records have a length, the
    report gives the length of the list, the number of valid records, the
    numbers of valid records with a non-empty content, summary and
    keywords, the first five samples and the error records. *)
Lemma stats_of_measurable_records (items : list json) :
  Forall (fun item => sample_ready item = true) items ->
  extract_articles_info (JList items)
  = Stats
      {| total_articles := length items;
         valid_articles := length (filter is_valid items);
         articles_with_content := length (filter (valid_with (py "content")) items);
         articles_with_summary := length (filter (valid_with (py "summary")) items);
         articles_with_keywords := length (filter (valid_with (py "keywords")) items);
         sample_articles := firstn 5 (valid_samples 0 items);
         error_articles := error_entries 0 items |}.
Proof.
  intros H. unfold extract_articles_info, info_try.
  rewrite (info_loop_stats items H). reflexivity.
Qed.

(** ** The marker pattern as a regular expression *)

Lemma span_class_run (ds rest : pystr) :
  forallb in_class ds = true -> span_class (ds ++ TIAO :: rest) = (ds, TIAO :: rest).
Proof.
  induction ds as [|d ds IH]; intros H.
  - reflexivity.
  - simpl in H. apply andb_true_iff in H. destruct H as [Hd Hds].
    simpl. rewrite Hd, (IH Hds). reflexivity.
Qed.

(** Any way to read a text as the opening character, a non-empty run of
    class characters and the closing character is the one the matcher
    finds. *)
Lemma match_marker_complete (ds rest : pystr) :
  ds <> [] -> forallb in_class ds = true ->
  match_marker (DI :: ds ++ TIAO :: rest) = Some (DI :: ds ++ [TIAO], rest).
Proof.
  intros Hne Hds. unfold match_marker. rewrite N.eqb_refl, (span_class_run ds rest Hds).
  destruct ds as [|d ds]; [contradiction|]. rewrite N.eqb_refl. reflexivity.
Qed.

(** ** The steps of the paragraph-oriented segmenter *)

Lemma docx_step_marker_line (articles : list article) (cur : article) (p tok rest : pystr) :
  match_marker (strip p) = Some (tok, rest) ->
  docx_step (articles, cur) p
  = (flush (articles, cur), {| title := tok; content := strip (dot_star (lstrip rest)) |}).
Proof.
  intros H. unfold docx_step, flush, match_title_content, is_marker. rewrite H.
  assert (truthy (strip p) = true) as ->; [|reflexivity].
  destruct (strip p); [discriminate H|reflexivity].
Qed.

Lemma docx_step_plain_line (articles : list article) (cur : article) (p : pystr) :
  truthy (strip p) = true -> is_marker (strip p) = false -> truthy (title cur) = true ->
  docx_step (articles, cur) p
  = (articles,
     {| title := title cur;
        content := if truthy (content cur) then content cur ++ NL :: strip p else strip p |}).
Proof. intros H1 H2 H3. unfold docx_step. rewrite H1, H2, H3. reflexivity. Qed.

(* ================================================================== *)
(** * Part III: further properties of the code *)
(* ================================================================== *)

(** ** What normalization does to a text *)

Lemma nonspace_cons (c : N) (s : pystr) :
  nonspace (c :: s) = if isspace c then nonspace s else c :: nonspace s.
Proof. unfold nonspace. simpl. destruct (isspace c); reflexivity. Qed.

Lemma nonspace_nil_iff (s : pystr) : nonspace s = [] <-> forallb isspace s = true.
Proof.
  induction s as [|c s IH]; [simpl; tauto|].
  rewrite nonspace_cons. simpl. destruct (isspace c); simpl; [exact IH|].
  split; discriminate.
Qed.

Lemma nonspace_replace_crlf (s : pystr) : nonspace (replace_crlf s) = nonspace s.
Proof.
  induction s as [| c | c n s IH1 IH2] using pair_induction; try reflexivity.
  destruct (N.eq_dec c CR) as [->|Hc].
  - rewrite replace_crlf_CR. destruct (n =? NL) eqn:En.
    + apply N.eqb_eq in En. subst n. rewrite !nonspace_cons.
      change (isspace NL) with true. change (isspace CR) with true. exact IH1.
    + rewrite !(nonspace_cons CR). change (isspace CR) with true. cbv iota. exact IH2.
  - rewrite replace_crlf_not_CR by assumption. rewrite !(nonspace_cons c), IH2. reflexivity.
Qed.

Lemma nonspace_replace_cr (s : pystr) : nonspace (replace_cr s) = nonspace s.
Proof.
  induction s as [|c s IH]; [reflexivity|].
  change (replace_cr (c :: s)) with ((if c =? CR then NL else c) :: replace_cr s).
  destruct (c =? CR) eqn:Ec.
  - apply N.eqb_eq in Ec. subst c. rewrite !nonspace_cons.
    change (isspace NL) with true. change (isspace CR) with true. exact IH.
  - rewrite !(nonspace_cons c), IH. reflexivity.
Qed.

Lemma nonspace_collapse (x : N) (s : pystr) :
  isspace x = true -> forall b, nonspace (collapse_go x b s) = nonspace s.
Proof.
  intros Hx. induction s as [|c s IH]; intros b; [reflexivity|].
  destruct (N.eq_dec c x) as [->|Hc].
  - rewrite collapse_go_same. destruct b; rewrite !nonspace_cons, Hx; apply IH.
  - rewrite collapse_go_other by assumption. rewrite !(nonspace_cons c), IH. reflexivity.
Qed.

Lemma nonspace_insert_newlines (s : pystr) : nonspace (insert_newlines s) = nonspace s.
Proof.
  induction s as [|c s IH]; [reflexivity|].
  rewrite insert_newlines_cons. destruct (is_marker (c :: s)).
  - rewrite (nonspace_cons NL). change (isspace NL) with true. cbv iota.
    rewrite !(nonspace_cons c), IH. reflexivity.
  - rewrite !(nonspace_cons c), IH. reflexivity.
Qed.

Lemma nonspace_lstrip (s : pystr) : nonspace (lstrip s) = nonspace s.
Proof.
  induction s as [|c s IH]; [reflexivity|]. simpl lstrip.
  destruct (isspace c) eqn:Ec; [|reflexivity]. rewrite nonspace_cons, Ec. exact IH.
Qed.

Lemma nonspace_rstrip (s : pystr) : nonspace (rstrip s) = nonspace s.
Proof.
  induction s as [|c s IH]; [reflexivity|].
  destruct (rstrip_cons_cases c s) as [(-> & Hs & Hc)| ->].
  - rewrite nonspace_cons, Hc, <- IH, Hs. reflexivity.
  - rewrite !(nonspace_cons c), IH. reflexivity.
Qed.

Lemma nonspace_strip (s : pystr) : nonspace (strip s) = nonspace s.
Proof. unfold strip. rewrite nonspace_rstrip. apply nonspace_lstrip. Qed.

Lemma nonspace_clean (s : pystr) : nonspace (_clean_pdf_text s) = nonspace s.
Proof.
  rewrite clean_pdf_text_unfold, nonspace_strip, nonspace_insert_newlines.
  unfold unify_and_collapse, collapse.
  rewrite (nonspace_collapse NL _ eq_refl), (nonspace_collapse SP _ eq_refl).
  rewrite nonspace_replace_cr. apply nonspace_replace_crlf.
Qed.

(** X1. Normalization changes whitespace only: the characters of the
    text that are not whitespace come out the same and in the same
    order. *)
Theorem normalization_keeps_characters (s : pystr) :
  nonspace (_clean_pdf_text s) = nonspace s.
Proof. apply nonspace_clean. Qed.

(** X2. Normalization returns the empty string exactly for a text that is
    empty or consists of whitespace only. *)
Theorem normalization_empty_iff_blank (s : pystr) :
  _clean_pdf_text s = [] <-> forallb isspace s = true.
Proof.
  rewrite <- nonspace_nil_iff, <- (nonspace_clean s), nonspace_nil_iff.
  rewrite clean_pdf_text_unfold. split.
  - intros H. rewrite H. reflexivity.
  - intros H. apply strip_nil_iff. rewrite <- nonspace_nil_iff in *.
    rewrite nonspace_strip in H. exact H.
Qed.

Lemma no_CR_clean (s : pystr) : no_CR (_clean_pdf_text s) = true.
Proof.
  rewrite clean_pdf_text_unfold. destruct (unify_and_collapse_props s) as (Hcr & _ & _).
  unfold no_CR, strip. apply forallb_rstrip, forallb_lstrip.
  apply forallb_insert_newlines; [reflexivity|exact Hcr].
Qed.

Lemma no_run_SP_clean (s : pystr) : no_run SP false (_clean_pdf_text s) = true.
Proof.
  rewrite clean_pdf_text_unfold. destruct (unify_and_collapse_props s) as (_ & Hsp & _).
  unfold strip. apply (no_run_rstrip SP), (no_run_lstrip SP eq_refl _ false false).
  apply (no_run_insert_newlines SP eq_refl); [discriminate|exact Hsp].
Qed.

(** X3. A normalized text has no carriage return and no two adjacent
    spaces, neither starts nor ends with whitespace, and has every marker
    at the start of a line. *)
Theorem normalized_text_shape (s : pystr) :
  no_CR (_clean_pdf_text s) = true
  /\ no_run SP false (_clean_pdf_text s) = true
  /\ strip (_clean_pdf_text s) = _clean_pdf_text s
  /\ markers_start_lines true (_clean_pdf_text s) = true.
Proof.
  split; [apply no_CR_clean|]. split; [apply no_run_SP_clean|].
  split; [|apply msl_clean_pdf_text].
  rewrite clean_pdf_text_unfold. apply strip_idem.
Qed.

(** ** The marker pattern *)

(** X4. A text matches the marker pattern exactly when it begins with the
    opening character, one or more numerals or digits, and the closing
    character; the token is that prefix and the rest is what follows it. *)
Theorem marker_match_iff (s tok rest : pystr) :
  match_marker s = Some (tok, rest)
  <-> exists ds, ds <> [] /\ forallb in_class ds = true
                 /\ tok = DI :: ds ++ [TIAO] /\ s = tok ++ rest.
Proof.
  split; [apply match_marker_shape|].
  intros (ds & Hne & Hds & -> & ->).
  replace ((DI :: ds ++ [TIAO]) ++ rest) with (DI :: ds ++ TIAO :: rest)
    by (simpl; rewrite <- app_assoc; reflexivity).
  apply match_marker_complete; assumption.
Qed.


(** ** The units of the line-oriented segmenter *)

Lemma groups_tails (P : pystr -> bool) (ls : list pystr) :
  Forall (fun l => P l = false) (fst (groups P ls))
  /\ Forall (fun g => Forall (fun l => P l = false) (tl g)) (snd (groups P ls)).
Proof.
  induction ls as [|l ls [IH1 IH2]]; [split; constructor|].
  rewrite groups_cons. destruct (P l) eqn:E; cbn [fst snd]; split; auto.
Qed.

Lemma groups_plain (P : pystr -> bool) (ls : list pystr) :
  Forall (fun l => P l = false) ls -> groups P ls = (ls, []).
Proof.
  induction 1 as [|l ls Hl Hls IH]; [reflexivity|].
  rewrite groups_cons, Hl, IH. reflexivity.
Qed.

Lemma clean_lines_in (k : pystr) (ls : list pystr) :
  In k (clean_lines ls) -> exists l, In l ls /\ k = strip l /\ truthy k = true.
Proof.
  unfold clean_lines. intros H. apply filter_In in H. destruct H as [H Hk].
  apply in_map_iff in H. destruct H as (l & <- & Hl). eauto.
Qed.

Lemma clean_lines_fixed (ls : list pystr) :
  Forall (fun l => truthy l = true /\ strip l = l) ls -> clean_lines ls = ls.
Proof.
  induction 1 as [|l ls [Ht Hs] Hls IH]; [reflexivity|].
  rewrite clean_lines_cons, Hs, Ht, IH. reflexivity.
Qed.

Lemma join_nl_split_nl (s : pystr) : join_nl (split_nl s) = s.
Proof.
  induction s as [|c s IH]; [reflexivity|]. rewrite split_nl_cons.
  destruct (split_nl_shape s) as (l & ls & E). rewrite E in *.
  destruct (c =? NL) eqn:Ec.
  - apply N.eqb_eq in Ec. subst c. rewrite join_nl_cons, IH. reflexivity.
  - rewrite join_nl_cons. rewrite join_nl_cons in IH. destruct ls; rewrite <- IH; reflexivity.
Qed.

Lemma unit_of_group_content (m : pystr) (rest : list pystr) :
  Forall (fun l => no_NL l = true) rest ->
  unit_of_group (m :: rest)
  = {| title := strip m; content := join_nl (clean_lines rest) |}.
Proof.
  intros Hn. destruct (clean_lines_props rest Hn) as [_ Ht].
  unfold unit_of_group.
  pose proof (fold_add_content_title (clean_lines rest) {| title := strip m; content := [] |}) as H1.
  pose proof (fold_add_content_content (clean_lines rest) Ht {| title := strip m; content := [] |}) as H2.
  destruct (fold_left add_content (clean_lines rest) {| title := strip m; content := [] |})
    as [t c]. simpl in H1, H2. subst t c. reflexivity.
Qed.

Lemma unit_of_group_ok (m : pystr) (rest : list pystr) :
  is_marker (strip m) = true ->
  Forall (fun l => no_NL l = true) (m :: rest) ->
  Forall (fun l => is_marker (strip l) = false) rest ->
  unit_ok (unit_of_group (m :: rest)).
Proof.
  intros Hm Hn Hr. inversion Hn as [|? ? Hnm Hnr]; subst.
  rewrite (unit_of_group_content m rest Hnr).
  destruct (clean_lines_props rest Hnr) as [Hnk Htk].
  unfold unit_ok, content_lines. cbn [title content].
  split; [exact Hm|]. split; [apply strip_idem|]. split; [apply no_NL_strip; exact Hnm|].
  destruct (clean_lines rest) as [|k K] eqn:EK; [constructor|].
  inversion Htk as [|? ? Hk _]; subst.
  rewrite (truthy_join_nl k K Hk), (split_nl_join_nl k K Hnk).
  rewrite <- EK. apply Forall_forall. intros x Hx.
  destruct (clean_lines_in x rest Hx) as (l & Hl & -> & Ht).
  split; [exact Ht|]. split; [apply strip_idem|].
  rewrite Forall_forall in Hr. apply Hr, Hl.
Qed.

Lemma segment_lines_units_ok (lines : list pystr) :
  Forall (fun l => no_NL l = true) lines -> Forall unit_ok (segment_lines lines).
Proof.
  intros Hn. rewrite segment_lines_groups. apply Forall_map.
  pose proof (groups_heads (fun l => is_marker (strip l)) lines) as Hh.
  destruct (groups_tails (fun l => is_marker (strip l)) lines) as [_ Ht].
  destruct (groups_forall (fun l => no_NL l = true) (fun l => is_marker (strip l)) lines Hn)
    as [_ Hg].
  rewrite Forall_forall in *. intros g Hin.
  destruct (Hh g Hin) as (m & rest & -> & Hm).
  apply unit_of_group_ok; [exact Hm|exact (Hg _ Hin)|exact (Ht _ Hin)].
Qed.

(** X5. Every unit the line-oriented segmenter returns is well formed: its
    title is a single trimmed line that starts with a marker, and every
    line of its content is trimmed, not empty and does not start with a
    marker. *)
Theorem pdf_units_well_formed (s : pystr) :
  Forall unit_ok (extract_articles_from_pdf s).
Proof. apply segment_lines_units_ok, split_nl_no_NL. Qed.

(** ** Where the segmenters cut *)

Lemma docx_as_pdf (paragraphs : list pystr) :
  extract_articles_from_docx paragraphs = map split_title (segment_lines paragraphs).
Proof.
  unfold extract_articles_from_docx, segment_lines.
  apply flush_agree, folds_agree. repeat split. left. reflexivity.
Qed.

Lemma segment_lines_app_marker (a b : list pystr) (m : pystr) :
  is_marker (strip m) = true ->
  segment_lines (a ++ m :: b) = segment_lines a ++ segment_lines (m :: b).
Proof.
  intros Hm. unfold segment_lines. rewrite fold_left_app.
  destruct (fold_left pdf_step a ([], no_article)) as [arts cur]. cbn [fold_left].
  rewrite !pdf_step_marker by assumption. rewrite !segment_groups.
  cbn [title]. rewrite (is_marker_truthy _ Hm).
  change (flush ([], no_article)) with (@nil article).
  rewrite <- !app_assoc. reflexivity.
Qed.

(** X6. Both segmenters cut at marker lines only: the units of a list of
    lines are the units of the lines before a marker line followed by the
    units of the lines from that marker line on. *)
Theorem segmentation_splits_at_marker_lines (a b : list pystr) (m : pystr) :
  marker_line m = true ->
  segment_lines (a ++ m :: b) = segment_lines a ++ segment_lines (m :: b)
  /\ extract_articles_from_docx (a ++ m :: b)
     = extract_articles_from_docx a ++ extract_articles_from_docx (m :: b).
Proof.
  intros Hm. split; [apply segment_lines_app_marker; exact Hm|].
  rewrite !docx_as_pdf, (segment_lines_app_marker a b m Hm). apply map_app.
Qed.

Lemma segmentation_splits_at_marker_lines_witness :
  marker_line (py "第二条 乙") = true
  /\ segment_lines ([py "第一条 甲"; py "子"] ++ py "第二条 乙" :: [py "丑"])
     = segment_lines [py "第一条 甲"; py "子"] ++ segment_lines (py "第二条 乙" :: [py "丑"]).
Proof.
  split; [vm_compute; reflexivity|].
  exact (proj1 (segmentation_splits_at_marker_lines
                  [py "第一条 甲"; py "子"] [py "丑"] (py "第二条 乙") eq_refl)).
Defined.

Lemma pdf_step_strip (st : seg_state) (l : pystr) : pdf_step st (strip l) = pdf_step st l.
Proof. unfold pdf_step. destruct st. rewrite strip_idem. reflexivity. Qed.

Lemma fold_pdf_step_clean (lines : list pystr) :
  forall st, fold_left pdf_step (clean_lines lines) st = fold_left pdf_step lines st.
Proof.
  induction lines as [|l lines IH]; intros st; [reflexivity|].
  rewrite clean_lines_cons. cbn [fold_left].
  destruct (truthy (strip l)) eqn:El.
  - cbn [fold_left]. rewrite pdf_step_strip. apply IH.
  - rewrite (pdf_step_blank st l El). apply IH.
Qed.

Lemma segment_lines_clean (lines : list pystr) :
  segment_lines (clean_lines lines) = segment_lines lines.
Proof. unfold segment_lines. rewrite fold_pdf_step_clean. reflexivity. Qed.

(** X7. Blank lines and whitespace around lines are irrelevant to both
    segmenters: the units of the lines are the units of their non-empty
    trimmed lines. *)
Theorem segmentation_ignores_blank_lines (lines : list pystr) :
  segment_lines (clean_lines lines) = segment_lines lines
  /\ extract_articles_from_docx (clean_lines lines) = extract_articles_from_docx lines.
Proof.
  split; [apply segment_lines_clean|].
  rewrite !docx_as_pdf, segment_lines_clean. reflexivity.
Qed.

(** C3, as amended.  On equivalent input, the text to the line-oriented
    segmenter and the lines of the normalized text, all of them or the
    non-empty trimmed ones, as paragraphs to the paragraph-oriented one,
    the two segmenters return the same number of units, and each unit of
    the second is the unit of the first at the same position with its
    title cut after the marker token and the rest of the marker line moved
    to the front of the content. *)
Theorem docx_refines_pdf (s : pystr) :
  extract_articles_from_docx (trimmed_lines (_clean_pdf_text s))
  = map split_title (extract_articles_from_pdf s)
  /\ extract_articles_from_docx (split_nl (_clean_pdf_text s))
     = map split_title (extract_articles_from_pdf s)
  /\ length (extract_articles_from_docx (trimmed_lines (_clean_pdf_text s)))
     = length (extract_articles_from_pdf s).
Proof.
  assert (H : extract_articles_from_docx (trimmed_lines (_clean_pdf_text s))
              = map split_title (extract_articles_from_pdf s)).
  { unfold trimmed_lines. fold (clean_lines (split_nl (_clean_pdf_text s))).
    rewrite docx_as_pdf, segment_lines_clean. reflexivity. }
  split; [exact H|]. split; [apply docx_as_pdf|]. rewrite H. apply length_map.
Qed.

Lemma segment_lines_front (front lines : list pystr) :
  Forall (fun l => marker_line l = false) front ->
  segment_lines (front ++ lines) = segment_lines lines.
Proof.
  intros Hf. rewrite !segment_lines_groups. induction Hf as [|l front Hl Hf IH]; [reflexivity|].
  cbn [app]. rewrite groups_cons. unfold marker_line in Hl. rewrite Hl. exact IH.
Qed.

(** ** Segmenting the units again *)

Lemma unit_text_split (u : article) :
  unit_ok u -> split_nl (full_text u) = title u :: split_nl (content u).
Proof. intros (_ & _ & Hn & _). unfold full_text. apply split_nl_app, Hn. Qed.

Lemma segment_unit_text (u : article) :
  unit_ok u -> segment_lines (split_nl (full_text u)) = [u].
Proof.
  intros Hu. rewrite (unit_text_split u Hu).
  destruct Hu as (Hm & Hs & Hn & Hc). unfold content_lines in Hc.
  rewrite segment_lines_groups, groups_cons, Hs, Hm.
  assert (Hp : Forall (fun l => is_marker (strip l) = false) (split_nl (content u))).
  { destruct (truthy (content u)) eqn:Et.
    - eapply Forall_impl; [|exact Hc]. intros l (_ & Hl & Hl'). rewrite Hl. exact Hl'.
    - apply truthy_false in Et. rewrite Et. repeat constructor. }
  rewrite (groups_plain _ _ Hp). cbn [fst snd map].
  rewrite (unit_of_group_content _ _ (split_nl_no_NL (content u))), Hs.
  destruct u as [t c]. cbn [title content] in *. f_equal. f_equal.
  destruct (truthy c) eqn:Et.
  - rewrite clean_lines_fixed; [apply join_nl_split_nl|].
    eapply Forall_impl; [|exact Hc]. intros l (H1 & H2 & _). split; assumption.
  - apply truthy_false in Et. subst c. reflexivity.
Qed.

Lemma segment_unit_texts (units : list article) :
  Forall unit_ok units -> segment_lines (unit_text_lines units) = units.
Proof.
  induction 1 as [|u units Hu Hus IH]; [reflexivity|].
  unfold unit_text_lines in *. cbn [flat_map].
  destruct Hus as [|v units Hv Hus].
  - cbn [flat_map]. rewrite app_nil_r. apply segment_unit_text, Hu.
  - cbn [flat_map] in *. rewrite (unit_text_split v Hv) in *. cbn [app] in *.
    rewrite segment_lines_app_marker.
    + rewrite IH, (segment_unit_text u Hu). reflexivity.
    + destruct Hv as (Hm & Hs & _). rewrite Hs. exact Hm.
Qed.

(** X9. Segmenting is a projection: the lines of the texts of the units,
    segmented again, give exactly the same units. *)
Theorem segmenting_unit_texts_again (s : pystr) :
  segment_lines (unit_text_lines (extract_articles_from_pdf s))
  = extract_articles_from_pdf s.
Proof. apply segment_unit_texts, segment_lines_units_ok, split_nl_no_NL. Qed.


(** ** The units of the paragraph-oriented segmenter *)

Lemma groups_length (P : pystr -> bool) (ls : list pystr) :
  length (snd (groups P ls)) = length (filter P ls).
Proof.
  induction ls as [|l ls IH]; [reflexivity|]. rewrite groups_cons. cbn [filter].
  destruct (P l); cbn [snd length]; rewrite IH; reflexivity.
Qed.

Lemma segment_lines_titles (lines : list pystr) :
  Forall (fun u => is_marker (title u) = true) (segment_lines lines).
Proof.
  unfold segment_lines. apply titles_are_markers_fold; [constructor|left; reflexivity].
Qed.

Lemma token_is_marker (s tok rest : pystr) :
  match_marker s = Some (tok, rest) -> match_marker tok = Some (tok, []).
Proof.
  intros H. destruct (match_marker_shape s tok rest H) as (ds & Hne & Hds & -> & _).
  apply (match_marker_complete ds [] Hne Hds).
Qed.

Lemma split_title_title (u : article) :
  is_marker (title u) = true ->
  title (split_title u) = title_token u
  /\ match_marker (title (split_title u)) = Some (title (split_title u), []).
Proof.
  unfold is_marker, split_title, title_token, match_title_content.
  destruct (match_marker (title u)) as [[tok rest]|] eqn:E; [|discriminate].
  intros _. cbn [title]. split; [reflexivity|]. eapply token_is_marker, E.
Qed.

(** X10. The paragraph-oriented segmenter returns one unit for every
    paragraph that, trimmed, starts with a marker; the titles are the
    marker tokens of these paragraphs, in order, and each title is a
    marker token and nothing more. *)
Theorem docx_titles_are_marker_tokens (paragraphs : list pystr) :
  map title (extract_articles_from_docx paragraphs)
  = flat_map (fun p => token_list (strip p)) paragraphs
  /\ length (extract_articles_from_docx paragraphs) = length (filter marker_line paragraphs)
  /\ Forall (fun u => match_marker (title u) = Some (title u, []))
            (extract_articles_from_docx paragraphs).
Proof.
  rewrite docx_as_pdf. pose proof (segment_lines_titles paragraphs) as Ht.
  split; [|split].
  - rewrite <- titles_segment_lines, map_map. apply map_ext_in. intros u Hu.
    rewrite Forall_forall in Ht. apply split_title_title, Ht, Hu.
  - rewrite length_map, segment_lines_groups, length_map. apply groups_length.
  - apply Forall_map. eapply Forall_impl; [|exact Ht].
    intros u Hu. apply split_title_title, Hu.
Qed.

Lemma rstrip_app_nonblank (x y : pystr) :
  forallb isspace y = false -> rstrip (x ++ y) = x ++ rstrip y.
Proof.
  intros Hy. induction x as [|c x IH]; [reflexivity|].
  cbn [app]. rewrite rstrip_cons_eq, IH.
  destruct (x ++ rstrip y) as [|d r] eqn:E; [|reflexivity].
  apply app_eq_nil in E. destruct E as [_ E]. apply rstrip_nil_iff in E. congruence.
Qed.

Lemma rstrip_app_blank (x y : pystr) :
  forallb isspace y = true -> rstrip (x ++ y) = rstrip x.
Proof.
  intros Hy. induction x as [|c x IH].
  - cbn [app]. apply rstrip_nil_iff in Hy. rewrite Hy. reflexivity.
  - cbn [app]. apply rstrip_cons_congr, IH.
Qed.

Lemma lstrip_app_nonblank (x y : pystr) :
  forallb isspace x = false -> lstrip (x ++ y) = lstrip x ++ y.
Proof.
  induction x as [|c x IH]; [discriminate|]. cbn [forallb app lstrip].
  destruct (isspace c); [exact IH|reflexivity].
Qed.

Lemma dot_star_line (x : pystr) : no_NL x = true -> dot_star x = x.
Proof.
  induction x as [|c x IH]; [reflexivity|]. cbn [no_NL forallb dot_star].
  destruct (c =? NL); [discriminate|]. intros H. rewrite IH; [reflexivity|exact H].
Qed.

Lemma dot_star_first_line (x z : pystr) : no_NL x = true -> dot_star (x ++ NL :: z) = x.
Proof.
  induction x as [|c x IH]; [reflexivity|]. cbn [no_NL forallb dot_star app].
  destruct (c =? NL); [discriminate|]. intros H. rewrite IH; [reflexivity|exact H].
Qed.

Lemma strip_rstrip (x : pystr) : strip (rstrip x) = strip x.
Proof. unfold strip. rewrite lstrip_rstrip, rstrip_idem. reflexivity. Qed.

Lemma strip_lstrip (x : pystr) : strip (lstrip x) = strip x.
Proof. unfold strip. rewrite lstrip_idem. reflexivity. Qed.

Lemma strip_first_line_of_rstrip (x b : pystr) :
  no_NL x = true -> strip (dot_star (rstrip (x ++ NL :: b))) = strip x.
Proof.
  intros Hx. destruct (forallb isspace b) eqn:Eb.
  - rewrite rstrip_app_blank by (cbn [forallb]; rewrite Eb; reflexivity).
    rewrite dot_star_line by (apply forallb_rstrip, Hx). apply strip_rstrip.
  - rewrite rstrip_app_nonblank by (cbn [forallb]; rewrite Eb; reflexivity).
    rewrite rstrip_cons_eq.
    destruct (rstrip b) as [|d r] eqn:Er.
    + apply rstrip_nil_iff in Er. congruence.
    + rewrite dot_star_first_line by exact Hx. reflexivity.
Qed.

Lemma strip_marker_paragraph (tok y : pystr) :
  match_marker tok = Some (tok, []) -> forallb isspace y = false ->
  strip (tok ++ y) = tok ++ rstrip y
  /\ match_marker (tok ++ rstrip y) = Some (tok, rstrip y).
Proof.
  intros Ht Hy. destruct (match_marker_shape tok tok [] Ht) as (ds & Hne & Hds & E & _).
  clear Ht. subst tok. split.
  - unfold strip.
    change (lstrip ((DI :: ds ++ [TIAO]) ++ y)) with ((DI :: ds ++ [TIAO]) ++ y).
    apply rstrip_app_nonblank, Hy.
  - replace ((DI :: ds ++ [TIAO]) ++ rstrip y) with (DI :: ds ++ TIAO :: rstrip y)
      by (simpl; rewrite <- app_assoc; reflexivity).
    apply match_marker_complete; assumption.
Qed.

(** X11. Of a marker paragraph that contains a line break the
    paragraph-oriented segmenter keeps the first line only: when text
    follows the token on the first line, the content of the unit is that
    text, trimmed, and whatever comes after the line break is lost. *)
Theorem docx_marker_paragraph_keeps_first_line (tok a b : pystr) :
  match_marker tok = Some (tok, []) -> no_NL a = true -> strip a <> [] ->
  extract_articles_from_docx [tok ++ a ++ NL :: b]
  = [ {| title := tok; content := strip a |} ].
Proof.
  intros Ht Ha Hne.
  assert (Hb : forallb isspace a = false).
  { destruct (forallb isspace a) eqn:E; [|reflexivity]. apply strip_nil_iff in E. contradiction. }
  assert (Hy : forallb isspace (a ++ NL :: b) = false).
  { rewrite forallb_app, Hb. reflexivity. }
  destruct (strip_marker_paragraph tok _ Ht Hy) as [Hs Hm].
  unfold extract_articles_from_docx. cbn [fold_left].
  rewrite (docx_step_marker_line [] no_article _ tok (rstrip (a ++ NL :: b)))
    by (rewrite Hs; exact Hm).
  unfold flush. cbn [title]. rewrite (match_marker_token_nonempty _ _ _ Ht).
  change (truthy (title no_article)) with false. cbv iota. cbn [app].
  rewrite lstrip_rstrip, (lstrip_app_nonblank a _ Hb).
  rewrite (strip_first_line_of_rstrip (lstrip a) b (forallb_lstrip _ _ Ha)), strip_lstrip.
  reflexivity.
Qed.

Lemma docx_marker_paragraph_keeps_first_line_witness :
  extract_articles_from_docx [py "第一条" ++ py " 甲方" ++ NL :: py "乙方；第二条 丙方"]
  = [ {| title := py "第一条"; content := py "甲方" |} ].
Proof.
  apply (docx_marker_paragraph_keeps_first_line (py "第一条") (py " 甲方") (py "乙方；第二条 丙方"));
    [vm_compute; reflexivity|vm_compute; reflexivity|vm_compute; discriminate].
Defined.


(** ** The pieces of the regex split, for any text *)

Lemma class_run_front_matter (s : pystr) : class_run (front_matter s) = class_run s.
Proof.
  induction s as [|c s IH]; [reflexivity|].
  change (front_matter (c :: s))
    with (if is_marker (c :: s) then [] else c :: front_matter s).
  destruct (is_marker (c :: s)) eqn:Em.
  - destruct (N.eq_dec c DI) as [->|Hc].
    + rewrite class_run_cons. reflexivity.
    + rewrite (is_marker_not_DI c s Hc) in Em. discriminate.
  - rewrite !(class_run_cons c), IH. reflexivity.
Qed.

Lemma markers_front_matter (s : pystr) : markers (front_matter s) = [].
Proof.
  induction s as [|c s IH]; [reflexivity|].
  change (front_matter (c :: s))
    with (if is_marker (c :: s) then [] else c :: front_matter s).
  destruct (is_marker (c :: s)) eqn:Em; [reflexivity|].
  rewrite markers_cons, (marker_token_class_run c _ s (class_run_front_matter s)).
  rewrite is_marker_token in Em. destruct (marker_token (c :: s)); [discriminate|exact IH].
Qed.

Lemma front_matter_cons (c : N) (s : pystr) :
  front_matter (c :: s) = if is_marker (c :: s) then [] else c :: front_matter s.
Proof. reflexivity. Qed.

Lemma re_split_shape (t : pystr) :
  exists ps,
    re_split_markers t = front_matter t :: ps
    /\ front_matter t ++ concat ps = t
    /\ concat (map token_list ps) = markers t
    /\ Forall (fun p => is_marker p = true /\ markers p = token_list p) ps.
Proof.
  induction t as [|c t (ps & E & Hcat & Htok & Hall)].
  - exists []. repeat split; constructor.
  - rewrite re_split_markers_cons, front_matter_cons, E. cbn [push].
    pose proof (marker_token_class_run c _ t (class_run_front_matter t)) as Hmt.
    assert (Hm : markers (c :: front_matter t) = token_list (c :: front_matter t)).
    { rewrite markers_cons, markers_front_matter. unfold token_list.
      destruct (marker_token (c :: front_matter t)); reflexivity. }
    destruct (is_marker (c :: t)) eqn:Em.
    + exists ((c :: front_matter t) :: ps). split; [reflexivity|].
      split; [cbn [concat app]; rewrite <- Hcat at 2; reflexivity|].
      split.
      * cbn [map concat]. rewrite markers_cons, Htok. unfold token_list. rewrite Hmt.
        destruct (marker_token (c :: t)); reflexivity.
      * constructor; [|exact Hall]. split; [|exact Hm].
        rewrite (is_marker_class_run c _ t (class_run_front_matter t)). exact Em.
    + exists ps. split; [reflexivity|].
      split; [cbn [app]; rewrite Hcat; reflexivity|].
      split; [|exact Hall].
      rewrite markers_cons, Htok. rewrite is_marker_token in Em.
      destruct (marker_token (c :: t)); [discriminate|reflexivity].
Qed.

Lemma marker_piece_nonblank (p : pystr) : is_marker p = true -> truthy (strip p) = true.
Proof.
  intros Hm. destruct (strip p) eqn:E; [|reflexivity].
  apply strip_nil_iff in E. destruct p as [|c p]; [discriminate|].
  cbn [forallb] in E. apply andb_true_iff in E. destruct E as [E _].
  rewrite (is_marker_space c p E) in Hm. discriminate.
Qed.

Lemma split_articles_shape (t : pystr) :
  exists ps,
    split_articles_by_regex t
    = (if truthy (strip (front_matter t)) then [front_matter t] else []) ++ ps
    /\ front_matter t ++ concat ps = t
    /\ concat (map token_list ps) = markers t
    /\ Forall (fun p => is_marker p = true /\ markers p = token_list p) ps.
Proof.
  destruct (re_split_shape t) as (ps & E & Hcat & Htok & Hall).
  exists ps. split; [|auto]. unfold split_articles_by_regex. rewrite E. cbn [filter].
  assert (Hf : filter (fun art => truthy (strip art)) ps = ps).
  { clear E Hcat Htok. induction Hall as [|p ps [Hp _] _ IH]; [reflexivity|].
    cbn [filter]. rewrite (marker_piece_nonblank p Hp), IH. reflexivity. }
  rewrite Hf. destruct (truthy (strip (front_matter t))); reflexivity.
Qed.

(** X12. The regex split loses nothing but a blank front: the segments,
    put together again, are the text, except that text before the first
    marker is left out when it is blank. *)
Theorem regex_split_is_lossless (t : pystr) :
  (if truthy (strip (front_matter t)) then [] else front_matter t)
    ++ concat (split_articles_by_regex t) = t.
Proof.
  destruct (split_articles_shape t) as (ps & E & Hcat & _). rewrite E.
  destruct (truthy (strip (front_matter t))); cbn [app concat]; exact Hcat.
Qed.

Lemma token_list_length (p : pystr) :
  is_marker p = true -> length (token_list p) = 1%nat.
Proof.
  rewrite is_marker_token. unfold token_list.
  destruct (marker_token p); [reflexivity|discriminate].
Qed.

Lemma concat_singletons {A : Type} (f : pystr -> list A) (ps : list pystr) :
  Forall (fun p => length (f p) = 1%nat) ps -> length (concat (map f ps)) = length ps.
Proof.
  induction 1 as [|p ps Hp _ IH]; [reflexivity|].
  cbn [map concat]. rewrite length_app, Hp, IH. reflexivity.
Qed.

(** X13. On any text the regex split yields one segment for every marker,
    and one more when text that is not blank precedes the first marker;
    every segment has at most one marker, at its very start, and the
    markers of the segments are the markers of the text, in order. *)
Theorem regex_split_one_segment_per_marker (t : pystr) :
  length (split_articles_by_regex t)
  = (length (markers t) + if truthy (strip (front_matter t)) then 1 else 0)%nat
  /\ Forall (fun p => markers p = token_list p) (split_articles_by_regex t)
  /\ concat (map token_list (split_articles_by_regex t)) = markers t.
Proof.
  destruct (split_articles_shape t) as (ps & E & _ & Htok & Hall). rewrite E.
  assert (Hlen : length ps = length (markers t)).
  { rewrite <- Htok. symmetry. apply concat_singletons.
    eapply Forall_impl; [|exact Hall]. intros p [Hp _]. apply token_list_length, Hp. }
  assert (Hfront : markers (front_matter t) = token_list (front_matter t)).
  { rewrite markers_front_matter. unfold token_list.
    rewrite (marker_token_markers _ (markers_front_matter t)). reflexivity. }
  assert (Hfront' : token_list (front_matter t) = []).
  { rewrite <- Hfront. apply markers_front_matter. }
  assert (Hps : Forall (fun p => markers p = token_list p) ps).
  { eapply Forall_impl; [|exact Hall]. intros p [_ Hp]. exact Hp. }
  destruct (truthy (strip (front_matter t))); cbn [app length map concat].
  - rewrite Hlen, Hfront'. split; [lia|]. split; [constructor; assumption|exact Htok].
  - rewrite Hlen. split; [lia|]. split; assumption.
Qed.


(** ** The orchestrating loops *)

Lemma pdf_units_count (text : pystr) :
  length (extract_articles_from_pdf text) = length (markers text).
Proof.
  rewrite <- (markers_clean_pdf_text text).
  rewrite <- (titles_of_marked_text _ (msl_clean_pdf_text text)).
  rewrite length_map. reflexivity.
Qed.



Lemma run_of_log (system_prompt : pystr) (scan : pystr -> result json)
      (reply_for : nat -> pystr -> reply) (prompt : pystr -> pystr) (delay_positive : bool)
      (texts : list pystr) :
  log (fst (run_of system_prompt scan reply_for prompt delay_positive texts))
  = flat_map (unit_events system_prompt prompt delay_positive) (served reply_for 0 texts)
      ++ match aborted_unit reply_for 0 texts with
         | Some text => [Requested system_prompt (prompt text)]
         | None => []
         end.
Proof.
  unfold run_of. destruct (aborted_unit reply_for 0 texts); cbn [fst log]; [reflexivity|].
  rewrite app_nil_r. reflexivity.
Qed.

Section RunFacts.

Variable system_prompt : pystr.
Variable scan : pystr -> result json.
Variable service : nat -> pystr -> pystr -> reply.


(** X15. A run makes its requests in the order of the units, one request
    per unit and never a second one for the same unit, each followed by a
    pause exactly when the delay is positive, up to the first request that
    raises [JSONDecodeError]: that request is the last event, and the
    units after it get none.  When no request raises it, every unit gets
    its request.  This holds for either parser on either of its paths;
    every request of the docx parser carries the same document context. *)
Theorem run_log_is_one_request_per_unit (paragraphs : list pystr) (text : pystr)
        (delay_positive structured : bool) :
  let ctx := extract_document_context paragraphs in
  let docx_texts :=
    if structured then map full_text (extract_articles_from_docx paragraphs)
    else split_articles_by_regex (read_docx_file paragraphs) in
  let pdf_texts :=
    if structured then map full_text (extract_articles_from_pdf text)
    else split_articles_by_regex text in
  let docx_reply := fun k t => service k system_prompt (user_prompt ctx t) in
  let pdf_reply := fun k t => service k system_prompt (user_prompt_pdf t) in
  log (fst (parse_docx_civil_code system_prompt scan service paragraphs delay_positive
                                  structured))
  = flat_map (unit_events system_prompt (user_prompt ctx) delay_positive)
             (served docx_reply 0 docx_texts)
      ++ match aborted_unit docx_reply 0 docx_texts with
         | Some t => [Requested system_prompt (user_prompt ctx t)]
         | None => []
         end
  /\ (aborted_unit docx_reply 0 docx_texts = None -> served docx_reply 0 docx_texts = docx_texts)
  /\ log (fst (parse_pdf_civil_code system_prompt scan service text delay_positive structured))
     = flat_map (unit_events system_prompt user_prompt_pdf delay_positive)
                (served pdf_reply 0 pdf_texts)
         ++ match aborted_unit pdf_reply 0 pdf_texts with
            | Some t => [Requested system_prompt (user_prompt_pdf t)]
            | None => []
            end
  /\ (aborted_unit pdf_reply 0 pdf_texts = None -> served pdf_reply 0 pdf_texts = pdf_texts).
Proof.
  cbv zeta. unfold parse_docx_civil_code, parse_pdf_civil_code.
  split; [destruct structured; rewrite extract_all_closed; apply run_of_log|].
  split; [apply served_all|].
  split; [destruct structured; rewrite extract_all_pdf_closed; apply run_of_log|].
  apply served_all.
Qed.

End RunFacts.


(** ** The statistics of the validation pass, in general *)

Lemma py_len_cases (v : json) :
  (measurable v = true /\ py_len v = Returned (length_of v))
  \/ (measurable v = false /\ exists e, py_len v = Propagated e).
Proof. destruct v; simpl; eauto. Qed.

Lemma info_loop_cases (items : list json) :
  forall (i : nat) (st : stats),
    match for_enumerate info_step i items st with
    | Returned st' =>
      forallb sample_ready
              (firstn (5 - length (sample_articles st)) (filter is_valid items)) = true
      /\ st'
         = {| total_articles := total_articles st;
              valid_articles := valid_articles st + length (filter is_valid items);
              articles_with_content :=
                articles_with_content st + length (filter (valid_with (py "content")) items);
              articles_with_summary :=
                articles_with_summary st + length (filter (valid_with (py "summary")) items);
              articles_with_keywords :=
                articles_with_keywords st + length (filter (valid_with (py "keywords")) items);
              sample_articles :=
                sample_articles st
                  ++ firstn (5 - length (sample_articles st)) (valid_samples i items);
              error_articles := error_articles st ++ error_entries i items |}
    | Propagated _ =>
      forallb sample_ready
              (firstn (5 - length (sample_articles st)) (filter is_valid items)) = false
    end.
Proof.
  induction items as [|item items IH]; intros i st.
  - cbn [for_enumerate filter valid_samples error_entries length].
    rewrite !firstn_nil, !Nat.add_0_r, !app_nil_r. split; [reflexivity|].
    destruct st; reflexivity.
  - cbn [for_enumerate].
    destruct item as [| | | | |l|kv];
      try (cbn [info_step bind filter is_valid valid_with valid_samples error_entries];
           exact (IH (S i) st)).
    cbn [info_step filter is_valid valid_with valid_samples error_entries].
    destruct (dict_has kv (py "error")) eqn:Eerr; cbn [negb andb].
    + cbn [bind].
      match goal with
      | |- context [for_enumerate info_step (S i) items ?s] =>
        specialize (IH (S i) s); destruct (for_enumerate info_step (S i) items s) as [st'|e]
      end; cbn [total_articles valid_articles articles_with_content articles_with_summary
                articles_with_keywords sample_articles error_articles] in IH.
      * destruct IH as [IH1 ->]. split; [exact IH1|]. rewrite <- app_assoc. reflexivity.
      * exact IH.
    + cbn [sample_articles].
      destruct (length (sample_articles st) <? 5)%nat eqn:Elen.
      * apply Nat.ltb_lt in Elen.
        replace (5 - length (sample_articles st))%nat
          with (S (5 - (length (sample_articles st) + 1)))%nat by lia.
        cbn [firstn forallb sample_ready]. rewrite Eerr. cbn [orb].
        unfold make_sample.
        destruct (py_len_cases (dict_get_default kv (py "content") (JStr [])))
          as [[Hc ->]|[Hc [e ->]]]; rewrite Hc; cbn [bind andb]; [|reflexivity].
        destruct (py_len_cases (dict_get_default kv (py "keywords") (JList [])))
          as [[Hk ->]|[Hk [e ->]]]; rewrite Hk; cbn [bind andb]; [|reflexivity].
        match goal with
        | |- context [for_enumerate info_step (S i) items ?s] =>
          specialize (IH (S i) s); destruct (for_enumerate info_step (S i) items s) as [st'|e]
        end; cbn [total_articles valid_articles articles_with_content articles_with_summary
                  articles_with_keywords sample_articles error_articles] in IH;
          rewrite length_app in IH; cbn [length] in IH.
        -- destruct IH as [IH1 ->]. split; [exact IH1|].
           fold (sample_of i kv). rewrite <- app_assoc. cbn [app]. unfold bump.
           destruct (truthy_field kv (py "content")), (truthy_field kv (py "summary")),
             (truthy_field kv (py "keywords")); cbn [length]; f_equal; lia.
        -- exact IH.
      * cbn [bind]. apply Nat.ltb_ge in Elen.
        match goal with
        | |- context [for_enumerate info_step (S i) items ?s] =>
          specialize (IH (S i) s); destruct (for_enumerate info_step (S i) items s) as [st'|e]
        end; cbn [total_articles valid_articles articles_with_content articles_with_summary
                  articles_with_keywords sample_articles error_articles] in IH;
          replace (5 - length (sample_articles st))%nat with 0%nat in * by lia;
          cbn [firstn forallb] in *.
        -- destruct IH as [_ ->]. split; [reflexivity|]. unfold bump.
           destruct (truthy_field kv (py "content")), (truthy_field kv (py "summary")),
             (truthy_field kv (py "keywords")); cbn [length]; f_equal; lia.
        -- discriminate.
Qed.

Lemma info_cases (items : list json) :
  match extract_articles_info (JList items) with
  | Stats st => forallb sample_ready (sampled items) = true /\ st = stats_of items
  | ErrorReport _ => forallb sample_ready (sampled items) = false
  end.
Proof.
  unfold extract_articles_info, info_try.
  match goal with
  | |- context [for_enumerate info_step 0 items ?s] =>
    pose proof (info_loop_cases items 0 s) as H;
      destruct (for_enumerate info_step 0 items s) as [st'|e]
  end; exact H.
Qed.

(** X16. The statistics pass succeeds exactly when, in each of the first
    five valid records, the content and the keywords have a length or are
    absent; it then reports the length of the list, the numbers of valid
    records and of valid records with a content, a summary and keywords
    that are not empty, the samples of the first five valid records, and
    the error records with their indices.  What later valid records hold
    in these fields does not matter. *)
Theorem stats_succeed_iff_samples_measurable (items : list json) :
  match extract_articles_info (JList items) with
  | Stats st => forallb sample_ready (sampled items) = true /\ st = stats_of items
  | ErrorReport _ => forallb sample_ready (sampled items) = false
  end.
Proof. apply info_cases. Qed.

Lemma records_partition (items : list json) :
  forall i,
    (length (filter is_valid items) + length (error_entries i items)
     + length (filter (fun v => negb (is_dict v)) items))%nat = length items.
Proof.
  induction items as [|item items IH]; intros i; [reflexivity|].
  specialize (IH (S i)).
  destruct item as [| | | | |l|kv];
    cbn [filter is_valid is_dict negb error_entries length]; try lia.
  destruct (dict_has kv (py "error")); cbn [negb length]; lia.
Qed.

Lemma valid_samples_length (items : list json) :
  forall i, length (valid_samples i items) = length (filter is_valid items).
Proof.
  induction items as [|item items IH]; intros i; [reflexivity|].
  specialize (IH (S i)).
  destruct item as [| | | | |l|kv]; cbn [filter is_valid valid_samples]; try exact IH.
  destruct (dict_has kv (py "error")); cbn [negb length]; lia.
Qed.

Lemma valid_with_le (key : pystr) (items : list json) :
  (length (filter (valid_with key) items) <= length (filter is_valid items))%nat.
Proof.
  induction items as [|item items IH]; [reflexivity|].
  destruct item as [| | | | |l|kv]; cbn [filter is_valid valid_with]; try exact IH.
  destruct (dict_has kv (py "error")); cbn [negb andb]; [exact IH|].
  destruct (truthy_field kv key); cbn [length]; lia.
Qed.

Lemma filter_non_dict (items : list json) :
  Forall (fun v => is_dict v = true) items ->
  filter (fun v => negb (is_dict v)) items = [].
Proof.
  induction 1 as [|v items Hv _ IH]; [reflexivity|]. cbn [filter]. rewrite Hv. exact IH.
Qed.

(** X17. Whenever the statistics pass succeeds, its counts add up: the
    total is the length of the list and equals the valid records plus the
    error records plus the elements that are not mappings; none of the
    three field counts exceeds the number of valid records; and there are
    as many samples as valid records, up to five. *)
Theorem stats_counts_add_up (items : list json) (st : stats) :
  extract_articles_info (JList items) = Stats st ->
  total_articles st = length items
  /\ total_articles st
     = (valid_articles st + length (error_articles st)
        + length (filter (fun v => negb (is_dict v)) items))%nat
  /\ (articles_with_content st <= valid_articles st)%nat
  /\ (articles_with_summary st <= valid_articles st)%nat
  /\ (articles_with_keywords st <= valid_articles st)%nat
  /\ length (sample_articles st) = Nat.min 5 (valid_articles st).
Proof.
  intros H. pose proof (info_cases items) as Hc. rewrite H in Hc. destruct Hc as [_ ->].
  cbn [stats_of total_articles valid_articles articles_with_content articles_with_summary
       articles_with_keywords sample_articles error_articles].
  split; [reflexivity|]. split; [symmetry; apply records_partition|].
  split; [apply valid_with_le|]. split; [apply valid_with_le|]. split; [apply valid_with_le|].
  rewrite length_firstn, valid_samples_length. reflexivity.
Qed.

Lemma stats_counts_add_up_witness :
  let items := [JDict [(py "content", JStr (py "甲"))];
                JDict [(py "error", JStr (py "乙"))]; JList []] in
  extract_articles_info (JList items) = Stats (stats_of items)
  /\ total_articles (stats_of items) = 3%nat.
Proof.
  intros items.
  assert (H : extract_articles_info (JList items) = Stats (stats_of items))
    by (vm_compute; reflexivity).
  split; [exact H|].
  exact (proj1 (stats_counts_add_up items (stats_of items) H)).
Defined.

(** ** Flattening, again *)

Lemma expand_dicts (l : list json) :
  Forall (fun v => is_dict v = true) l -> flat_map expand l = l.
Proof.
  induction 1 as [|v l Hv _ IH]; [reflexivity|]. cbn [flat_map]. rewrite IH.
  destruct v; try discriminate. reflexivity.
Qed.

Lemma expand_all_dicts (data : list json) :
  Forall (fun v => is_dict v = true) (flat_map expand data).
Proof.
  induction data as [|item data IH]; [constructor|]. cbn [flat_map].
  apply Forall_app. split; [|exact IH].
  destruct item as [| | | | |l|kv]; cbn [expand]; try constructor; try reflexivity;
    try constructor.
  apply Forall_forall. intros v Hv. apply filter_In in Hv. apply Hv.
Qed.

(** X18. Flattening is idempotent and works element by element: applied
    to its own output it changes nothing, and the result for two lists put
    end to end is the two results put end to end. *)
Theorem flattening_is_idempotent (a b : list json) :
  _process_data (_process_data a) = _process_data a
  /\ _process_data (a ++ b) = _process_data a ++ _process_data b.
Proof.
  rewrite !process_data_expand. split.
  - apply expand_dicts, expand_all_dicts.
  - apply flat_map_app.
Qed.

(** X19. After flattening, the statistics pass leaves no record
    unaccounted for: when it succeeds on the flattened list, every record
    is counted as valid or as an error. *)
Theorem flattened_records_are_valid_or_errors (data : list json) (st : stats) :
  extract_articles_info (JList (_process_data data)) = Stats st ->
  total_articles st = (valid_articles st + length (error_articles st))%nat.
Proof.
  intros H. pose proof (info_cases (_process_data data)) as Hc. rewrite H in Hc.
  destruct Hc as [_ ->].
  cbn [stats_of total_articles valid_articles error_articles].
  rewrite <- (records_partition (_process_data data) 0), filter_non_dict; [cbn [length]; lia|].
  rewrite process_data_expand. apply expand_all_dicts.
Qed.

Lemma flattened_records_are_valid_or_errors_witness :
  let data := [JList [JDict [(py "content", JStr (py "甲"))]; JInt 7];
               JDict [(py "error", JStr (py "乙"))]; JNull] in
  extract_articles_info (JList (_process_data data)) = Stats (stats_of (_process_data data))
  /\ total_articles (stats_of (_process_data data)) = 2%nat.
Proof.
  intros data.
  assert (H : extract_articles_info (JList (_process_data data))
              = Stats (stats_of (_process_data data))) by (vm_compute; reflexivity).
  split; [exact H|].
  rewrite (flattened_records_are_valid_or_errors data _ H). reflexivity.
Defined.

(** ** A value at the top level that is not an array *)

Lemma process_strings {A : Type} (f : A -> pystr) (l : list A) :
  _process_data (map (fun x => JStr (f x)) l) = [].
Proof.
  rewrite process_data_expand. induction l as [|x l IH]; [reflexivity|exact IH].
Qed.

(** X20. A file that holds one object instead of an array passes the
    structure check, yet its records are lost: the statistics pass reports
    that the data is not an array, and the processor, which then iterates
    over the keys, writes an empty array.  A string is treated the same
    way by the processor, and a number, a truth value or null makes it
    raise. *)
Theorem top_level_object_is_emptied (kv : list (pystr * json)) (s : pystr) (data : json) :
  Validation.is_valid (Validation.validate_json_structure (JDict kv)) = true
  /\ extract_articles_info (JDict kv) = ErrorReport (py "提取信息时出错: 数据不是数组格式")
  /\ process_civil_code_results (JDict kv) = Written []
  /\ process_civil_code_results (JStr s) = Written []
  /\ (measurable data = false -> exists msg, process_civil_code_results data = Raised msg).
Proof.
  split; [reflexivity|]. split; [vm_compute; reflexivity|].
  split; [unfold process_civil_code_results; rewrite (process_strings fst kv); reflexivity|].
  split.
  - unfold process_civil_code_results.
    rewrite (process_strings (fun c => [c]) s). reflexivity.
  - destruct data; try discriminate; intros _; eexists; reflexivity.
Qed.


(** ** From the extraction loop to the statistics *)

Section PipelineFacts.

Variable system_prompt : pystr.
Variable scan : pystr -> result json.
Variable service : nat -> pystr -> pystr -> reply.

Lemma taxonomy_failed (i : nat) (r : reply) :
  failed scan r = true ->
  exists kv,
    taxonomy_record scan i r = JDict kv
    /\ dict_has kv (py "error") = true
    /\ dict_get_default kv (py "error") (JStr (py "未知错误")) = JStr (failure_text scan i r).
Proof.
  destruct r as [[raw|]|e]; cbn [failed taxonomy_record failure_text].
  - destruct (json_loads scan raw) as [v|e]; [discriminate|]. intros _.
    destruct e; eexists; (split; [reflexivity|]); split; reflexivity.
  - intros _. eexists. split; [reflexivity|]. split; reflexivity.
  - intros _. eexists. split; [reflexivity|]. split; reflexivity.
Qed.

Lemma error_entries_nth (items : list json) :
  forall (i k : nat) (kv : list (pystr * json)),
    nth_error items k = Some (JDict kv) ->
    dict_has kv (py "error") = true ->
    In {| index := i + k; error := dict_get_default kv (py "error") (JStr (py "未知错误")) |}
       (error_entries i items).
Proof.
  induction items as [|item items IH]; intros i [|k] kv Hn He; try discriminate.
  - cbn [nth_error] in Hn. injection Hn as ->. cbn [error_entries]. rewrite He.
    cbn [negb]. left. rewrite Nat.add_0_r. reflexivity.
  - cbn [nth_error] in Hn. specialize (IH (S i) k kv Hn He).
    replace (i + S k)%nat with (S i + k)%nat by lia.
    destruct item as [| | | | |l|kv']; cbn [error_entries]; try exact IH.
    destruct (dict_has kv' (py "error")); cbn [negb]; [right|]; exact IH.
Qed.

Lemma returned_run_served (ctx : pystr) (delay_positive : bool) (texts : list pystr)
      (r : run) :
  extract_all system_prompt scan service ctx delay_positive texts = (r, None) ->
  all_results r
  = mapi (fun k text => taxonomy_record scan k (service k system_prompt (user_prompt ctx text)))
         0 texts.
Proof.
  rewrite extract_all_closed. unfold run_of.
  destruct (aborted_unit _ 0 texts) eqn:E; [discriminate|].
  intros H. injection H as <-. cbn [all_results]. rewrite (served_all _ _ _ E). reflexivity.
Qed.

(** X21. A unit for which the call returned a failure record shows up in
    the statistics of the results: when the docx loop returns and the
    statistics pass succeeds on its list, the error records include one
    with the index of that unit and the message made for it, which carries
    the number of the unit counted from one and tells a reply on which
    [json.loads] raised [JSONDecodeError] from every other failure. *)
Theorem failed_units_are_reported (ctx : pystr) (delay_positive : bool) (texts : list pystr)
        (i : nat) (text : pystr) (r : run) (st : stats) :
  nth_error texts i = Some text ->
  failed scan (service i system_prompt (user_prompt ctx text)) = true ->
  extract_all system_prompt scan service ctx delay_positive texts = (r, None) ->
  extract_articles_info (JList (all_results r)) = Stats st ->
  In {| index := i;
        error := JStr (failure_text scan i (service i system_prompt (user_prompt ctx text))) |}
     (error_articles st).
Proof.
  intros Hn Hf Hr Hs.
  pose proof (returned_run_served ctx delay_positive texts r Hr) as Hres.
  pose proof (info_cases (all_results r)) as Hc. rewrite Hs in Hc. destruct Hc as [_ ->].
  cbn [stats_of error_articles].
  destruct (taxonomy_failed i _ Hf) as (kv & Hkv & He & Hg).
  rewrite <- Hg. apply (error_entries_nth (all_results r) 0 i kv); [|exact He].
  rewrite Hres, nth_error_mapi, Hn. cbn [option_map]. rewrite <- Hkv. reflexivity.
Qed.

End PipelineFacts.

Lemma failed_units_are_reported_witness :
  In {| index := 1;
        error := JStr (py "Other error for article 2") |}
     (error_articles
        (stats_of [JDict []; JDict [(py "error", JStr (py "Other error for article 2"))]])).
Proof.
  apply (failed_units_are_reported
           [] (fun s => if (length s <? 10)%nat then Returned (JDict [])
                        else Propagated (RecursionError (py "maximum recursion depth exceeded")))
           (fun n _ _ => if (n =? 0)%nat then Completion (Some (py "{}"))
                         else Completion (Some deep_nesting))
           [] false [py "第一条 甲"; py "第二条 乙"] 1 (py "第二条 乙")
           {| all_results := [JDict []; JDict [(py "error", JStr (py "Other error for article 2"))]];
              log := [Requested [] (user_prompt [] (py "第一条 甲"));
                      Requested [] (user_prompt [] (py "第二条 乙"))] |}
           (stats_of [JDict []; JDict [(py "error", JStr (py "Other error for article 2"))]]));
    vm_compute; reflexivity.
Defined.

(** ** The document context *)

Lemma context_lines_closed (paragraphs : list pystr) :
  context_lines paragraphs = filter has_keyword (clean_lines (upto_marker paragraphs)).
Proof.
  induction paragraphs as [|p rest IH]; [reflexivity|].
  cbn [context_lines upto_marker]. unfold marker_line.
  destruct (truthy (strip p)) eqn:Et; cbn [negb].
  - fold (has_keyword (strip p)).
    destruct (is_marker (strip p)).
    + rewrite clean_lines_cons, Et. cbn [clean_lines map filter].
      destruct (has_keyword (strip p)); reflexivity.
    + rewrite clean_lines_cons, Et. cbn [filter]. rewrite IH.
      destruct (has_keyword (strip p)); reflexivity.
  - apply truthy_false in Et. rewrite Et.
    change (is_marker []) with false. cbv iota.
    rewrite clean_lines_cons, Et. exact IH.
Qed.

(** X22. The document context is made of the trimmed paragraphs that are
    not empty and hold a metadata phrase, as they stand or once their
    spaces are removed, taken from the first twenty paragraphs and no
    further than the first marker paragraph, which is itself still
    examined; paragraphs after either limit never contribute. *)
Theorem document_context_closed_form (paragraphs : list pystr) :
  extract_document_context paragraphs
  = join_nl (filter has_keyword (clean_lines (upto_marker (firstn 20 paragraphs)))).
Proof. unfold extract_document_context. rewrite context_lines_closed. reflexivity. Qed.

(** ** The readers *)

Lemma split_nl_app_NL (a b : pystr) : split_nl (a ++ NL :: b) = split_nl a ++ split_nl b.
Proof.
  induction a as [|c a IH].
  - cbn [app]. rewrite split_nl_NL. reflexivity.
  - cbn [app]. rewrite !(split_nl_cons c), IH.
    destruct (c =? NL); [reflexivity|].
    destruct (split_nl_shape a) as (l & ls & E). rewrite E. reflexivity.
Qed.

Lemma markers_app_NL (a b : pystr) : markers (a ++ NL :: b) = markers a ++ markers b.
Proof.
  rewrite (markers_split_nl (a ++ NL :: b)), split_nl_app_NL, map_app, concat_app.
  rewrite <- !markers_split_nl. reflexivity.
Qed.

Lemma markers_join_nl (texts : list pystr) :
  markers (join_nl texts) = concat (map markers texts).
Proof.
  induction texts as [|t texts IH]; [reflexivity|].
  rewrite join_nl_cons. destruct texts as [|u texts].
  - cbn [map concat]. rewrite app_nil_r. reflexivity.
  - rewrite markers_app_NL, IH. reflexivity.
Qed.

Lemma markers_filter_truthy (texts : list pystr) :
  concat (map markers (filter truthy texts)) = concat (map markers texts).
Proof.
  induction texts as [|t texts IH]; [reflexivity|].
  cbn [filter]. destruct t as [|c t]; cbn [truthy map concat]; [exact IH|].
  rewrite IH. reflexivity.
Qed.

(** X23. Joining the pages neither makes nor breaks a marker: the markers
    of the text of a PDF are the markers of its pages, in order, pages
    without text being skipped; so the structured path yields as many
    units as the pages hold markers. *)
Theorem pdf_pages_keep_markers (pages : list (option pystr)) :
  markers (read_pdf_file pages) = flat_map (fun page => markers (page_text page)) pages
  /\ length (extract_articles_from_pdf (read_pdf_file pages))
     = length (flat_map (fun page => markers (page_text page)) pages).
Proof.
  assert (H : markers (read_pdf_file pages)
              = flat_map (fun page => markers (page_text page)) pages).
  { unfold read_pdf_file. rewrite markers_join_nl, markers_filter_truthy, map_map.
    symmetry. apply flat_map_concat_map. }
  split; [exact H|]. rewrite pdf_units_count, H. reflexivity.
Qed.

Lemma trimmed_lines_join (ls : list pystr) :
  Forall (fun l => no_NL l = true) ls -> trimmed_lines (join_nl (clean_lines ls)) = clean_lines ls.
Proof.
  intros Hn. destruct (clean_lines_props ls Hn) as [Hnk Htk].
  unfold trimmed_lines. fold (clean_lines (split_nl (join_nl (clean_lines ls)))).
  destruct (clean_lines ls) as [|k K] eqn:E; [reflexivity|].
  rewrite (split_nl_join_nl k K Hnk), <- E. apply clean_lines_idem.
Qed.

(** X24. The text the docx reader returns can be taken apart again: when
    no paragraph holds a line break, its non-empty trimmed lines are the
    non-empty trimmed paragraphs, and segmenting its lines gives the units
    of the paragraphs. *)
Theorem docx_text_has_the_paragraphs (paragraphs : list pystr) :
  Forall (fun p => no_NL p = true) paragraphs ->
  trimmed_lines (read_docx_file paragraphs) = clean_lines paragraphs
  /\ segment_lines (split_nl (read_docx_file paragraphs)) = segment_lines paragraphs
  /\ extract_articles_from_docx (split_nl (read_docx_file paragraphs))
     = extract_articles_from_docx paragraphs.
Proof.
  intros Hn.
  assert (H : trimmed_lines (read_docx_file paragraphs) = clean_lines paragraphs)
    by (apply trimmed_lines_join, Hn).
  assert (H2 : segment_lines (split_nl (read_docx_file paragraphs)) = segment_lines paragraphs).
  { rewrite <- (segment_lines_clean (split_nl _)), <- (segment_lines_clean paragraphs).
    unfold trimmed_lines in H. fold (clean_lines (split_nl (read_docx_file paragraphs))) in H.
    rewrite H. reflexivity. }
  split; [exact H|]. split; [exact H2|]. rewrite !docx_as_pdf, H2. reflexivity.
Qed.

Lemma docx_text_has_the_paragraphs_witness :
  trimmed_lines (read_docx_file [py " 第一条 甲 "; []; py "乙"]) = [py "第一条 甲"; py "乙"].
Proof.
  apply (proj1 (docx_text_has_the_paragraphs [py " 第一条 甲 "; []; py "乙"]
                  ltac:(repeat constructor))).
Defined.


(** ** Replies that cannot be JSON *)

Section ReplyFacts.

Variable system_prompt : pystr.
Variable scan : pystr -> result json.
Variable service : nat -> pystr -> pystr -> reply.

Lemma json_loads_rejects (raw : pystr) :
  starts_like_json raw = false -> json_loads scan raw = Propagated JSONDecodeError.
Proof.
  unfold starts_like_json, json_loads.
  destruct (skip_json_blanks raw) as [|c r]; [reflexivity|]. intros ->. reflexivity.
Qed.

(** X25. A reply that does not begin, after blanks, with a character that
    can open a JSON value is recorded as a parse failure, whatever the
    JSON scanner would make of it: an empty reply, prose, or JSON wrapped
    in a code fence all give the record with the number of the unit and
    the raw reply, from the docx parser and from the PDF parser alike. *)
Theorem reply_not_starting_like_json_fails (n i : nat) (text ctx raw : pystr) :
  starts_like_json raw = false ->
  (service n system_prompt (user_prompt ctx text) = Completion (Some raw) ->
   parse_single_article system_prompt scan service n text i ctx
   = Returned
       (JDict [(py "error",
                JStr (py "Failed to parse JSON for article " ++ str_of_nat (i + 1)));
               (py "raw_response", JStr raw)]))
  /\ (service n system_prompt (user_prompt_pdf text) = Completion (Some raw) ->
      parse_single_article_pdf system_prompt scan service n text i
      = Returned
          (JDict [(py "error",
                   JStr (py "Failed to parse JSON for article " ++ str_of_nat (i + 1)));
                  (py "raw_response", JStr raw)])).
Proof.
  intros Hraw. split; intros Hs.
  - rewrite parse_single_article_record, Hs. cbn [raises_decode_error taxonomy_record].
    rewrite (json_loads_rejects raw Hraw). reflexivity.
  - rewrite parse_single_article_pdf_record, Hs. cbn [raises_decode_error taxonomy_record].
    rewrite (json_loads_rejects raw Hraw). reflexivity.
Qed.

End ReplyFacts.

Lemma reply_not_starting_like_json_fails_witness :
  parse_single_article [] (fun _ => Returned (JDict []))
                       (fun _ _ _ => Completion (Some (py "```json" ++ NL :: py "{}" ++ NL :: py "```")))
                       0 (py "第一条 甲") 0 []
  = Returned
      (JDict [(py "error", JStr (py "Failed to parse JSON for article " ++ str_of_nat (0 + 1)));
              (py "raw_response", JStr (py "```json" ++ NL :: py "{}" ++ NL :: py "```"))]).
Proof.
  apply (proj1 (reply_not_starting_like_json_fails [] (fun _ => Returned (JDict []))
                  (fun _ _ _ => Completion (Some (py "```json" ++ NL :: py "{}" ++ NL :: py "```")))
                  0 0 (py "第一条 甲") []
                  (py "```json" ++ NL :: py "{}" ++ NL :: py "```")
                  ltac:(vm_compute; reflexivity))).
  reflexivity.
Defined.

(** ** Looking up one article *)

Lemma find_article_skip (num : pystr) (a rest : list pystr) (cur : list pystr) :
  Forall (fun p => starts_with num p = false) a ->
  find_article num (a ++ rest) false cur = find_article num rest false cur.
Proof.
  induction 1 as [|p a Hp _ IH]; [reflexivity|].
  cbn [app find_article]. unfold starts_with in Hp. rewrite Hp.
  destruct (truthy (strip p)); cbn [negb]; exact IH.
Qed.

Lemma find_article_hit (num m : pystr) (rest : list pystr) (found : bool)
      (cur : list pystr) :
  truthy (strip m) = true -> starts_with num m = true ->
  find_article num (m :: rest) found cur = find_article num rest true [strip m].
Proof.
  intros Ht Hp. cbn [find_article]. unfold starts_with in Hp. rewrite Ht, Hp. reflexivity.
Qed.

Lemma find_article_collect (num : pystr) (c rest : list pystr) :
  Forall (fun p => starts_with num p = false /\ marker_line p = false) c ->
  forall cur,
    find_article num (c ++ rest) true cur = find_article num rest true (cur ++ clean_lines c).
Proof.
  induction 1 as [|p c [Hp Hm] _ IH]; intros cur.
  - cbn [app clean_lines map filter]. rewrite app_nil_r. reflexivity.
  - cbn [app find_article]. unfold starts_with in Hp. unfold marker_line in Hm.
    rewrite Hp, Hm, clean_lines_cons.
    destruct (truthy (strip p)); cbn [negb]; rewrite IH; [|reflexivity].
    rewrite <- app_assoc. reflexivity.
Qed.

Lemma find_article_stop (num : pystr) (rest : list pystr) (cur : list pystr) :
  match rest with
  | [] => True
  | n :: _ => marker_line n = true /\ starts_with num n = false
  end ->
  find_article num rest true cur = (true, cur).
Proof.
  destruct rest as [|n rest]; [reflexivity|]. intros [Hm Hp].
  cbn [find_article]. unfold starts_with in Hp. unfold marker_line in Hm.
  rewrite (is_marker_truthy _ Hm), Hp, Hm. reflexivity.
Qed.

(** X26. Looking up an article number that opens exactly one paragraph
    before the lookup stops gives the trimmed, non-empty paragraphs from
    that paragraph up to the next marker paragraph, joined by newlines: the
    paragraphs before it are passed over, and nothing from the next marker
    paragraph on is read.  When no paragraph starts with the number, the
    article is reported as not found. *)
Theorem lookup_returns_the_article (num m : pystr) (a c rest : list pystr) :
  Forall (fun p => starts_with num p = false) a ->
  truthy (strip m) = true -> starts_with num m = true ->
  Forall (fun p => starts_with num p = false /\ marker_line p = false) c ->
  match rest with
  | [] => True
  | n :: _ => marker_line n = true /\ starts_with num n = false
  end ->
  test_specific_article (a ++ m :: c ++ rest) num = Some (join_nl (clean_lines (m :: c)))
  /\ test_specific_article a num = None.
Proof.
  intros Ha Ht Hm Hc Hr. unfold test_specific_article. split.
  - rewrite (find_article_skip num a _ [] Ha), (find_article_hit num m _ false [] Ht Hm).
    rewrite (find_article_collect num c rest Hc), (find_article_stop num rest _ Hr).
    rewrite clean_lines_cons, Ht. reflexivity.
  - rewrite <- (app_nil_r a), (find_article_skip num a [] [] Ha). reflexivity.
Qed.

Lemma lookup_returns_the_article_witness :
  test_specific_article ([py "第一条 甲"] ++ py " 第二条 乙" :: [py "丙"; []] ++ [py "第三条 丁"; py "戊"])
                        (py "第二条")
  = Some (py "第二条 乙" ++ NL :: py "丙").
Proof.
  apply (proj1 (lookup_returns_the_article (py "第二条") (py " 第二条 乙") [py "第一条 甲"]
                  [py "丙"; []] [py "第三条 丁"; py "戊"]
                  ltac:(repeat constructor) ltac:(vm_compute; reflexivity)
                  ltac:(vm_compute; reflexivity) ltac:(repeat constructor)
                  ltac:(split; vm_compute; reflexivity))).
Defined.


(** ** No character is lost *)

Lemma nonspace_app (a b : pystr) : nonspace (a ++ b) = nonspace a ++ nonspace b.
Proof. apply filter_app. Qed.

Lemma nonspace_of_app (a b : list pystr) : nonspace_of (a ++ b) = nonspace_of a ++ nonspace_of b.
Proof. unfold nonspace_of. rewrite map_app. apply concat_app. Qed.

Lemma nonspace_split_nl (s : pystr) : nonspace_of (split_nl s) = nonspace s.
Proof.
  unfold nonspace_of. induction s as [|c s IH]; [reflexivity|].
  rewrite split_nl_cons. destruct (split_nl_shape s) as (l & ls & E). rewrite E in *.
  destruct (c =? NL) eqn:Ec.
  - apply N.eqb_eq in Ec. subst c. cbn [map concat]. rewrite nonspace_cons.
    change (isspace NL) with true. cbv iota. exact IH.
  - cbn [map concat] in *. rewrite !(nonspace_cons c), <- IH.
    destruct (isspace c); reflexivity.
Qed.

Lemma nonspace_join_nl (K : list pystr) : nonspace (join_nl K) = nonspace_of K.
Proof.
  unfold nonspace_of. induction K as [|k K IH]; [reflexivity|].
  rewrite join_nl_cons. destruct K as [|k' K].
  - cbn [map concat]. rewrite app_nil_r. reflexivity.
  - rewrite nonspace_app, nonspace_cons. change (isspace NL) with true. cbv iota.
    rewrite IH. reflexivity.
Qed.

Lemma nonspace_clean_lines (ls : list pystr) : nonspace_of (clean_lines ls) = nonspace_of ls.
Proof.
  unfold nonspace_of. induction ls as [|l ls IH]; [reflexivity|].
  rewrite clean_lines_cons. cbn [map concat]. rewrite <- IH, <- (nonspace_strip l).
  destruct (truthy (strip l)) eqn:E; [reflexivity|].
  apply truthy_false in E. rewrite E. reflexivity.
Qed.

Lemma groups_concat (P : pystr -> bool) (ls : list pystr) :
  fst (groups P ls) ++ concat (snd (groups P ls)) = ls.
Proof.
  induction ls as [|l ls IH]; [reflexivity|]. rewrite groups_cons.
  destruct (P l); cbn [fst snd concat app]; rewrite IH; reflexivity.
Qed.

Lemma nonspace_unit_of_group (m : pystr) (rest : list pystr) :
  Forall (fun l => no_NL l = true) rest ->
  nonspace (full_text (unit_of_group (m :: rest))) = nonspace_of (m :: rest).
Proof.
  intros Hn. rewrite (unit_of_group_content m rest Hn). unfold full_text. cbn [title content].
  rewrite nonspace_app, nonspace_cons. change (isspace NL) with true. cbv iota.
  rewrite nonspace_strip, nonspace_join_nl, nonspace_clean_lines. reflexivity.
Qed.

Lemma segment_lines_conserve (lines : list pystr) :
  Forall (fun l => no_NL l = true) lines ->
  nonspace_of (front_lines lines)
    ++ nonspace_of (map full_text (segment_lines lines)) = nonspace_of lines.
Proof.
  intros Hn. rewrite segment_lines_groups. unfold front_lines.
  change (groups marker_line lines) with (groups (fun l => is_marker (strip l)) lines).
  pose proof (groups_concat (fun l => is_marker (strip l)) lines) as Hc.
  pose proof (groups_heads (fun l => is_marker (strip l)) lines) as Hh.
  destruct (groups_forall (fun l => no_NL l = true) (fun l => is_marker (strip l)) lines Hn)
    as [_ Hg].
  rewrite <- Hc at 3. rewrite nonspace_of_app. f_equal. clear Hc.
  induction (snd (groups (fun l => is_marker (strip l)) lines)) as [|g gs IH]; [reflexivity|].
  inversion Hh as [|? ? (m & rest & -> & _) Hh']; subst.
  inversion Hg as [|? ? Hgm Hg']; subst. inversion Hgm as [|? ? _ Hrest]; subst.
  cbn [map concat]. rewrite nonspace_of_app, <- (IH Hh' Hg').
  unfold nonspace_of at 1. cbn [map concat].
  rewrite (nonspace_unit_of_group m rest Hrest). reflexivity.
Qed.

(** X27. The line-oriented segmenter loses no character that is not
    whitespace: those of the lines before the first marker line, followed
    by those of the texts of the units, are those of the whole text, in
    the same order. *)
Theorem pdf_segmentation_conserves_characters (s : pystr) :
  nonspace_of (front_lines (split_nl (_clean_pdf_text s)))
    ++ nonspace_of (map full_text (extract_articles_from_pdf s))
  = nonspace s.
Proof.
  unfold extract_articles_from_pdf.
  rewrite (segment_lines_conserve _ (split_nl_no_NL (_clean_pdf_text s))).
  rewrite nonspace_split_nl. apply nonspace_clean.
Qed.

Lemma nonspace_join_content (a b : pystr) :
  nonspace (join_content a b) = nonspace a ++ nonspace b.
Proof.
  unfold join_content. destruct a as [|x a]; [reflexivity|].
  destruct b as [|y b]; cbn [truthy].
  - rewrite app_nil_r. reflexivity.
  - rewrite nonspace_app, (nonspace_cons NL). change (isspace NL) with true. reflexivity.
Qed.

Lemma no_NL_app (a b : pystr) : no_NL (a ++ b) = true -> no_NL b = true.
Proof. unfold no_NL. rewrite forallb_app. intros H. apply andb_true_iff in H. apply H. Qed.

Lemma nonspace_split_title (u : article) :
  no_NL (title u) = true ->
  nonspace (full_text (split_title u)) = nonspace (full_text u).
Proof.
  intros Hn. unfold split_title, match_title_content.
  destruct (match_marker (title u)) as [[tok rest]|] eqn:E; [|reflexivity].
  destruct (match_marker_shape _ _ _ E) as (_ & _ & _ & _ & Ht).
  unfold full_text. cbn [title content]. rewrite Ht in Hn |- *.
  rewrite dot_star_line by (apply forallb_lstrip; eapply no_NL_app; exact Hn).
  rewrite !nonspace_app, !(nonspace_cons NL). change (isspace NL) with true. cbv iota.
  rewrite nonspace_join_content, nonspace_strip, nonspace_lstrip, app_assoc. reflexivity.
Qed.

(** X28. On paragraphs without line breaks the paragraph-oriented
    segmenter loses no character that is not whitespace either: those of
    the paragraphs before the first marker paragraph, followed by those of
    the texts of the units, are those of all the paragraphs. *)
Theorem docx_segmentation_conserves_characters (paragraphs : list pystr) :
  Forall (fun p => no_NL p = true) paragraphs ->
  nonspace_of (front_lines paragraphs)
    ++ nonspace_of (map full_text (extract_articles_from_docx paragraphs))
  = nonspace_of paragraphs.
Proof.
  intros Hn. rewrite <- (segment_lines_conserve paragraphs Hn). f_equal.
  rewrite docx_as_pdf, map_map. unfold nonspace_of. rewrite !map_map.
  f_equal. apply map_ext_in. intros u Hu. apply nonspace_split_title.
  pose proof (segment_lines_units_ok paragraphs Hn) as Hok.
  rewrite Forall_forall in Hok. apply (Hok u Hu).
Qed.

Lemma docx_segmentation_conserves_characters_witness :
  nonspace_of (front_lines [py "目 录"; py "第一条 甲 乙"; py " 丙"])
    ++ nonspace_of (map full_text
                        (extract_articles_from_docx [py "目 录"; py "第一条 甲 乙"; py " 丙"]))
  = nonspace_of [py "目 录"; py "第一条 甲 乙"; py " 丙"].
Proof.
  apply (docx_segmentation_conserves_characters [py "目 录"; py "第一条 甲 乙"; py " 丙"]).
  repeat constructor.
Defined.


(** ** The previews *)

Lemma ellipsis_length (n : nat) (s : pystr) : (length (ellipsis n s) <= n + 3)%nat.
Proof.
  unfold ellipsis. destruct (n <? length s)%nat eqn:E.
  - rewrite length_app, length_firstn. change (length (py "...")) with 3%nat. lia.
  - apply Nat.ltb_ge in E. lia.
Qed.

Lemma slice_to_length {A : Type} (k : Z) (l : list A) :
  (0 <= k)%Z -> length (slice_to k l) = Nat.min (Z.to_nat k) (length l).
Proof.
  intros Hk. unfold slice_to. destruct (0 <=? k)%Z eqn:E.
  - apply length_firstn.
  - apply Z.leb_gt in E. lia.
Qed.

Lemma docx_units_count (paragraphs : list pystr) :
  length (extract_articles_from_docx paragraphs) = length (filter marker_line paragraphs).
Proof.
  rewrite docx_as_pdf, length_map, segment_lines_groups, length_map. apply groups_length.
Qed.

(** X29. A preview shows units exactly when there are any: the PDF preview
    when the text has a marker, the docx preview when some paragraph,
    trimmed, starts with one; otherwise it shows the start of the raw
    text, at most 500 characters and the dots.  The reported total is the
    number of units; for a limit that is not negative, as many units are
    shown as the limit allows; and a shown content never exceeds 100
    characters and the dots. *)
Theorem previews_show_units_when_there_are_any (text : pystr) (paragraphs : list pystr)
        (max_articles : Z) :
  match preview_pdf_content text max_articles with
  | UnitsPreview total shown =>
    markers text <> [] /\ total = length (markers text)
    /\ ((0 <= max_articles)%Z -> length shown = Nat.min (Z.to_nat max_articles) total)
    /\ Forall (fun p => (length (snd p) <= 103)%nat) shown
  | RawPreview t => markers text = [] /\ (length t <= 503)%nat
  end
  /\ match preview_docx_content paragraphs max_articles with
     | UnitsPreview total shown =>
       filter marker_line paragraphs <> []
       /\ total = length (filter marker_line paragraphs)
       /\ ((0 <= max_articles)%Z -> length shown = Nat.min (Z.to_nat max_articles) total)
       /\ Forall (fun p => (length (snd p) <= 103)%nat) shown
     | RawPreview t => filter marker_line paragraphs = [] /\ (length t <= 503)%nat
     end.
Proof.
  split.
  - unfold preview_pdf_content. pose proof (pdf_units_count text) as Hc.
    destruct (extract_articles_from_pdf text) as [|u us] eqn:E.
    + split; [|apply (ellipsis_length 500)].
      destruct (markers text); [reflexivity|discriminate].
    + rewrite <- Hc. split; [destruct (markers text); [discriminate|congruence]|].
      split; [reflexivity|]. split.
      * intros Hk. rewrite length_map. apply slice_to_length, Hk.
      * apply Forall_map, Forall_forall. intros a _. apply (ellipsis_length 100).
  - unfold preview_docx_content. pose proof (docx_units_count paragraphs) as Hc.
    destruct (extract_articles_from_docx paragraphs) as [|u us] eqn:E.
    + split; [|apply (ellipsis_length 500)].
      destruct (filter marker_line paragraphs); [reflexivity|discriminate].
    + rewrite <- Hc. split; [destruct (filter marker_line paragraphs); [discriminate|congruence]|].
      split; [reflexivity|]. split.
      * intros Hk. rewrite length_map. apply slice_to_length, Hk.
      * apply Forall_map, Forall_forall. intros a _. cbn [snd].
        rewrite length_app, length_firstn. change (length (py "...")) with 3%nat. lia.
Qed.


(** ** The two paths of the docx parser *)

Lemma markers_of_marker_line (x : pystr) :
  is_marker x = true -> (1 <= length (markers x))%nat.
Proof.
  destruct x as [|c s]; [discriminate|]. rewrite is_marker_token, markers_cons.
  destruct (marker_token (c :: s)); [cbn [length]; lia|discriminate].
Qed.


Section DocxPaths.

Variable system_prompt : pystr.
Variable scan : pystr -> result json.
Variable service : nat -> pystr -> pystr -> reply.


End DocxPaths.


(** ** The lines of a normalized text, from the lines of the text *)

Lemma class_run_app_NL (x y : pystr) : class_run (x ++ NL :: y) = class_run x.
Proof.
  induction x as [|c x IH].
  - cbn [app]. rewrite (class_run_space NL y eq_refl). reflexivity.
  - cbn [app]. rewrite !(class_run_cons c), IH. reflexivity.
Qed.

Lemma insert_newlines_app_NL (a b : pystr) :
  insert_newlines (a ++ NL :: b) = insert_newlines a ++ NL :: insert_newlines b.
Proof.
  induction a as [|c a IH].
  - cbn [app]. rewrite insert_newlines_cons, (is_marker_space NL b eq_refl). reflexivity.
  - cbn [app]. rewrite !(insert_newlines_cons c), IH.
    rewrite (is_marker_class_run c _ a (class_run_app_NL a b)).
    destruct (is_marker (c :: a)); reflexivity.
Qed.

Lemma collapse_SP_app_NL (a b : pystr) :
  forall f, collapse_go SP f (a ++ NL :: b) = collapse_go SP f a ++ NL :: collapse_go SP false b.
Proof.
  induction a as [|c a IH]; intros f.
  - cbn [app]. rewrite (collapse_go_other SP f NL b) by discriminate. reflexivity.
  - cbn [app]. destruct (N.eq_dec c SP) as [->|Hc].
    + rewrite !collapse_go_same. destruct f; rewrite IH; reflexivity.
    + rewrite !(collapse_go_other SP f c) by assumption. rewrite IH. reflexivity.
Qed.

Lemma replace_cr_app (a b : pystr) : replace_cr (a ++ b) = replace_cr a ++ replace_cr b.
Proof. apply map_app. Qed.

Lemma replace_crlf_app_NL (a b : pystr) :
  replace_crlf (a ++ NL :: b) = replace_crlf a ++ NL :: replace_crlf b
  \/ exists a1, replace_crlf a = a1 ++ [CR]
                /\ replace_crlf (a ++ NL :: b) = a1 ++ NL :: replace_crlf b.
Proof.
  induction a as [| c | c n a IH1 IH2] using pair_induction.
  - left. cbn [app]. rewrite replace_crlf_not_CR by discriminate. reflexivity.
  - cbn [app]. destruct (N.eq_dec c CR) as [->|Hc].
    + right. exists []. split; [reflexivity|]. rewrite replace_crlf_CR. reflexivity.
    + left. rewrite !(replace_crlf_not_CR c) by assumption.
      rewrite (replace_crlf_not_CR NL) by discriminate. reflexivity.
  - cbn [app] in *. destruct (N.eq_dec c CR) as [->|Hc].
    + rewrite !replace_crlf_CR. destruct (n =? NL) eqn:En.
      * destruct IH1 as [IH|(a1 & E1 & E2)].
        -- left. rewrite IH. reflexivity.
        -- right. exists (NL :: a1). rewrite E1, E2. split; reflexivity.
      * destruct IH2 as [IH|(a1 & E1 & E2)].
        -- left. rewrite IH. reflexivity.
        -- right. exists (CR :: a1). rewrite E1, E2. split; reflexivity.
    + rewrite !(replace_crlf_not_CR c) by assumption.
      destruct IH2 as [IH|(a1 & E1 & E2)].
      * left. rewrite IH. reflexivity.
      * right. exists (c :: a1). rewrite E1, E2. split; reflexivity.
Qed.

Lemma trimmed_lines_app_NL (a b : pystr) :
  trimmed_lines (a ++ NL :: b) = trimmed_lines a ++ trimmed_lines b.
Proof.
  unfold trimmed_lines. rewrite split_nl_app_NL, map_app. apply filter_app.
Qed.

Lemma trimmed_lines_clean_lines (x : pystr) : trimmed_lines x = clean_lines (split_nl x).
Proof. reflexivity. Qed.

(** Collapsing runs of newlines changes the empty lines only. *)
Lemma collapse_NL_lines (z : pystr) :
  (exists l ls ls',
      split_nl (collapse_go NL false z) = l :: ls' /\ split_nl z = l :: ls
      /\ filter truthy ls' = filter truthy ls)
  /\ filter truthy (split_nl (collapse_go NL true z)) = filter truthy (split_nl z).
Proof.
  induction z as [|c z [(l & ls & ls' & E1 & E2 & E3) IHt]].
  - split; [exists [], [], []; repeat split|reflexivity].
  - destruct (N.eq_dec c NL) as [->|Hc].
    + rewrite !collapse_go_same, !split_nl_NL. split.
      * exists [], (split_nl z), (split_nl (collapse_go NL true z)).
        split; [reflexivity|]. split; [reflexivity|exact IHt].
      * cbn [filter truthy]. exact IHt.
    + rewrite !(collapse_go_other NL _ c z Hc).
      rewrite (split_nl_other c _ l ls' Hc E1), (split_nl_other c _ l ls Hc E2). split.
      * exists (c :: l), ls, ls'. repeat split. exact E3.
      * cbn [filter truthy]. rewrite E3. reflexivity.
Qed.

Lemma flat_map_filter_truthy {B : Type} (g : pystr -> list B) (L : list pystr) :
  g [] = [] -> flat_map g (filter truthy L) = flat_map g L.
Proof.
  intros Hg. induction L as [|l L IH]; [reflexivity|].
  cbn [filter flat_map]. destruct l as [|c l]; cbn [truthy flat_map].
  - rewrite Hg. exact IH.
  - rewrite IH. reflexivity.
Qed.

Lemma trimmed_lines_insert_join (L : list pystr) :
  trimmed_lines (insert_newlines (join_nl L))
  = flat_map (fun l => trimmed_lines (insert_newlines l)) L.
Proof.
  induction L as [|k K IH]; [reflexivity|].
  rewrite join_nl_cons. cbn [flat_map]. destruct K as [|k' K].
  - cbn [flat_map]. rewrite app_nil_r. reflexivity.
  - rewrite insert_newlines_app_NL, trimmed_lines_app_NL, IH. reflexivity.
Qed.

Lemma trimmed_lines_insert (z : pystr) :
  trimmed_lines (insert_newlines z)
  = flat_map (fun l => trimmed_lines (insert_newlines l)) (split_nl z).
Proof. rewrite <- (join_nl_split_nl z) at 1. apply trimmed_lines_insert_join. Qed.

Lemma trimmed_lines_insert_collapse_NL (z : pystr) :
  trimmed_lines (insert_newlines (collapse NL z)) = trimmed_lines (insert_newlines z).
Proof.
  rewrite !trimmed_lines_insert.
  rewrite <- (flat_map_filter_truthy _ (split_nl (collapse NL z)) eq_refl).
  rewrite <- (flat_map_filter_truthy _ (split_nl z) eq_refl).
  destruct (collapse_NL_lines z) as [(l & ls & ls' & E1 & E2 & E3) _].
  unfold collapse. rewrite E1, E2. cbn [filter]. rewrite E3. reflexivity.
Qed.

Lemma rstrip_decompose (x : pystr) :
  exists w, x = rstrip x ++ w /\ forallb isspace w = true.
Proof.
  induction x as [|c x (w & E & Hw)]; [exists []; split; reflexivity|].
  destruct (rstrip_cons_cases c x) as [(E1 & E2 & Hc)| E1]; rewrite E1.
  - exists (c :: x). split; [reflexivity|]. cbn [forallb]. rewrite Hc.
    apply rstrip_nil_iff, E2.
  - exists w. split; [cbn [app]; rewrite <- E; reflexivity|exact Hw].
Qed.

Lemma lines_app_blank (y w : pystr) :
  forallb isspace w = true ->
  exists l l' ls ls',
    split_nl (y ++ w) = l' :: ls' /\ split_nl y = l :: ls
    /\ rstrip l' = rstrip l /\ clean_lines ls' = clean_lines ls.
Proof.
  intros Hw. induction y as [|c y (l & l' & ls & ls' & E1 & E2 & E3 & E4)].
  - cbn [app]. destruct (split_nl_shape w) as (l' & ls' & E).
    exists [], l', [], ls'. split; [exact E|]. split; [reflexivity|].
    rewrite forallb_space_lines, E in Hw. cbn [forallb] in Hw.
    apply andb_true_iff in Hw. destruct Hw as [Hl Hls]. split.
    + apply rstrip_nil_iff in Hl. rewrite Hl. reflexivity.
    + pose proof (clean_lines_nil ls') as Hn. rewrite Hls in Hn. cbn [negb] in Hn.
      destruct (clean_lines ls'); [reflexivity|discriminate].
  - cbn [app]. rewrite !(split_nl_cons c), E1, E2. destruct (c =? NL).
    + exists [], [], (l :: ls), (l' :: ls'). repeat split.
      rewrite !clean_lines_cons. unfold strip.
      rewrite <- !lstrip_rstrip, E3, E4. reflexivity.
    + exists (c :: l), (c :: l'), ls, ls'. repeat split; [|exact E4].
      apply rstrip_cons_congr, E3.
Qed.

Lemma trimmed_lines_rstrip (x : pystr) : trimmed_lines (rstrip x) = trimmed_lines x.
Proof.
  destruct (rstrip_decompose x) as (w & E & Hw).
  destruct (lines_app_blank (rstrip x) w Hw) as (l & l' & ls & ls' & E1 & E2 & E3 & E4).
  rewrite <- E in E1. rewrite !trimmed_lines_clean_lines, E1, E2, !clean_lines_cons.
  unfold strip. rewrite <- !lstrip_rstrip, E3, E4. reflexivity.
Qed.

Lemma trimmed_lines_lstrip (x : pystr) : trimmed_lines (lstrip x) = trimmed_lines x.
Proof.
  induction x as [|c x IH]; [reflexivity|]. cbn [lstrip].
  destruct (isspace c) eqn:Ec; [|reflexivity]. rewrite IH.
  rewrite !trimmed_lines_clean_lines, (split_nl_cons c).
  destruct (split_nl_shape x) as (l & ls & E). rewrite E.
  destruct (c =? NL); [rewrite clean_lines_cons; reflexivity|].
  rewrite !clean_lines_cons. unfold strip. cbn [lstrip]. rewrite Ec. reflexivity.
Qed.

Lemma trimmed_lines_strip (x : pystr) : trimmed_lines (strip x) = trimmed_lines x.
Proof. unfold strip. rewrite trimmed_lines_rstrip. apply trimmed_lines_lstrip. Qed.

(** The non-empty trimmed lines of the normalized text: the newline
    collapse and the final trimming do not show in them. *)
Lemma normalized_lines (s : pystr) :
  trimmed_lines (_clean_pdf_text s)
  = trimmed_lines (insert_newlines (collapse SP (replace_cr (replace_crlf s)))).
Proof.
  rewrite clean_pdf_text_unfold, trimmed_lines_strip. unfold unify_and_collapse.
  apply trimmed_lines_insert_collapse_NL.
Qed.

(** A line break of the text separates the lines of the normalized text. *)
Lemma normalized_lines_app_NL (a b : pystr) :
  trimmed_lines (_clean_pdf_text (a ++ NL :: b))
  = trimmed_lines (_clean_pdf_text a) ++ trimmed_lines (_clean_pdf_text b).
Proof.
  rewrite !normalized_lines. unfold collapse.
  destruct (replace_crlf_app_NL a b) as [E|(a1 & E1 & E2)].
  - rewrite E, replace_cr_app. change (replace_cr (NL :: replace_crlf b))
      with (NL :: replace_cr (replace_crlf b)).
    rewrite collapse_SP_app_NL, insert_newlines_app_NL. apply trimmed_lines_app_NL.
  - rewrite E1, E2, !replace_cr_app.
    change (replace_cr (NL :: replace_crlf b)) with (NL :: replace_cr (replace_crlf b)).
    change (replace_cr [CR]) with [NL].
    rewrite !collapse_SP_app_NL, !insert_newlines_app_NL, !trimmed_lines_app_NL.
    cbn [collapse_go insert_newlines]. change (trimmed_lines []) with (@nil pystr).
    rewrite app_nil_r. reflexivity.
Qed.

Lemma pdf_units_of_lines (s : pystr) :
  extract_articles_from_pdf s = segment_lines (trimmed_lines (_clean_pdf_text s)).
Proof.
  unfold extract_articles_from_pdf. rewrite trimmed_lines_clean_lines, segment_lines_clean.
  reflexivity.
Qed.

Lemma no_marker_lines (f : pystr) :
  markers f = [] -> Forall (fun l => marker_line l = false) (trimmed_lines f).
Proof.
  intros Hm. apply Forall_forall. intros k Hk.
  rewrite trimmed_lines_clean_lines in Hk.
  destruct (clean_lines_in k _ Hk) as (l & Hl & -> & _).
  unfold marker_line. rewrite strip_idem.
  destruct (is_marker (strip l)) eqn:E; [|reflexivity].
  pose proof (markers_of_marker_line _ E) as Hlen. rewrite markers_strip in Hlen.
  rewrite markers_split_nl in Hm.
  assert (Hl' : markers l = []).
  { clear Hlen E Hk. induction (split_nl f) as [|x xs IH]; [contradiction|].
    cbn [map concat] in Hm. apply app_eq_nil in Hm. destruct Hm as [Hx Hxs].
    destruct Hl as [->|Hl]; [exact Hx|apply IH; assumption]. }
  rewrite Hl' in Hlen. cbn [length] in Hlen. lia.
Qed.

(** X8. Text that precedes the first marker belongs to no unit: the PDF
    segmenter returns the same units for a text with or without lines
    before it that hold no marker, and the docx segmenter the same units
    with or without paragraphs before them that do not start with a
    marker. *)
Theorem front_matter_is_dropped (front text : pystr) (front_paragraphs paragraphs : list pystr) :
  markers front = [] ->
  Forall (fun p => marker_line p = false) front_paragraphs ->
  extract_articles_from_pdf (front ++ NL :: text) = extract_articles_from_pdf text
  /\ extract_articles_from_docx (front_paragraphs ++ paragraphs)
     = extract_articles_from_docx paragraphs.
Proof.
  intros Hf Hp. split.
  - rewrite !pdf_units_of_lines, normalized_lines_app_NL. apply segment_lines_front.
    apply no_marker_lines. rewrite markers_clean_pdf_text. exact Hf.
  - rewrite !docx_as_pdf, (segment_lines_front front_paragraphs paragraphs Hp). reflexivity.
Qed.

Lemma front_matter_is_dropped_witness :
  extract_articles_from_pdf ((py "目  录" ++ [CR; NL] ++ py "总则 ") ++ NL :: py "第一条 甲")
  = extract_articles_from_pdf (py "第一条 甲")
  /\ extract_articles_from_docx ([py "目录"; py "总则 依照第一条"] ++ [py "第一条 甲"; py "子"])
     = extract_articles_from_docx [py "第一条 甲"; py "子"].
Proof.
  apply (front_matter_is_dropped (py "目  录" ++ [CR; NL] ++ py "总则 ") (py "第一条 甲")
           [py "目录"; py "总则 依照第一条"] [py "第一条 甲"; py "子"]);
    [vm_compute; reflexivity|repeat constructor].
Defined.

End Facts.
